(** * db_operations.py: dump transfer pipeline

    A shallow embedding of [src/db_operations.py] (connection retry, dump
    import and export, archive packaging, chunked multi-worker import) and
    the properties of it stated in the specification.

    Conventions of the embedding.
    - Python [str] is [string]; a character is a code point below 256, so
      the whitespace of [str.strip] is the Latin-1 whitespace.
    - The relational engine (the [mariadb] connector and the server behind
      it) and the [zipfile] library are external: they are parameters, the
      records [Engine] and [ZipLib].
    - Effects are threaded through a [world]: the engine state, the file
      system, and a chronological [trace] of the calls made to the outside
      (connect, execute, sleep, print, remove, ...).
    - The file system is the one of a POSIX system: a file holds the
      characters written to it, a text-mode read gives them with
      universal newlines, and the messages of the errors are those of the
      C library, with the path shown as [repr] prints it.
    - Exceptions are values: a computation returns [Ok a] or [Raise e]. *)

From Stdlib Require Import ZArith Ascii String List Lia DecimalString DecimalZ DecimalPos.
From stdpp Require Import base option list gmap strings.

Local Open Scope string_scope.
Local Open Scope Z_scope.
Local Open Scope list_scope.

(** ** Python strings *)

Module PyStr.

(** [sep.join(parts)] *)
Fixpoint join (sep : string) (parts : list string) : string :=
  match parts with
  | [] => ""
  | [p] => p
  | p :: rest => p +:+ sep +:+ join sep rest
  end.

(** [s.split(sep)] for a one-character separator: every occurrence cuts,
    and a text with n separators gives n+1 pieces (possibly empty). *)
Fixpoint split (sep : ascii) (s : string) : list string :=
  match s with
  | EmptyString => [""]
  | String c s' =>
      if Ascii.eqb c sep then "" :: split sep s'
      else match split sep s' with
           | piece :: rest => String c piece :: rest
           | [] => [String c ""]
           end
  end.

(** [c.isspace()] on code points below 256:
    TAB LF VT FF CR, FS GS RS US, SPACE, NEL (0x85), NBSP (0xA0). *)
Definition isspace (c : ascii) : bool :=
  let n := N_of_ascii c in
  ((9 <=? n) && (n <=? 13) || (28 <=? n) && (n <=? 32)
   || (n =? 133) || (n =? 160))%N.

(** [s.strip() == ''] *)
Fixpoint blank (s : string) : bool :=
  match s with
  | EmptyString => true
  | String c s' => isspace c && blank s'
  end.

(** truthiness of [s.strip()] *)
Definition strip_truthy (s : string) : bool := negb (blank s).

(** [s.replace(old, new)] for a one-character [old] *)
Fixpoint replace (old : ascii) (new : string) (s : string) : string :=
  match s with
  | EmptyString => ""
  | String c s' =>
      if Ascii.eqb c old then new +:+ replace old new s'
      else String c (replace old new s')
  end.

(** [c in s] for a character *)
Fixpoint contains (c : ascii) (s : string) : bool :=
  match s with
  | EmptyString => false
  | String d s' => Ascii.eqb d c || contains c s'
  end.

(** [str(n)] for an [int] *)
Definition of_int (n : Z) : string := NilZero.string_of_int (Z.to_int n).

(** truthiness of a string: non-empty *)
Definition truthy (s : string) : bool :=
  match s with EmptyString => false | _ => true end.

(** [os.path.basename(p)]: what follows the last slash *)
Definition basename (p : string) : string :=
  List.last (split "/"%char p) "".

(** What a text-mode read gives for the characters a file holds (universal
    newlines, the default of [open]): a carriage return followed by a line
    feed, and a carriage return alone, are read as one line feed. *)
Fixpoint universal_newlines (s : string) : string :=
  match s with
  | EmptyString => ""
  | String c s' =>
      if Ascii.eqb c (ascii_of_nat 13) then
        match s' with
        | String d s'' =>
            if Ascii.eqb d (ascii_of_nat 10) then String d (universal_newlines s'')
            else String (ascii_of_nat 10) (universal_newlines s')
        | EmptyString => String (ascii_of_nat 10) ""
        end
      else String c (universal_newlines s')
  end.

(** [c.isprintable()] on code points below 256: the ASCII characters from
    the space to the tilde, and the Latin-1 characters from 0xA1 on but
    the soft hyphen (0xAD). *)
Definition isprintable (c : ascii) : bool :=
  let n := N_of_ascii c in
  ((32 <=? n) && (n <=? 126) || (161 <=? n) && negb (n =? 173))%N.

Definition hex_digit (n : N) : ascii :=
  ascii_of_N (if (n <? 10)%N then 48 + n else 87 + n)%N.

(** The escape of one character in [repr(s)], [q] being the quote chosen *)
Definition repr_char (q c : ascii) : string :=
  let n := N_of_ascii c in
  if Ascii.eqb c q || Ascii.eqb c "\"%char then String "\"%char (String c "")
  else if (n =? 9)%N then "\t"
  else if (n =? 10)%N then "\n"
  else if (n =? 13)%N then "\r"
  else if isprintable c then String c ""
  else String "\"%char (String "x"%char
         (String (hex_digit (n / 16)) (String (hex_digit (n mod 16)) ""))).

Fixpoint repr_body (q : ascii) (s : string) : string :=
  match s with
  | EmptyString => ""
  | String c s' => repr_char q c +:+ repr_body q s'
  end.

(** [repr(s)]: between single quotes, or between double quotes when [s]
    holds a single quote and no double quote; the quote chosen, the
    backslash and the characters that are not printable are escaped. *)
Definition repr (s : string) : string :=
  let q := if contains "'"%char s && negb (contains (ascii_of_nat 34) s)
           then ascii_of_nat 34 else "'"%char in
  String q (repr_body q s +:+ String q "").

End PyStr.

(** ** Exceptions *)

Inductive exn_class :=
| MariadbError      (* mariadb.Error and its subclasses *)
| PyException       (* a plain Exception *)
| PyOSError         (* OSError: FileNotFoundError, PermissionError, ... *)
| PyValueError
| PyTypeError
| PyIndexError
| PyOtherError.     (* any other subclass of Exception *)

(** An exception object: class, [str(e)], and the exceptions it is chained
    to ([__cause__] / [__context__]), nearest first; empty when it was
    raised outside any handler and without [from]. *)
Record exn := Exn {
  exn_cls : exn_class;
  exn_msg : string;
  exn_chain : list (exn_class * string)
}.

Definition is_mariadb (e : exn) : bool :=
  match exn_cls e with MariadbError => true | _ => false end.

Inductive res (A : Type) :=
| Ok (a : A)
| Raise (e : exn).
Arguments Ok {A} a.
Arguments Raise {A} e.

(** ** Values and result sets of the connector *)

(** A cell of a fetched row, as far as the program looks at it: [None]; a
    [bool]; another [int]; a [float], kept with the text [str] gives for
    it; a [str]; or an object of any other class ([Decimal], [bytes],
    [date], [datetime], [timedelta], ...), kept with the name of its class
    and the text [str] gives for it. *)
Inductive value :=
| VNone
| VBool (b : bool)
| VInt (n : Z)
| VFloat (repr : string)
| VStr (s : string)
| VOther (cls : string) (text : string).

(** [str(v)], as an f-string formats it *)
Definition py_str (v : value) : string :=
  match v with
  | VNone => "None"
  | VBool b => if b then "True" else "False"
  | VInt n => PyStr.of_int n
  | VFloat r => r
  | VStr s => s
  | VOther _ t => t
  end.

(** What a cursor holds after [execute]: the column names
    ([desc[0] for desc in cur.description]) and the rows ([fetchall()]). *)
Record resultset := ResultSet {
  description : list string;
  rows : list (list value)
}.

(** ** The external collaborators *)

(** The relational engine seen through the connector.  Each call may change
    the engine's state; a failure is a [mariadb.Error] carrying a message
    (the connector reports every failure as a subclass of it).  [close] on
    an open connection does not fail. *)
Record Engine := {
  server : Type;
  connect : server -> option string * server;
  execute : string -> server -> (string + resultset) * server;
  commit : server -> option string * server;
  close : server -> server
}.

(** The file system: the characters each file holds, by path, and the
    paths that cannot be opened for writing or removed.  A path that is
    not in [files] is a path at which there is nothing. *)
Record filesystem := FileSystem {
  files : gmap string string;
  protected : gset string
}.

(** The [zipfile] library: writing one entry into a new archive, and
    extracting all entries.  Either may fail with any exception. *)
Record ZipLib := {
  zip_write : string -> string -> string -> filesystem -> option exn * filesystem;
  zip_extractall : string -> string -> filesystem -> option exn * filesystem
}.

(** Calls made to the outside, in the order they happen. *)
Inductive event :=
| EvConnect (failure : option string)
| EvExecute (sql : string) (failure : option string)
| EvCommit (failure : option string)
| EvClose
| EvSleep (seconds : Z)
| EvPrint (line : string)
| EvRemove (path : string) (failure : option string).

(** ** Constants *)

Definition DB_CONFIG_database : string := "flight_reservation".
Definition DUMP_FILE : string := "flight_database_dump.sql".
Definition COMPRESSED_DUMP : string := "flight_database_dump.zip".
Definition MAX_RETRIES : Z := 3.
Definition RETRY_DELAY : Z := 2.

(** ** The world and the monad of effectful code *)

Section Program.

Context (E : Engine) (Z_ : ZipLib).

Record world := World {
  srv : server E;            (* the engine *)
  fs : filesystem;           (* the files *)
  now : string;              (* what str(datetime.now()) gives *)
  clock : Z;                 (* what time.time() reads *)
  trace : list event         (* calls made so far, oldest first *)
}.

Definition with_srv (s : server E) (w : world) : world :=
  World s (fs w) (now w) (clock w) (trace w).
Definition with_fs (f : filesystem) (w : world) : world :=
  World (srv w) f (now w) (clock w) (trace w).
Definition with_clock (t : Z) (w : world) : world :=
  World (srv w) (fs w) (now w) t (trace w).
Definition emit (ev : event) (w : world) : world :=
  World (srv w) (fs w) (now w) (clock w) (trace w ++ [ev]).

Definition M (A : Type) : Type := world -> res A * world.

Definition ret {A} (a : A) : M A := fun w => (Ok a, w).
Definition raise {A} (e : exn) : M A := fun w => (Raise e, w).
Definition bind {A B} (m : M A) (k : A -> M B) : M B :=
  fun w => match m w with
           | (Ok a, w') => k a w'
           | (Raise e, w') => (Raise e, w')
           end.

#[local] Instance M_ret : MRet M := @ret.
#[local] Instance M_bind : MBind M := fun A B k m => bind m k.

(** [try: body / except Exception as e: handler(e)] *)
Definition try_except {A} (body : M A) (handler : exn -> M A) : M A :=
  fun w => match body w with
           | (Ok a, w') => (Ok a, w')
           | (Raise e, w') => handler e w'
           end.

(** [try: body / except mariadb.Error as e: handler(e)]: any other
    exception passes through. *)
Definition try_except_mariadb {A} (body : M A) (handler : exn -> M A) : M A :=
  try_except body (fun e => if is_mariadb e then handler e else raise e).

(** [try: body / finally: final] *)
Definition try_finally {A} (body : M A) (final : M unit) : M A :=
  fun w => match body w with
           | (r, w') =>
               match final w' with
               | (Ok _, w'') => (r, w'')
               | (Raise e, w'') => (Raise e, w'')
               end
           end.

(** [for x in xs: body(x)] *)
Fixpoint for_each {A} (xs : list A) (body : A -> M unit) : M unit :=
  match xs with
  | [] => mret tt
  | x :: xs' => body x ;; for_each xs' body
  end.

(** [[f(x) for x in xs]] where [f] may raise *)
Fixpoint comprehension {A B} (xs : list A) (f : A -> M B) : M (list B) :=
  match xs with
  | [] => mret []
  | x :: xs' => y ← f x; ys ← comprehension xs' f; mret (y :: ys)
  end.

(** *** Primitive calls *)

Definition mariadb_error (m : string) : exn := Exn MariadbError m [].

(** The connection object; the session it stands for lives in [srv]. *)
Inductive connection := Connection.
Inductive cursor := Cursor.

(** [mariadb.connect] with the entries of [DB_CONFIG] *)
Definition mariadb_connect : M connection := fun w =>
  match connect E (srv w) with
  | (None, s) => (Ok Connection, emit (EvConnect None) (with_srv s w))
  | (Some m, s) =>
      (Raise (mariadb_error m), emit (EvConnect (Some m)) (with_srv s w))
  end.

(** [conn.cursor()] *)
Definition conn_cursor (conn : connection) : M cursor := ret Cursor.

(** [cur.execute(sql)], giving what the cursor then holds *)
Definition cur_execute (cur : cursor) (sql : string) : M resultset := fun w =>
  match execute E sql (srv w) with
  | (inr rs, s) => (Ok rs, emit (EvExecute sql None) (with_srv s w))
  | (inl m, s) =>
      (Raise (mariadb_error m), emit (EvExecute sql (Some m)) (with_srv s w))
  end.

(** [conn.commit()] *)
Definition conn_commit (conn : connection) : M unit := fun w =>
  match commit E (srv w) with
  | (None, s) => (Ok tt, emit (EvCommit None) (with_srv s w))
  | (Some m, s) =>
      (Raise (mariadb_error m), emit (EvCommit (Some m)) (with_srv s w))
  end.

(** [conn.close()] *)
Definition conn_close (conn : connection) : M unit := fun w =>
  (Ok tt, emit EvClose (with_srv (close E (srv w)) w)).

(** [print(line)] *)
Definition print (line : string) : M unit := fun w =>
  (Ok tt, emit (EvPrint line) w).

(** [time.sleep(seconds)] *)
Definition time_sleep (seconds : Z) : M unit := fun w =>
  (Ok tt, emit (EvSleep seconds) (with_clock (clock w + seconds) w)).

(** [time.time()] *)
Definition time_time : M Z := fun w => (Ok (clock w), w).

(** [datetime.now()], as text *)
Definition datetime_now : M string := fun w => (Ok (now w), w).

Definition os_error (m : string) : exn := Exn PyOSError m [].

(** What [open] and [os.remove] raise for a path at which there is
    nothing: a [ValueError] when the path holds a NUL character, else a
    [FileNotFoundError] whose text shows [repr(path)]. *)
Definition missing_path_error (path : string) : exn :=
  if PyStr.contains (ascii_of_nat 0) path
  then Exn PyValueError "embedded null byte" []
  else os_error ("[Errno 2] No such file or directory: " +:+ PyStr.repr path).

(** [open(path, 'r', encoding='utf-8')] followed by [f.read()]: the
    characters of the file, with universal newlines. *)
Definition read_text (path : string) : M string := fun w =>
  if PyStr.contains (ascii_of_nat 0) path then (Raise (missing_path_error path), w)
  else match files (fs w) !! path with
       | Some text => (Ok (PyStr.universal_newlines text), w)
       | None => (Raise (missing_path_error path), w)
       end.

(** [open(path, 'w', encoding='utf-8')]: the file is created or emptied *)
Definition open_w (path : string) : M unit := fun w =>
  if decide (path ∈ protected (fs w)) then
    (Raise (os_error ("[Errno 13] Permission denied: " +:+ PyStr.repr path)), w)
  else
    (Ok tt, with_fs (FileSystem (<[path := ""]> (files (fs w))) (protected (fs w))) w).

(** [f.write(text)] on the file opened at [path] *)
Definition write (path : string) (text : string) : M unit := fun w =>
  let old := default "" (files (fs w) !! path) in
  (Ok tt, with_fs (FileSystem (<[path := old +:+ text]> (files (fs w)))
                              (protected (fs w))) w).

(** [os.remove(path)] *)
Definition os_remove (path : string) : M unit := fun w =>
  match files (fs w) !! path with
  | None =>
      let e := missing_path_error path in
      (Raise e, emit (EvRemove path (Some (exn_msg e))) w)
  | Some _ =>
      if decide (path ∈ protected (fs w)) then
        let m := "[Errno 13] Permission denied: " +:+ PyStr.repr path in
        (Raise (os_error m), emit (EvRemove path (Some m)) w)
      else
        (Ok tt, emit (EvRemove path None)
                  (with_fs (FileSystem (delete path (files (fs w)))
                                       (protected (fs w))) w))
  end.

(** *** get_db_connection *)

(** The [while attempts < MAX_RETRIES] loop; [budget] is
    [MAX_RETRIES - attempts], the iterations left. *)
Fixpoint connect_loop (budget : nat) (attempts : Z) : M connection :=
  match budget with
  | O => raise (Exn PyException
                  "Failed to connect to database after multiple attempts" [])
  | S budget' =>
      try_except_mariadb mariadb_connect (fun e =>
        print ("Connection attempt " +:+ PyStr.of_int (attempts + 1)
               +:+ " failed: " +:+ exn_msg e) ;;
        time_sleep RETRY_DELAY ;;
        connect_loop budget' (attempts + 1))
  end.

Definition get_db_connection : M connection :=
  connect_loop (Z.to_nat MAX_RETRIES) 0.

(** *** import_dump *)

(** [if name:] for an optional string: [None] and [''] are false *)
Definition given (name : option string) : option string :=
  match name with
  | Some n => if PyStr.truthy n then Some n else None
  | None => None
  end.

(** The idiom shared by the database operations:
    [try: conn = get_db_connection(); rest / except Exception as e: handler
     / finally: if 'conn' in locals(): conn.close()].
    [conn] is bound exactly when [get_db_connection] returned. *)
Definition with_connection {A} (rest : connection -> M A)
    (handler : exn -> M A) : M A := fun w =>
  match get_db_connection w with
  | (Raise e, w1) => handler e w1
  | (Ok conn, w1) =>
      try_finally (try_except (rest conn) handler) (conn_close conn) w1
  end.

(** The body of the [for command in sql_commands] loop *)
Definition replay_command (cur : cursor) (command : string) : M unit :=
  if PyStr.strip_truthy command then
    try_except_mariadb (cur_execute cur command ;; mret tt) (fun e =>
      print ("Warning: " +:+ exn_msg e +:+ " - Continuing with next command"))
  else mret tt.

(** The [if new_db_name:] block *)
Definition create_and_use (cur : cursor) (new_db_name : option string) : M unit :=
  match given new_db_name with
  | Some name =>
      cur_execute cur ("CREATE DATABASE IF NOT EXISTS " +:+ name) ;;
      cur_execute cur ("USE " +:+ name) ;;
      mret tt
  | None => mret tt
  end.

(** The [try] suite of [import_dump] after the connection is open *)
Definition import_dump_try (dump_file_path : string)
    (new_db_name : option string) (conn : connection) : M (bool * string) :=
  cur ← conn_cursor conn;
  create_and_use cur new_db_name ;;
  text ← read_text dump_file_path;
  let sql_commands := PyStr.split ";" text in
  for_each sql_commands (replay_command cur) ;;
  conn_commit conn ;;
  mret (true, "Dump imported successfully").

Definition import_dump_except (e : exn) : M (bool * string) :=
  mret (false, "Error importing dump: " +:+ exn_msg e).

Definition import_dump (dump_file_path : string)
    (new_db_name : option string) : M (bool * string) :=
  with_connection (import_dump_try dump_file_path new_db_name)
                  import_dump_except.

(** *** export_dump *)

Definition nl : string := String (ascii_of_nat 10) "".

(** [row[i]] on a tuple *)
Definition subscript (row : list value) (i : nat) : M value :=
  match row !! i with
  | Some v => mret v
  | None => raise (Exn PyIndexError "tuple index out of range" [])
  end.

(** [cur.fetchone()[i]]: [fetchone] gives [None] when there is no row *)
Definition fetchone_subscript (rs : resultset) (i : nat) : M value :=
  match rows rs with
  | row :: _ => subscript row i
  | [] => raise (Exn PyTypeError "'NoneType' object is not subscriptable" [])
  end.

(** [enumerate(xs)] *)
Fixpoint enumerate_from {A} (i : Z) (xs : list A) : list (Z * A) :=
  match xs with
  | [] => []
  | x :: xs' => (i, x) :: enumerate_from (i + 1) xs'
  end.
Definition enumerate {A} (xs : list A) : list (Z * A) := enumerate_from 0 xs.

(** The three branches of the [for value in row] loop: [None]; an
    instance of [int] (a [bool] is one) or of [float]; anything else. *)
Definition serialize_value (v : value) : string :=
  match v with
  | VNone => "NULL"
  | VBool _ | VInt _ | VFloat _ => py_str v
  | VStr _ | VOther _ _ => "'" +:+ PyStr.replace "'" "''" (py_str v) +:+ "'"
  end.

(** The body of the [for i, row in enumerate(rows)] loop *)
Definition write_row (f : string) (n_rows : Z) (ir : Z * list value) : M unit :=
  let '(i, row) := ir in
  let values := map serialize_value row in
  write f ("(" +:+ PyStr.join "," values +:+ ")") ;;
  write f (if (i =? n_rows - 1)%Z then ";" +:+ nl else "," +:+ nl).

(** The body of the [for table in tables] loop *)
Definition export_table (cur : cursor) (f : string) (table : value) : M unit :=
  let t := py_str table in
  write f (nl +:+ "-- Table structure for table `" +:+ t +:+ "`" +:+ nl) ;;
  write f ("DROP TABLE IF EXISTS `" +:+ t +:+ "`;" +:+ nl) ;;
  rs ← cur_execute cur ("SHOW CREATE TABLE `" +:+ t +:+ "`");
  create_table ← fetchone_subscript rs 1;
  write f (py_str create_table +:+ ";" +:+ nl +:+ nl) ;;
  write f ("-- Dumping data for table `" +:+ t +:+ "`" +:+ nl) ;;
  rs ← cur_execute cur ("SELECT * FROM `" +:+ t +:+ "`");
  let rows := rows rs in
  match rows with
  | _ :: _ =>
      let columns := description rs in
      write f ("INSERT INTO `" +:+ t +:+ "` (`" +:+ PyStr.join "`,`" columns
               +:+ "`) VALUES" +:+ nl) ;;
      for_each (enumerate rows) (write_row f (Z.of_nat (length rows)))
  | [] => mret tt
  end.

(** The [if db_name:] block *)
Definition use_database (cur : cursor) (db_name : option string) : M unit :=
  match given db_name with
  | Some name => cur_execute cur ("USE " +:+ name) ;; mret tt
  | None => mret tt
  end.

(** The [try] suite of [export_dump] after the connection is open *)
Definition export_dump_try (output_file_path : string)
    (db_name : option string) (conn : connection) : M (bool * string) :=
  cur ← conn_cursor conn;
  use_database cur db_name ;;
  rs ← cur_execute cur "SHOW TABLES";
  tables ← comprehension (rows rs) (fun table => subscript table 0);
  open_w output_file_path ;;
  stamp ← datetime_now;
  write output_file_path ("-- Database dump generated on " +:+ stamp +:+ nl) ;;
  write output_file_path
    ("-- Database: " +:+ default DB_CONFIG_database (given db_name) +:+ nl +:+ nl) ;;
  for_each tables (export_table cur output_file_path) ;;
  mret (true, "Dump exported successfully").

Definition export_dump_except (e : exn) : M (bool * string) :=
  mret (false, "Error exporting dump: " +:+ exn_msg e).

Definition export_dump (output_file_path : string)
    (db_name : option string) : M (bool * string) :=
  with_connection (export_dump_try output_file_path db_name)
                  export_dump_except.

(** *** compress_file, decompress_file *)

Definition lift_zip (call : filesystem -> option exn * filesystem) : M unit :=
  fun w => match call (fs w) with
           | (None, f) => (Ok tt, with_fs f w)
           | (Some e, f) => (Raise e, with_fs f w)
           end.

Definition compress_file (input_path output_path : string) : M (bool * string) :=
  try_except
    (lift_zip (zip_write Z_ output_path input_path (PyStr.basename input_path)) ;;
     mret (true, "File compressed successfully"))
    (fun e => mret (false, "Error compressing file: " +:+ exn_msg e)).

Definition decompress_file (input_path output_dir : string) : M (bool * string) :=
  try_except
    (lift_zip (zip_extractall Z_ input_path output_dir) ;;
     mret (true, "File decompressed successfully"))
    (fun e => mret (false, "Error decompressing file: " +:+ exn_msg e)).

(** *** threaded_import *)

(** [return [dump_file_path] * num_chunks]: a non-positive count gives
    the empty list. *)
Definition split_dump_file (dump_file_path : string) (num_chunks : Z)
    : list string :=
  repeat dump_file_path (Z.to_nat num_chunks).

(** The dict a worker appends to [results] *)
Record outcome := Outcome {
  db_name : string;
  success : bool;
  message : string;
  time : option Z
}.

(** [import_chunk] up to its [results.append]: the record it is about to
    append, from the [try] suite or from the [except] suite. *)
Definition import_chunk_record (chunk_file db_name : string)
    : world -> outcome * world := fun w =>
  match (start_time ← time_time;
         r ← import_dump chunk_file (Some db_name);
         stop_time ← time_time;
         mret (r, stop_time - start_time)) w with
  | (Ok (success, message, elapsed), w') =>
      (Outcome db_name success message (Some elapsed), w')
  | (Raise e, w') =>
      (Outcome db_name false (exn_msg e) None, w')
  end.

(** The cleanup loop: [try: os.remove(chunk_file) / except: pass] *)
Definition cleanup (chunks : list string) : M unit :=
  for_each chunks (fun chunk_file =>
    try_except (os_remove chunk_file) (fun _ => mret tt)).

(** Threads.  The coordinator and the workers take turns as a scheduler
    decides.  A worker takes two steps: the import (its engine and file
    calls taken together), then the append to the shared list, which is
    one indivisible step ([list.append]).  The coordinator starts one
    worker per chunk, joins them in order (a join can only be taken once
    that worker has finished), cleans up and returns. *)
Inductive worker :=
| Started (chunk_file db_name : string)
| Appending (r : outcome)
| Finished.

Inductive coordinator :=
| Starting (i : nat)
| Joining (i : nat)
| CleaningUp
| Returned.

Record pool := Pool {
  pc : coordinator;
  chunks : list string;
  threads : list worker;
  results : list outcome;
  shared : world
}.

Inductive actor :=
| Main
| Worker (i : nat).

Definition thread_name (db_name_prefix : string) (i : nat) : string :=
  db_name_prefix +:+ "_thread_" +:+ PyStr.of_int (Z.of_nat i).

(** One turn of [a]; [None] when [a] cannot move (blocked or done). *)
Definition step (db_name_prefix : string) (a : actor) (p : pool) : option pool :=
  match a, pc p with
  | Main, Starting i =>
      match chunks p !! i with
      | Some chunk_file =>
          Some (Pool (Starting (S i)) (chunks p)
                  (threads p ++ [Started chunk_file (thread_name db_name_prefix i)])
                  (results p) (shared p))
      | None => Some (Pool (Joining 0) (chunks p) (threads p) (results p) (shared p))
      end
  | Main, Joining i =>
      match threads p !! i with
      | Some Finished =>
          Some (Pool (Joining (S i)) (chunks p) (threads p) (results p) (shared p))
      | Some _ => None
      | None => Some (Pool CleaningUp (chunks p) (threads p) (results p) (shared p))
      end
  | Main, CleaningUp =>
      Some (Pool Returned (chunks p) (threads p) (results p)
              (snd (cleanup (chunks p) (shared p))))
  | Main, Returned => None
  | Worker i, _ =>
      match threads p !! i with
      | Some (Started chunk_file db_name) =>
          let '(r, w) := import_chunk_record chunk_file db_name (shared p) in
          Some (Pool (pc p) (chunks p) (<[i := Appending r]> (threads p))
                  (results p) w)
      | Some (Appending r) =>
          Some (Pool (pc p) (chunks p) (<[i := Finished]> (threads p))
                  (results p ++ [r]) (shared p))
      | _ => None
      end
  end.

(** The turns of a schedule, in order; a turn that cannot move is void. *)
Fixpoint run (db_name_prefix : string) (schedule : list actor) (p : pool) : pool :=
  match schedule with
  | [] => p
  | a :: schedule' =>
      run db_name_prefix schedule' (default p (step db_name_prefix a p))
  end.

Definition threaded_import_start (dump_file_path : string) (num_threads : Z)
    (w : world) : pool :=
  Pool (Starting 0) (split_dump_file dump_file_path num_threads) [] [] w.

(** [threaded_import] under a schedule: what it returns, with the world
    it leaves, or [None] if it has not returned by the end of the
    schedule. *)
Definition threaded_import (dump_file_path db_name_prefix : string)
    (num_threads : Z) (schedule : list actor) (w : world)
    : option (list outcome * world) :=
  let p := run db_name_prefix schedule
             (threaded_import_start dump_file_path num_threads w) in
  match pc p with
  | Returned => Some (results p, shared p)
  | _ => None
  end.

(** *** check_data_consistency *)

(** The text of the first query, as the triple-quoted literal has it *)
Definition duplicate_seats_query : string :=
  nl +:+ "            SELECT f.flight_id, r.seat, COUNT(*) as duplicates"
  +:+ nl +:+ "            FROM Flight f"
  +:+ nl +:+ "            JOIN Booking b ON f.flight_id = b.flight_id"
  +:+ nl +:+ "            JOIN Reserve r ON b.booking_id = r.booking_id"
  +:+ nl +:+ "            GROUP BY f.flight_id, r.seat"
  +:+ nl +:+ "            HAVING duplicates > 1"
  +:+ nl +:+ "        ".

(** The text of the second query: the placeholder the source has *)
Definition overlapping_flights_query : string :=
  nl +:+ "            [Implementation of overlapping flight check]"
  +:+ nl +:+ "        ".

(** One entry of the [results] dict: the keys 'count', 'time', 'data' *)
Record check_entry := CheckEntry {
  check_count : Z;
  check_time : Z;
  check_data : list (list value)
}.

(** The [try] suite of [check_data_consistency] after the connection is
    open; [results] starts as the empty dict. *)
Definition check_data_consistency_try (conn : connection)
    : M (bool * string * gmap string check_entry) :=
  let results : gmap string check_entry := ∅ in
  cur ← conn_cursor conn;
  start_time ← time_time;
  rs ← cur_execute cur duplicate_seats_query;
  let duplicate_seats := rows rs in
  stop_time ← time_time;
  let results :=
    <["duplicate_seats" := CheckEntry (Z.of_nat (length duplicate_seats))
                                      (stop_time - start_time) duplicate_seats]>
      results in
  start_time ← time_time;
  rs ← cur_execute cur overlapping_flights_query;
  let overlapping_flights := rows rs in
  stop_time ← time_time;
  let results :=
    <["overlapping_flights" := CheckEntry (Z.of_nat (length overlapping_flights))
                                          (stop_time - start_time) overlapping_flights]>
      results in
  mret (true, "Consistency checks completed", results).

Definition check_data_consistency_except (e : exn)
    : M (bool * string * gmap string check_entry) :=
  mret (false, "Error during consistency checks: " +:+ exn_msg e, ∅).

Definition check_data_consistency : M (bool * string * gmap string check_entry) :=
  with_connection check_data_consistency_try check_data_consistency_except.

(** *** benchmark_import_export *)

(** [range(a, b)] *)
Definition range (a b : Z) : list Z :=
  map (fun k => a + Z.of_nat k) (seq 0 (Z.to_nat (b - a))).

(** One dict of the [results] list.  ['export_file'] is a key of the dict
    only when the export was tried: [None] here is the missing key, and
    [Some None] the key bound to [None]. *)
Record benchmark_record := BenchmarkRecord {
  iteration : Z;
  bench_success : bool;
  error : option string;
  import_time : option Z;
  export_time : option Z;
  export_file : option (option string)
}.

(** The body of the [for i in range(1, iterations + 1)] loop: the record
    it appends. *)
Definition benchmark_iteration (i : Z) : M benchmark_record :=
  start_time ← time_time;
  r ← import_dump DUMP_FILE (Some ("benchmark_db_" +:+ PyStr.of_int i));
  let '(success, message) := r in
  stop_time ← time_time;
  let import_time := stop_time - start_time in
  if negb success then
    mret (BenchmarkRecord i false (Some message) None None None)
  else
    let export_file := "benchmark_export_" +:+ PyStr.of_int i +:+ ".sql" in
    start_time ← time_time;
    r ← export_dump export_file (Some ("benchmark_db_" +:+ PyStr.of_int i));
    let '(success, message) := r in
    stop_time ← time_time;
    let export_time := stop_time - start_time in
    mret (BenchmarkRecord i success
            (if negb success then Some message else None)
            (Some import_time)
            (if success then Some export_time else None)
            (Some (if success then Some export_file else None))).

(** The loop, with the list built so far *)
Fixpoint benchmark_loop (indices : list Z) (results : list benchmark_record)
    : M (list benchmark_record) :=
  match indices with
  | [] => mret results
  | i :: indices' =>
      r ← benchmark_iteration i;
      benchmark_loop indices' (results ++ [r])
  end.

Definition benchmark_import_export (iterations : Z) : M (list benchmark_record) :=
  benchmark_loop (range 1 (iterations + 1)) [].

End Program.

Arguments World {E} _ _ _ _ _.
Arguments srv {E} _.
Arguments fs {E} _.
Arguments now {E} _.
Arguments clock {E} _.
Arguments trace {E} _.
Arguments with_srv {E} _ _.
Arguments with_fs {E} _ _.
Arguments with_clock {E} _ _.
Arguments emit {E} _ _.
Arguments ret {E A} _ _.
Arguments raise {E A} _ _.
Arguments bind {E A B} _ _ _.
Arguments try_except {E A} _ _ _.
Arguments try_except_mariadb {E A} _ _ _.
Arguments try_finally {E A} _ _ _.
Arguments for_each {E A} _ _ _.
Arguments comprehension {E A B} _ _ _.
Arguments mariadb_connect {E} _.
Arguments conn_cursor {E} _ _.
Arguments cur_execute {E} _ _ _.
Arguments conn_commit {E} _ _.
Arguments conn_close {E} _ _.
Arguments print {E} _ _.
Arguments time_sleep {E} _ _.
Arguments time_time {E} _.
Arguments datetime_now {E} _.
Arguments read_text {E} _ _.
Arguments open_w {E} _ _.
Arguments write {E} _ _ _.
Arguments os_remove {E} _ _.
Arguments connect_loop {E} _ _ _.
Arguments get_db_connection {E} _.
Arguments with_connection {E A} _ _ _.
Arguments replay_command {E} _ _ _.
Arguments create_and_use {E} _ _ _.
Arguments import_dump_try {E} _ _ _ _.
Arguments import_dump_except {E} _ _.
Arguments import_dump {E} _ _ _.
Arguments subscript {E} _ _ _.
Arguments fetchone_subscript {E} _ _ _.
Arguments write_row {E} _ _ _ _.
Arguments export_table {E} _ _ _ _.
Arguments use_database {E} _ _ _.
Arguments export_dump_try {E} _ _ _ _.
Arguments export_dump_except {E} _ _.
Arguments export_dump {E} _ _ _.
Arguments lift_zip {E} _ _.
Arguments compress_file {E} _ _ _ _.
Arguments decompress_file {E} _ _ _ _.
Arguments import_chunk_record {E} _ _ _.
Arguments cleanup {E} _ _.
Arguments Pool {E} _ _ _ _ _.
Arguments pc {E} _.
Arguments chunks {E} _.
Arguments threads {E} _.
Arguments results {E} _.
Arguments shared {E} _.
Arguments step {E} _ _ _.
Arguments run {E} _ _ _.
Arguments threaded_import_start {E} _ _ _.
Arguments threaded_import {E} _ _ _ _ _.

(** ** Vocabulary of the specification *)

(** The SQL texts handed to [execute] in a trace, in order *)
Definition executed (tr : list event) : list string :=
  omap (fun ev => match ev with EvExecute sql _ => Some sql | _ => None end) tr.

(** The arguments of [time.sleep] in a trace, in order *)
Definition sleeps (tr : list event) : list Z :=
  omap (fun ev => match ev with EvSleep d => Some d | _ => None end) tr.

(** The outcomes of the connection attempts in a trace, in order *)
Definition connects (tr : list event) : list (option string) :=
  omap (fun ev => match ev with EvConnect o => Some o | _ => None end) tr.

(** What one failed connection attempt leaves in the trace: the attempt,
    the printed line, the sleep. *)
Definition failed_attempt (i : Z) (cause : string) : list event :=
  [ EvConnect (Some cause);
    EvPrint ("Connection attempt " +:+ PyStr.of_int (i + 1) +:+ " failed: " +:+ cause);
    EvSleep RETRY_DELAY ].

Fixpoint failed_attempts (i : Z) (causes : list string) : list event :=
  match causes with
  | [] => []
  | c :: causes' => failed_attempt i c ++ failed_attempts (i + 1) causes'
  end.

(** [needle in hay] for strings *)
Fixpoint is_in (needle hay : string) : bool :=
  String.prefix needle hay ||
  match hay with
  | EmptyString => false
  | String _ hay' => is_in needle hay'
  end.

(** An exception carries a cause when it is chained to it or its message
    quotes the cause's message. *)
Definition carries_cause (e : exn) (cause : string) : Prop :=
  In (MariadbError, cause) (exn_chain e) \/ is_in cause (exn_msg e) = true.

(** A table as the engine holds it *)
Record table := Table {
  t_name : string;
  t_create : string;          (* the text SHOW CREATE TABLE reports *)
  t_columns : list string;
  t_rows : list (list value)
}.

(** What a statement of a dump does to the tables of the selected database *)
Inductive action :=
| ADrop (name : string)
| ACreate (t : table)
| AInsert (name : string) (new_rows : list (list value))
| ANothing.

(** The tables of one database, by name *)
Abbreviation database := (gmap string table).

Definition with_rows (new_rows : list (list value)) (t : table) : table :=
  Table (t_name t) (t_create t) (t_columns t) (t_rows t ++ new_rows).

Definition apply_action (a : action) (D : database) : database :=
  match a with
  | ADrop name => delete name D
  | ACreate t => <[t_name t := Table (t_name t) (t_create t) (t_columns t) []]> D
  | AInsert name new_rows => alter (with_rows new_rows) name D
  | ANothing => D
  end.

(** The database that holds the tables of a list (a later table of the
    same name replaces an earlier one) *)
Definition database_of (T : list table) : database :=
  foldl (fun D t => <[t_name t := t]> D) ∅ T.

(** A time stamp, as [str(datetime.now())] prints it *)
Definition stamp0 : string := "2024-01-01 00:00:00.000000".

(** ** A scripted engine

    A stand-in for the server, for running the program on concrete inputs:
    it refuses the first connections as told, answers the catalogue
    queries from the tables it holds, and carries out the statements of
    its script where the tables allow it; any other statement is a syntax
    error. *)
Module Mock.

Record state := State {
  refusals : list string;
  commit_error : option string;
  dbs : gmap string database;
  current : string
}.

Fixpoint strip_prefix (p s : string) : option string :=
  match p, s with
  | EmptyString, _ => Some s
  | String a p', String b s' => if Ascii.eqb a b then strip_prefix p' s' else None
  | String _ _, EmptyString => None
  end.

(** [s] without its closing backquote *)
Fixpoint unquoted (s : string) : option string :=
  match s with
  | EmptyString => None
  | String c EmptyString => if Ascii.eqb c "`" then Some "" else None
  | String c s' => String c <$> unquoted s'
  end.

Definition lookup_script (sql : string) (sc : list (string * action)) : option action :=
  snd <$> List.find (fun entry => String.eqb (fst entry) sql) sc.

Definition no_rows : resultset := ResultSet [] [].

(** Why a statement cannot be carried out on the tables [D]: a table is
    created only where there is none of its name, and rows are inserted
    only into a table that is there. *)
Definition refusal (a : action) (D : database) : option string :=
  match a with
  | ACreate t =>
      match D !! t_name t with
      | Some _ => Some ("Table '" +:+ t_name t +:+ "' already exists")
      | None => None
      end
  | AInsert name _ =>
      match D !! name with
      | Some _ => None
      | None => Some ("Table '" +:+ name +:+ "' doesn't exist")
      end
  | ADrop _ | ANothing => None
  end.

Definition connect (s : state) : option string * state :=
  match refusals s with
  | m :: rest =>
      (Some m, State rest (commit_error s) (dbs s) (current s))
  | [] =>
      (None, State [] (commit_error s) (dbs s) DB_CONFIG_database)
  end.

Definition with_database (s : state) (k : database -> (string + resultset) * state)
    : (string + resultset) * state :=
  match dbs s !! current s with
  | Some D => k D
  | None => (inl "No database selected", s)
  end.

Definition with_table (s : state) (quoted : string)
    (k : table -> (string + resultset) * state) : (string + resultset) * state :=
  with_database s (fun D =>
    match unquoted quoted ≫= (D !!.) with
    | Some t => k t
    | None => (inl "Table doesn't exist", s)
    end).

Definition execute (script : list (string * action)) (sql : string) (s : state)
    : (string + resultset) * state :=
  if String.eqb sql "SHOW TABLES" then
    with_database s (fun D =>
      (inr (ResultSet ["Tables_in_" +:+ current s]
                      (map (fun entry => [VStr (fst entry)]) (map_to_list D))), s))
  else match strip_prefix "CREATE DATABASE IF NOT EXISTS " sql with
  | Some name =>
      (inr no_rows,
       State (refusals s) (commit_error s)
             (match dbs s !! name with
              | Some _ => dbs s
              | None => <[name := ∅]> (dbs s)
              end)
             (current s))
  | None =>
  match strip_prefix "USE " sql with
  | Some name =>
      match dbs s !! name with
      | Some _ =>
          (inr no_rows,
           State (refusals s) (commit_error s) (dbs s) name)
      | None => (inl ("Unknown database '" +:+ name +:+ "'"), s)
      end
  | None =>
  match strip_prefix "SHOW CREATE TABLE `" sql with
  | Some quoted =>
      with_table s quoted (fun t =>
        (inr (ResultSet ["Table"; "Create Table"]
                        [[VStr (t_name t); VStr (t_create t)]]), s))
  | None =>
  match strip_prefix "SELECT * FROM `" sql with
  | Some quoted =>
      with_table s quoted (fun t =>
        (inr (ResultSet (t_columns t) (t_rows t)), s))
  | None =>
  match lookup_script sql script with
  | Some a =>
      with_database s (fun D =>
        match refusal a D with
        | Some m => (inl m, s)
        | None =>
            (inr no_rows,
             State (refusals s) (commit_error s)
                   (<[current s := apply_action a D]> (dbs s))
                   (current s))
        end)
  | None => (inl "You have an error in your SQL syntax", s)
  end end end end end.


Definition commit (s : state) : option string * state := (commit_error s, s).

Definition close (s : state) : state := s.

Definition engine (script : list (string * action)) : Engine :=
  Build_Engine state connect (execute script) commit close.

(** A world around a server state: the files given, the clock at 0. *)
Definition world_of (script : list (string * action)) (s : state)
    (fls : gmap string string) : world (engine script) :=
  World (s : server (engine script)) (FileSystem fls ∅) stamp0 0 [].

End Mock.

(** ** Vocabulary for import_dump *)

(** What a text-mode read of the file at [path] gives, when there is one *)
Definition file_text (f : filesystem) (path : string) : option string :=
  if PyStr.contains (ascii_of_nat 0) path then None
  else PyStr.universal_newlines <$> files f !! path.

(** The non-blank pieces of a dump, in order *)
Definition statements_of (text : string) : list string :=
  List.filter PyStr.strip_truthy (PyStr.split ";" text).

(** What replaying one statement leaves in the trace: the [execute] call
    and, when the engine refused it, the printed warning. *)
Definition statement_events (command : string) (failure : option string)
    : list event :=
  EvExecute command failure ::
  match failure with
  | Some m => [EvPrint ("Warning: " +:+ m +:+ " - Continuing with next command")]
  | None => []
  end.

Fixpoint replay_events (commands : list string) (failures : list (option string))
    : list event :=
  match commands, failures with
  | c :: commands', f :: failures' =>
      statement_events c f ++ replay_events commands' failures'
  | _, _ => []
  end.

(** How many statements took effect, how many were refused *)
Definition took_effect (failures : list (option string)) : nat :=
  length (List.filter (fun f => match f with None => true | Some _ => false end) failures).
Definition refused (failures : list (option string)) : nat :=
  length (List.filter (fun f => match f with None => false | Some _ => true end) failures).

(** What [import_dump] returns once the replay is over, by the outcome of
    the final commit *)
Definition import_result (commit_failure : option string) : bool * string :=
  match commit_failure with
  | None => (true, "Dump imported successfully")
  | Some m => (false, "Error importing dump: " +:+ m)
  end.

(** ** Concrete inputs *)

(** The two statements the engine understands *)
Definition small_script : list (string * action) :=
  [ ("CREATE TABLE t (a INT)",
     ACreate (Table "t" "CREATE TABLE t (a INT)" ["a"] []));
    (" INSERT INTO t VALUES (1)", AInsert "t" [[VInt 1]]) ].

(** A server holding the configured database, empty, whose commit may
    fail *)
Definition small_server (commit_error : option string) : Mock.state :=
  Mock.State [] commit_error {[ DB_CONFIG_database := ∅ ]} "".

(** A dump of three non-blank statements, the second one malformed, with a
    blank piece in between and a blank tail. *)
Definition small_dump : string :=
  "CREATE TABLE t (a INT); INSERT INTO t VALUE (1);  ; INSERT INTO t VALUES (1); ".

Definition small_world (commit_error : option string)
    : world (Mock.engine small_script) :=
  Mock.world_of small_script (small_server commit_error)
    {[ "dump.sql" := small_dump ]}.

(** ** Vocabulary for export_dump *)

Definition quote : ascii := "'"%char.

(** A text with every single quote doubled and nothing else changed *)
Definition double_quotes (t : string) : string :=
  string_of_list_ascii
    (flat_map (fun c => if Ascii.eqb c quote then [quote; quote] else [c])
              (list_ascii_of_string t)).

(** Reading back: a pair of single quotes stands for one *)
Fixpoint undouble (s : string) : string :=
  match s with
  | EmptyString => ""
  | String c s' =>
      if Ascii.eqb c quote then
        match s' with
        | String d s'' =>
            if Ascii.eqb d quote then String c (undouble s'')
            else String c (undouble s')
        | EmptyString => String c ""
        end
      else String c (undouble s')
  end.

(** A numeric value: what the connector gives for a column of a numeric
    type ([int], [float], and [decimal.Decimal] for DECIMAL), and [bool] *)
Definition numeric (v : value) : bool :=
  match v with
  | VBool _ | VInt _ | VFloat _ => true
  | VOther cls _ => String.eqb cls "Decimal"
  | VNone | VStr _ => false
  end.

(** C6 as stated: NULL for an absent value, the bare text of a numeric
    value, and for every other value its text between single quotes with
    the single quotes doubled. *)
Definition serialization_claim : Prop :=
  forall v : value,
    match v with
    | VNone => serialize_value v = "NULL"
    | _ =>
        if numeric v then serialize_value v = py_str v
        else serialize_value v = "'" +:+ double_quotes (py_str v) +:+ "'"
    end.

(** One row of an INSERT statement *)
Definition row_text (row : list value) : string :=
  "(" +:+ PyStr.join "," (map serialize_value row) +:+ ")".

(** The single INSERT statement of a table: all its rows, comma separated *)
Definition insert_statement (t : table) : string :=
  "INSERT INTO `" +:+ t_name t +:+ "` (`" +:+ PyStr.join "`,`" (t_columns t)
    +:+ "`) VALUES" +:+ nl
    +:+ PyStr.join ("," +:+ nl) (map row_text (t_rows t)) +:+ ";" +:+ nl.

(** What the dump holds for one table: the DROP statement, the create
    statement, and the INSERT statement unless the table has no row. *)
Definition table_block (t : table) : string :=
  nl +:+ "-- Table structure for table `" +:+ t_name t +:+ "`" +:+ nl
    +:+ "DROP TABLE IF EXISTS `" +:+ t_name t +:+ "`;" +:+ nl
    +:+ t_create t +:+ ";" +:+ nl +:+ nl
    +:+ "-- Dumping data for table `" +:+ t_name t +:+ "`" +:+ nl
    +:+ match t_rows t with
        | [] => ""
        | _ :: _ => insert_statement t
        end.

Definition dump_header (stamp database : string) : string :=
  "-- Database dump generated on " +:+ stamp +:+ nl
    +:+ "-- Database: " +:+ database +:+ nl +:+ nl.

Definition dump_text (stamp database : string) (T : list table) : string :=
  dump_header stamp database +:+ String.concat "" (map table_block T).

(** What the engine reports, table by table, as [export_dump] queries it:
    for each name, the second column of the first row of SHOW CREATE
    TABLE, then the columns and rows of SELECT *. *)
Inductive reports (E : Engine)
  : list value -> server E -> list table -> server E -> Prop :=
| reports_nil s : reports E [] s [] s
| reports_cons v names s rs1 s1 row others create rs2 s2 T s3 :
    execute E ("SHOW CREATE TABLE `" +:+ py_str v +:+ "`") s = (inr rs1, s1) ->
    rows rs1 = row :: others ->
    row !! 1%nat = Some create ->
    execute E ("SELECT * FROM `" +:+ py_str v +:+ "`") s1 = (inr rs2, s2) ->
    reports E names s2 T s3 ->
    reports E (v :: names) s
      (Table (py_str v) (py_str create) (description rs2) (rows rs2) :: T) s3.

(** What [export_dump] saw of the database: the connection opened, the
    database was selected, SHOW TABLES gave rows whose first columns are
    [names], and the engine reported [T] for them, ending in state [s]. *)
Definition export_saw (E : Engine) (db_name : option string) (w : world E)
    (T : list table) (s : server E) : Prop :=
  exists w1 w2 rs s3 names,
    get_db_connection w = (Ok Connection, w1) /\
    use_database Cursor db_name w1 = (Ok tt, w2) /\
    execute E "SHOW TABLES" (srv w2) = (inr rs, s3) /\
    Forall2 (fun row name => head row = Some name) (rows rs) names /\
    reports E names s3 T s.

(** ** Vocabulary for the round trip *)

(** *** The literals of the dialect *)

Definition backslash : ascii := "\"%char.

(** The text of a character string inside a literal of the dialect: a
    single quote is doubled, and so is a backslash, which the dialect
    reads as an escape. *)
Fixpoint sql_escape (t : string) : string :=
  match t with
  | EmptyString => ""
  | String c t' =>
      if Ascii.eqb c quote then String quote (String quote (sql_escape t'))
      else if Ascii.eqb c backslash
           then String backslash (String backslash (sql_escape t'))
           else String c (sql_escape t')
  end.

(** The literal that stands for a value: NULL, the truth values, the
    numeral of an integer, the text of a float, and for anything else its
    text as a quoted literal (the engine reads it according to the type
    of the column). *)
Definition sql_literal (v : value) : string :=
  match v with
  | VNone => "NULL"
  | VBool b => if b then "TRUE" else "FALSE"
  | VInt n => PyStr.of_int n
  | VFloat r => r
  | VStr t | VOther _ t => "'" +:+ sql_escape t +:+ "'"
  end.

Definition sql_row (row : list value) : string :=
  "(" +:+ PyStr.join "," (map sql_literal row) +:+ ")".

(** *** The statements of a dump *)

(** The pieces of a dump once cut at the statement terminators, with what
    each one stands for.  [pre] is the text pending since the last
    terminator (the header, or the comment closing a table without rows).
    The INSERT statement of a table is the one that stands for its rows
    in the dialect. *)
Definition structure_comment (t : table) : string :=
  nl +:+ "-- Table structure for table `" +:+ t_name t +:+ "`" +:+ nl.

Definition drop_statement (t : table) : string :=
  "DROP TABLE IF EXISTS `" +:+ t_name t +:+ "`".

Definition data_comment (t : table) : string :=
  nl +:+ nl +:+ "-- Dumping data for table `" +:+ t_name t +:+ "`" +:+ nl.

Definition insert_body (t : table) : string :=
  "INSERT INTO `" +:+ t_name t +:+ "` (`" +:+ PyStr.join "`,`" (t_columns t)
    +:+ "`) VALUES" +:+ nl
    +:+ PyStr.join ("," +:+ nl) (map sql_row (t_rows t)).

Fixpoint dump_commands (pre : string) (T : list table) : list (string * action) :=
  match T with
  | [] => []
  | t :: T' =>
      (pre +:+ structure_comment t +:+ drop_statement t, ADrop (t_name t))
      :: (nl +:+ t_create t, ACreate t)
      :: match t_rows t with
         | [] => dump_commands (data_comment t) T'
         | _ :: _ =>
             (data_comment t +:+ insert_body t, AInsert (t_name t) (t_rows t))
             :: dump_commands nl T'
         end
  end.


(** *** Texts that survive the cut and the reading *)





(** *** What is asked of the engine *)








(** *** Two small databases *)

Definition flights : table :=
  Table "Flight" "CREATE TABLE `Flight` (`flight_id` int, `code` text)"
    ["flight_id"; "code"]
    [[VInt 1; VStr "AF'12"]; [VInt 2; VNone]].

Definition seats : table :=
  Table "Seat" "CREATE TABLE `Seat` (`seat` text)" ["seat"] [].


(** A server whose configured database holds the tables [T], and the
    script that is the dump of [T] *)
Definition server_with (T : list table) : Mock.state :=
  Mock.State [] None {[ DB_CONFIG_database := database_of T ]} "".

Definition script_of (T : list table) : list (string * action) :=
  dump_commands (dump_header stamp0 DB_CONFIG_database) T.

(** The world in which the export is tried: the configured database holds
    the two tables, in the order the scripted engine enumerates them. *)
Definition two_tables : list table := [seats; flights].

Definition export_world : world (Mock.engine (script_of two_tables)) :=
  Mock.world_of (script_of two_tables) (server_with two_tables) ∅.


(** ** Further vocabulary *)

(** What [get_db_connection] raises when every attempt failed *)
Definition connect_failed : exn :=
  Exn PyException "Failed to connect to database after multiple attempts" [].

(** The server that refuses three connections, the last one for a
    timeout. *)
Definition refusing_server : Mock.state :=
  Mock.State ["server down"; "server down"; "timeout"] None ∅ "".

Definition refusing_world : world (Mock.engine []) :=
  Mock.world_of [] refusing_server ∅.

(** A computation that never touches the file system *)
Definition keeps_fs {E : Engine} {A} (m : M E A) : Prop :=
  forall w, fs (snd (m w)) = fs w.

(** The monad, unfolded *)
Ltac unfold_M :=
  unfold mbind, mret, M_bind, M_ret, bind, ret, raise,
    try_except_mariadb, try_except, try_finally in *.

(** ** Vocabulary for threaded_import *)

(** What holds of the pool at every turn.  [order] lists the workers that
    have appended their record, in the order of the appends. *)
Record pool_inv {E : Engine} (path prefix : string) (n : nat) (w0 : world E)
    (p : pool E) (order : list nat) : Prop := {
  inv_chunks : chunks p = repeat path n;
  inv_pc :
    match pc p with
    | Starting i => length (threads p) = i /\ (i <= n)%nat
    | Joining j =>
        length (threads p) = n /\
        forall i, (i < j)%nat -> (i < n)%nat -> threads p !! i = Some Finished
    | CleaningUp | Returned =>
        length (threads p) = n /\
        forall i, (i < n)%nat -> threads p !! i = Some Finished
    end;
  inv_threads : forall i wk, threads p !! i = Some wk ->
    match wk with
    | Started c d => c = path /\ d = thread_name prefix i
    | Appending r => db_name r = thread_name prefix i
    | Finished => True
    end;
  inv_names : map db_name (results p) = map (thread_name prefix) order;
  inv_nodup : NoDup order;
  inv_order : forall i, i ∈ order <-> threads p !! i = Some Finished;
  inv_world :
    match pc p with
    | Returned =>
        exists w_pre, fs w_pre = fs w0 /\
                      shared p = snd (cleanup (chunks p) w_pre)
    | _ => fs (shared p) = fs w0
    end
}.

(** The message of [open] and of [os.remove] for a path at which there
    is nothing *)
Definition no_such_file (path : string) : string :=
  exn_msg (missing_path_error path).

(** A schedule that lets the coordinator start [n] workers, runs each
    worker to its end, and lets the coordinator join, clean up and
    return. *)
Definition sequential_schedule (n : nat) : list actor :=
  repeat Main (S n)
  ++ flat_map (fun i => [Worker i; Worker i]) (seq 0 n)
  ++ repeat Main (S (S n)).

(** A dump of one statement, and a server that understands it *)
Definition one_statement_script : list (string * action) :=
  [ ("CREATE TABLE t (a INT)",
     ACreate (Table "t" "CREATE TABLE t (a INT)" ["a"] [])) ].

Definition one_statement_server : Mock.state :=
  Mock.State [] None {[ DB_CONFIG_database := ∅ ]} "".

Definition one_statement_world : world (Mock.engine one_statement_script) :=
  Mock.world_of one_statement_script one_statement_server
    {[ "dump.sql" := "CREATE TABLE t (a INT)" ]}.

(** The workers [a], ..., [a+k-1] just started *)
Definition started (path prefix : string) (a k : nat) : list worker :=
  map (fun i => Started path (thread_name prefix i)) (seq a k).

(** A schedule of two workers in which the turns are interleaved *)
Definition interleaved_schedule : list actor :=
  [Main; Worker 0; Main; Main; Worker 1; Worker 1; Worker 0;
   Main; Main; Main; Main].

(** The world [threaded_import] leaves, when it has returned *)
Definition world_after {E : Engine} (x : option (list outcome * world E))
    (w0 : world E) : world E :=
  match x with
  | Some (_, w) => w
  | None => w0
  end.


(** [reports], as a computation: the queries of the export loop, run. *)
Fixpoint query_tables (E : Engine) (names : list value) (s : server E)
    : option (list table * server E) :=
  match names with
  | [] => Some ([], s)
  | v :: names' =>
      match execute E ("SHOW CREATE TABLE `" +:+ py_str v +:+ "`") s with
      | (inr rs1, s1) =>
          match rows rs1 with
          | row :: _ =>
              match row !! 1%nat with
              | Some create =>
                  match execute E ("SELECT * FROM `" +:+ py_str v +:+ "`") s1 with
                  | (inr rs2, s2) =>
                      match query_tables E names' s2 with
                      | Some (T, s3) =>
                          Some (Table (py_str v) (py_str create)
                                      (description rs2) (rows rs2) :: T, s3)
                      | None => None
                      end
                  | (inl _, _) => None
                  end
              | None => None
              end
          | [] => None
          end
      | (inl _, _) => None
      end
  end.

Arguments check_data_consistency_try {E} _ _.
Arguments check_data_consistency_except {E} _ _.
Arguments check_data_consistency {E} _.
Arguments benchmark_iteration {E} _ _.
Arguments benchmark_loop {E} _ _ _.
Arguments benchmark_import_export {E} _ _.

(** ** Vocabulary for the further properties *)

(** An event that neither opens nor closes a connection *)
Definition inner_event (ev : event) : Prop :=
  match ev with
  | EvConnect _ | EvClose => False
  | _ => True
  end.

(** A computation that adds only such events to the trace *)
Definition adds_inner {E : Engine} {A} (m : M E A) : Prop :=
  forall w, exists added,
    trace (snd (m w)) = trace w ++ added /\ Forall inner_event added.

(** What a database operation adds to the trace: the failed attempts,
    and, when a connection was obtained, that connection, the events of
    the operation, and the close. *)
Definition lifecycle (causes : list string) (inner : list event) : list event :=
  failed_attempts 0 causes
  ++ (if Z.of_nat (length causes) <? MAX_RETRIES
      then EvConnect None :: inner ++ [EvClose]
      else []).


(** An engine that accepts connections and refuses every statement *)
Definition denying_engine : Engine :=
  Build_Engine unit (fun s => (None, s)) (fun sql s => (inl "Access denied", s))
    (fun s => (None, s)) (fun s => s).

(** A world around it, holding the given files *)
Definition denying_world (fls : gmap string string) : world denying_engine :=
  World (tt : server denying_engine) (FileSystem fls ∅) stamp0 0 [].

(** A computation that leaves every file but [out] as it was, and the
    permissions as they were *)
Definition writes_only {E : Engine} {A} (out : string) (m : M E A) : Prop :=
  forall w,
    protected (fs (snd (m w))) = protected (fs w) /\
    forall p, p <> out -> files (fs (snd (m w))) !! p = files (fs w) !! p.

(** The block of a table, as far as it is written when SHOW CREATE TABLE
    fails or gives no usable row ... *)
Definition block_start (t : string) : string :=
  nl +:+ "-- Table structure for table `" +:+ t +:+ "`" +:+ nl
  +:+ "DROP TABLE IF EXISTS `" +:+ t +:+ "`;" +:+ nl.

(** ... and as far as it is written when SELECT * fails *)
Definition block_until_data (t create : string) : string :=
  block_start t +:+ create +:+ ";" +:+ nl +:+ nl
  +:+ "-- Dumping data for table `" +:+ t +:+ "`" +:+ nl.

(** An engine that lists one table and refuses every other statement *)
Definition listing_engine : Engine :=
  Build_Engine unit (fun s => (None, s))
    (fun sql s =>
       if String.eqb sql "SHOW TABLES"
       then (inr (ResultSet ["Tables_in_flight_reservation"] [[VStr "Flight"]]), s)
       else (inl "Access denied", s))
    (fun s => (None, s)) (fun s => s).

Definition listing_world (fls : gmap string string) : world listing_engine :=
  World (tt : server listing_engine) (FileSystem fls ∅) stamp0 0 [].

(** The values whose class shows in what is written for them: [None], a
    [bool], another [int], a [str].  (A [float] is written as the text
    [str] gives, and an object of any other class like the [str] of its
    text.) *)
Definition told_apart (v : value) : bool :=
  match v with
  | VNone | VBool _ | VInt _ | VStr _ => true
  | VFloat _ | VOther _ _ => false
  end.

(** The message of [os.remove] on a file that may not be removed *)
Definition permission_denied (path : string) : string :=
  "[Errno 13] Permission denied: " +:+ PyStr.repr path.

(** A record made by the [try] suite of [import_chunk]: its result is the
    pair some run of [import_dump] on the chunk returned for its
    database, and its time is a number. *)
Definition from_import {E : Engine} (chunk_file : string) (r : outcome) : Prop :=
  exists (w : world E) (elapsed : Z),
    fst (import_dump chunk_file (Some (db_name r)) w) = Ok (success r, message r) /\
    time r = Some elapsed.

(** The file the benchmark exports to at iteration [i], and the database
    it imports into *)
Definition benchmark_export (i : Z) : string :=
  "benchmark_export_" +:+ PyStr.of_int i +:+ ".sql".
Definition benchmark_db (i : Z) : string :=
  "benchmark_db_" +:+ PyStr.of_int i.

(** The two shapes of a record of the benchmark.  A successful iteration
    has both times and the name of its export file, and no error.  A
    failed one has an error and no export time; if the import failed it
    has no import time and no 'export_file' key, and if the export failed
    it has the import time and 'export_file' bound to [None]. *)
Definition record_shape (r : benchmark_record) : Prop :=
  if bench_success r then
    error r = None /\ is_Some (import_time r) /\ is_Some (export_time r) /\
    export_file r = Some (Some (benchmark_export (iteration r)))
  else
    is_Some (error r) /\ export_time r = None /\
    ((import_time r = None /\ export_file r = None) \/
     (is_Some (import_time r) /\ export_file r = Some None)).

(** A computation that leaves the file at [p] as it was *)
Definition keeps_file {E : Engine} {A} (p : string) (m : M E A) : Prop :=
  forall w, protected (fs (snd (m w))) = protected (fs w) /\
            files (fs (snd (m w))) !! p = files (fs w) !! p.

(** * Properties *)

(** A run whose result is known: the world it leaves is its second
    component. *)
Lemma run_result {A B} (x : A * B) (a : A) : fst x = a -> x = (a, snd x).
Proof. destruct x. cbn. congruence. Qed.

(** ** get_db_connection *)

Section Connect.

Context {E : Engine}.

Lemma sleeps_failed_attempts (causes : list string) : forall i,
  sleeps (failed_attempts i causes) = repeat RETRY_DELAY (length causes).
Proof.
  induction causes as [|c causes IH]; intros i; [reflexivity|].
  cbn [failed_attempts]. unfold sleeps in *. cbn. f_equal. apply IH.
Qed.

Lemma connects_failed_attempts (causes : list string) : forall i,
  connects (failed_attempts i causes) = map Some causes.
Proof.
  induction causes as [|c causes IH]; intros i; [reflexivity|].
  cbn [failed_attempts]. unfold connects in *. cbn. f_equal. apply IH.
Qed.

(** The loop with [budget] iterations left: it stops at the first
    connection that succeeds, or after [budget] failures. *)
Lemma connect_loop_spec (budget : nat) : forall (attempts : Z) (w : world E),
  exists causes : list string,
    (length causes <= budget)%nat /\
    fs (snd (connect_loop budget attempts w)) = fs w /\
    now (snd (connect_loop budget attempts w)) = now w /\
    if decide (length causes < budget)%nat then
      fst (connect_loop budget attempts w) = Ok Connection /\
      trace (snd (connect_loop budget attempts w))
        = trace w ++ failed_attempts attempts causes ++ [EvConnect None]
    else
      fst (connect_loop budget attempts w) = Raise connect_failed /\
      trace (snd (connect_loop budget attempts w))
        = trace w ++ failed_attempts attempts causes.
Proof.
  induction budget as [|budget IH]; intros attempts w.
  - exists []. cbn. rewrite app_nil_r. repeat split; lia || reflexivity.
  - cbn [connect_loop]. unfold try_except_mariadb, try_except, mariadb_connect.
    destruct (connect E (srv w)) as [[m|] s] eqn:Hc.
    + cbn [is_mariadb exn_cls mariadb_error exn_msg].
      unfold mbind, M_bind, bind, print, time_sleep. cbn [fst snd].
      set (w1 := emit _ (with_clock _ _)).
      destruct (IH (attempts + 1) w1) as (causes & Hlen & Hfs & Hnow & Hres).
      exists (m :: causes). cbn [length].
      split; [lia|]. split; [rewrite Hfs; reflexivity|].
      split; [rewrite Hnow; reflexivity|].
      destruct (decide (length causes < budget)%nat) as [Hlt|Hge].
      * rewrite decide_True by lia. destruct Hres as [-> ->]. split; [reflexivity|].
        subst w1. cbn [trace emit with_clock with_srv failed_attempts failed_attempt].
        rewrite <- !app_assoc. reflexivity.
      * rewrite decide_False by lia. destruct Hres as [-> ->]. split; [reflexivity|].
        subst w1. cbn [trace emit with_clock with_srv failed_attempts failed_attempt].
        rewrite <- !app_assoc. reflexivity.
    + exists []. cbn [length]. split; [lia|]. split; [reflexivity|].
      split; [reflexivity|].
      rewrite decide_True by lia. split; reflexivity.
Qed.

End Connect.

(** C7, as the code has it.  [get_db_connection] makes at most
    [MAX_RETRIES] connection attempts; every failed attempt is followed by
    one printed line and one sleep of the fixed [RETRY_DELAY] (also the
    last one); it returns the connection at the first attempt that
    succeeds; after [MAX_RETRIES] failures it raises a plain exception with
    a fixed message, chained to nothing: the causes were only printed. *)
Theorem get_db_connection_bounded_retry (E : Engine) (w : world E) :
  exists causes : list string,
    Z.of_nat (length causes) <= MAX_RETRIES /\
    trace (snd (get_db_connection w))
      = trace w ++ failed_attempts 0 causes
          ++ (if Z.of_nat (length causes) <? MAX_RETRIES then [EvConnect None] else []) /\
    sleeps (failed_attempts 0 causes) = repeat RETRY_DELAY (length causes) /\
    fst (get_db_connection w)
      = (if Z.of_nat (length causes) <? MAX_RETRIES then Ok Connection
         else Raise (Exn PyException
                       "Failed to connect to database after multiple attempts" [])).
Proof.
  unfold get_db_connection.
  destruct (connect_loop_spec (Z.to_nat MAX_RETRIES) 0 w)
    as (causes & Hlen & _ & _ & Hres).
  exists causes. change (Z.to_nat MAX_RETRIES) with 3%nat in *.
  change MAX_RETRIES with 3.
  split; [lia|]. rewrite sleeps_failed_attempts.
  destruct (decide (length causes < 3)%nat) as [Hlt|Hge].
  - destruct Hres as [Hr Ht]. rewrite Hr, Ht.
    destruct (Z.ltb_spec (Z.of_nat (length causes)) 3); [|lia]. auto.
  - destruct Hres as [Hr Ht]. rewrite Hr, Ht.
    destruct (Z.ltb_spec (Z.of_nat (length causes)) 3); [lia|].
    rewrite app_nil_r. auto.
Qed.

(** C7, as stated, fails: after three refusals the exception raised is
    chained to nothing and its message does not quote the last cause. *)
Lemma get_db_connection_drops_cause :
  exists e w',
    get_db_connection refusing_world = (Raise e, w') /\
    last (connects (trace w')) = Some (Some "timeout") /\
    ~ carries_cause e "timeout".
Proof.
  exists connect_failed, (snd (get_db_connection refusing_world)).
  split; [apply run_result; vm_compute; reflexivity|].
  split; [vm_compute; reflexivity|].
  intros [Hin|Hmsg]; [destruct Hin | vm_compute in Hmsg; discriminate].
Qed.

(** ** Frames *)

Section Frames.

Context {E : Engine}.

Lemma cur_execute_frame (sql : string) (w : world E) :
  fs (snd (cur_execute Cursor sql w)) = fs w /\
  now (snd (cur_execute Cursor sql w)) = now w.
Proof.
  unfold cur_execute. destruct (execute E sql (srv w)) as [[m|rs] s]; auto.
Qed.

Lemma get_db_connection_frame (w : world E) :
  fs (snd (get_db_connection w)) = fs w /\
  now (snd (get_db_connection w)) = now w.
Proof.
  unfold get_db_connection.
  destruct (connect_loop_spec (Z.to_nat MAX_RETRIES) 0 w)
    as (causes & _ & Hfs & Hnow & _). auto.
Qed.

Lemma get_db_connection_result (w : world E) :
  fst (get_db_connection w) = Ok Connection \/
  fst (get_db_connection w) = Raise connect_failed.
Proof.
  unfold get_db_connection.
  destruct (connect_loop_spec (Z.to_nat MAX_RETRIES) 0 w)
    as (causes & _ & _ & _ & Hres).
  destruct (decide _); destruct Hres; auto.
Qed.

(** Reading a file: what a text-mode read gives, or the error of [open]. *)
Lemma read_text_file (path : string) (w : world E) :
  read_text path w
    = match file_text (fs w) path with
      | Some text => (Ok text, w)
      | None => (Raise (missing_path_error path), w)
      end.
Proof.
  unfold read_text, file_text.
  destruct (PyStr.contains (ascii_of_nat 0) path); [reflexivity|].
  destruct (files (fs w) !! path); reflexivity.
Qed.

Lemma create_and_use_frame (name : option string) (w : world E) :
  fs (snd (create_and_use Cursor name w)) = fs w /\
  now (snd (create_and_use Cursor name w)) = now w.
Proof.
  unfold create_and_use. destruct (given name) as [n|]; [|auto].
  unfold_M.
  destruct (cur_execute_frame ("CREATE DATABASE IF NOT EXISTS " +:+ n) w) as [H1 H1'].
  destruct (cur_execute Cursor _ w) as [[rs|e] w1]; [|auto].
  destruct (cur_execute_frame ("USE " +:+ n) w1) as [H2 H2'].
  destruct (cur_execute Cursor _ w1) as [[rs'|e] w2]; cbn in *; split; congruence.
Qed.

Lemma use_database_frame (name : option string) (w : world E) :
  fs (snd (use_database Cursor name w)) = fs w /\
  now (snd (use_database Cursor name w)) = now w.
Proof.
  unfold use_database. destruct (given name) as [n|]; [|auto].
  unfold_M.
  destruct (cur_execute_frame ("USE " +:+ n) w) as [H1 H1'].
  destruct (cur_execute Cursor _ w) as [[rs|e] w1]; cbn in *; auto.
Qed.

End Frames.

(** ** import_dump: the replay loop *)

Section Replay.

Context {E : Engine}.

Lemma executed_app (a b : list event) :
  executed (a ++ b) = executed a ++ executed b.
Proof. unfold executed. apply omap_app. Qed.

Lemma executed_replay_events (commands : list string) :
  forall failures, length failures = length commands ->
  executed (replay_events commands failures) = commands.
Proof.
  induction commands as [|c commands IH]; intros [|f failures] Hlen;
    try discriminate; [reflexivity|].
  cbn [replay_events]. rewrite executed_app, IH by (cbn in Hlen; lia).
  destruct f; reflexivity.
Qed.

Lemma took_effect_refused (failures : list (option string)) :
  (took_effect failures + refused failures = length failures)%nat.
Proof.
  unfold took_effect, refused.
  induction failures as [|[m|] failures IH]; cbn; lia.
Qed.

(** One turn of the loop: a blank piece is passed over; any other piece
    is executed once, and a refusal is printed and absorbed. *)
Lemma replay_command_trace (command : string) (w : world E) :
  fst (replay_command Cursor command w) = Ok tt /\
  fs (snd (replay_command Cursor command w)) = fs w /\
  if PyStr.strip_truthy command then
    exists failure,
      trace (snd (replay_command Cursor command w))
        = trace w ++ statement_events command failure
  else snd (replay_command Cursor command w) = w.
Proof.
  unfold replay_command. destruct (PyStr.strip_truthy command); [|auto].
  unfold_M. unfold cur_execute.
  destruct (execute E command (srv w)) as [[m|rs] s]; cbn.
  - repeat split. exists (Some m). cbn. rewrite <- app_assoc. reflexivity.
  - repeat split. exists None. reflexivity.
Qed.

(** The whole loop: it never raises, leaves the files alone, and hands
    to the engine the non-blank pieces, each once, in their order. *)
Lemma replay_loop_spec (commands : list string) : forall w : world E,
  exists failures,
    length failures = length (List.filter PyStr.strip_truthy commands) /\
    fst (for_each commands (replay_command Cursor) w) = Ok tt /\
    fs (snd (for_each commands (replay_command Cursor) w)) = fs w /\
    trace (snd (for_each commands (replay_command Cursor) w))
      = trace w ++ replay_events (List.filter PyStr.strip_truthy commands) failures.
Proof.
  induction commands as [|c commands IH]; intros w.
  - exists []. cbn. rewrite app_nil_r. auto.
  - cbn [for_each List.filter].
    destruct (replay_command_trace c w) as (Hok & Hfs & Htr).
    unfold mbind, M_bind, bind.
    destruct (replay_command Cursor c w) as [r w1]. cbn [fst snd] in *. subst r.
    destruct (IH w1) as (failures & Hlen & Hok' & Hfs' & Htr').
    destruct (PyStr.strip_truthy c).
    + destruct Htr as [failure Htr].
      exists (failure :: failures). cbn [length replay_events].
      rewrite Hlen, Hok', Hfs', Htr', Htr, Hfs, <- app_assoc. auto.
    + subst w1. exists failures. auto.
Qed.

End Replay.

(** ** import_dump: the whole operation *)

Section ImportDump.

Context {E : Engine}.

(** Once the connection is open, the database created and selected, and
    the file read, the run is: the replay, the commit, the close; the
    result is decided by the commit alone. *)
Lemma import_dump_run (path : string) (new_db_name : option string)
    (w w1 w2 : world E) (conn : connection) (text : string) :
  get_db_connection w = (Ok conn, w1) ->
  create_and_use Cursor new_db_name w1 = (Ok tt, w2) ->
  file_text (fs w) path = Some text ->
  exists failures commit_failure,
    length failures = length (statements_of text) /\
    trace (snd (import_dump path new_db_name w))
      = trace w2 ++ replay_events (statements_of text) failures
          ++ [EvCommit commit_failure; EvClose] /\
    fs (snd (import_dump path new_db_name w)) = fs w /\
    fst (import_dump path new_db_name w) = Ok (import_result commit_failure).
Proof.
  intros Hconn Hcreate Hfile.
  pose proof (get_db_connection_frame w) as [Hfs1 _]. rewrite Hconn in Hfs1.
  pose proof (create_and_use_frame new_db_name w1) as [Hfs2 _].
  rewrite Hcreate in Hfs2. cbn [snd] in *.
  unfold import_dump, with_connection. rewrite Hconn.
  unfold import_dump_try, conn_cursor. unfold_M. rewrite Hcreate.
  rewrite read_text_file, Hfs2, Hfs1, Hfile.
  destruct (replay_loop_spec (PyStr.split ";" text) w2)
    as (failures & Hlen & Hok & Hfs3 & Htr).
  destruct (for_each _ _ w2) as [r w3]. cbn [fst snd] in *. subst r.
  unfold conn_commit, conn_close, import_dump_except. unfold_M.
  destruct (commit E (srv w3)) as [[m|] s] eqn:Hcommit.
  - exists failures, (Some m). cbn. rewrite Htr, Hfs3, Hfs2, Hfs1.
    rewrite <- !app_assoc. auto.
  - exists failures, None. cbn. rewrite Htr, Hfs3, Hfs2, Hfs1.
    rewrite <- !app_assoc. auto.
Qed.

(** Whatever happens, [import_dump] returns a pair; it is a failure
    exactly when the connection, the creation or selection of the
    database, the reading of the file, or the commit failed. *)
Lemma import_dump_cases (path : string) (new_db_name : option string)
    (w : world E) :
  (exists w1, get_db_connection w = (Raise connect_failed, w1) /\
     import_dump path new_db_name w
       = (Ok (false, "Error importing dump: " +:+ exn_msg connect_failed), w1))
  \/ (exists w1, get_db_connection w = (Ok Connection, w1) /\
      ((exists e w2, create_and_use Cursor new_db_name w1 = (Raise e, w2) /\
          fst (import_dump path new_db_name w)
            = Ok (false, "Error importing dump: " +:+ exn_msg e))
       \/ (exists w2, create_and_use Cursor new_db_name w1 = (Ok tt, w2) /\
           ((file_text (fs w) path = None /\
             exists m, fst (import_dump path new_db_name w)
                       = Ok (false, "Error importing dump: " +:+ m))
            \/ (exists text failures commit_failure,
                  file_text (fs w) path = Some text /\
                  length failures = length (statements_of text) /\
                  trace (snd (import_dump path new_db_name w))
                    = trace w2 ++ replay_events (statements_of text) failures
                        ++ [EvCommit commit_failure; EvClose] /\
                  fst (import_dump path new_db_name w)
                    = Ok (import_result commit_failure)))))).
Proof.
  destruct (get_db_connection w) as [[conn|e] w1] eqn:Hconn.
  - right. destruct conn. exists w1. split; [reflexivity|].
    pose proof (get_db_connection_frame w) as [Hfs1 _]. rewrite Hconn in Hfs1.
    cbn [snd] in Hfs1.
    destruct (create_and_use Cursor new_db_name w1) as [[[]|e] w2] eqn:Hcreate.
    + right. exists w2. split; [reflexivity|].
      pose proof (create_and_use_frame new_db_name w1) as [Hfs2 _].
      rewrite Hcreate in Hfs2. cbn [snd] in Hfs2.
      destruct (file_text (fs w) path) as [text|] eqn:Hfile.
      * right.
        destruct (import_dump_run path new_db_name w w1 w2 Connection text
                    Hconn Hcreate Hfile)
          as (failures & cf & Hlen & Htr & _ & Hres).
        exists text, failures, cf. auto.
      * left. split; [reflexivity|].
        unfold import_dump, with_connection. rewrite Hconn.
        unfold import_dump_try, conn_cursor. unfold_M. rewrite Hcreate.
        rewrite read_text_file, Hfs2, Hfs1, Hfile. cbn. eauto.
    + left. exists e, w2. split; [reflexivity|].
      unfold import_dump, with_connection. rewrite Hconn.
      unfold import_dump_try, conn_cursor. unfold_M. rewrite Hcreate.
      reflexivity.
  - left. exists w1.
    pose proof (get_db_connection_result w) as Hres. rewrite Hconn in Hres.
    destruct Hres as [Hres|Hres]; [discriminate|]. cbn in Hres.
    injection Hres as ->. split; [reflexivity|].
    unfold import_dump, with_connection. rewrite Hconn. reflexivity.
Qed.

End ImportDump.

(** ** Splitting on the separator *)

Section Split.

Lemma split_not_nil (sep : ascii) (s : string) : PyStr.split sep s <> [].
Proof.
  induction s as [|c s IH]; cbn; [discriminate|].
  destruct (Ascii.eqb c sep); [discriminate|].
  destruct (PyStr.split sep s); [contradiction|discriminate].
Qed.

Lemma join_cons (sep p q : string) (rest : list string) :
  PyStr.join sep (p :: q :: rest) = p +:+ sep +:+ PyStr.join sep (q :: rest).
Proof. reflexivity. Qed.

(** Putting the separator back between the pieces gives the text. *)
Lemma join_split (sep : ascii) (s : string) :
  PyStr.join (String sep "") (PyStr.split sep s) = s.
Proof.
  induction s as [|c s IH]; [reflexivity|]. cbn [PyStr.split].
  pose proof (split_not_nil sep s) as Hnil.
  destruct (PyStr.split sep s) as [|p rest] eqn:Hs; [contradiction|].
  destruct (Ascii.eqb_spec c sep) as [->|Hne].
  - rewrite join_cons, IH. reflexivity.
  - destruct rest as [|q rest].
    + cbn in *. congruence.
    + rewrite join_cons. rewrite join_cons in IH. rewrite <- IH. reflexivity.
Qed.

(** No piece contains the separator. *)
Lemma split_pieces (sep : ascii) (s : string) :
  Forall (fun piece => PyStr.contains sep piece = false) (PyStr.split sep s).
Proof.
  induction s as [|c s IH]; cbn [PyStr.split].
  - constructor; [reflexivity|constructor].
  - destruct (Ascii.eqb_spec c sep) as [->|Hne].
    + constructor; [reflexivity|exact IH].
    + destruct (PyStr.split sep s) as [|p rest]; [repeat constructor; cbn|].
      * destruct (Ascii.eqb_spec c sep); [contradiction|reflexivity].
      * inversion IH; subst. constructor; [|assumption].
        cbn. destruct (Ascii.eqb_spec c sep); [contradiction|assumption].
Qed.

End Split.

(** C4.  Once the connection is open, the database created and selected
    and the file read, [import_dump] cuts the text at every ';' (the
    pieces, joined by ';', are the text, and no piece contains ';') and
    hands to the engine exactly the non-blank pieces, each once, in the
    order of the text. *)
Theorem import_dump_replays_in_order (E : Engine) (path : string)
    (new_db_name : option string) (w w1 w2 : world E) (conn : connection)
    (text : string) :
  get_db_connection w = (Ok conn, w1) ->
  create_and_use Cursor new_db_name w1 = (Ok tt, w2) ->
  file_text (fs w) path = Some text ->
  PyStr.join ";" (PyStr.split ";" text) = text /\
  Forall (fun piece => PyStr.contains ";" piece = false) (PyStr.split ";" text) /\
  executed (trace (snd (import_dump path new_db_name w)))
    = executed (trace w2) ++ List.filter PyStr.strip_truthy (PyStr.split ";" text).
Proof.
  intros Hconn Hcreate Hfile.
  split; [apply join_split|]. split; [apply split_pieces|].
  destruct (import_dump_run path new_db_name w w1 w2 conn text Hconn Hcreate Hfile)
    as (failures & cf & Hlen & Htr & _ & _).
  rewrite Htr, !executed_app, executed_replay_events by exact Hlen.
  cbn. rewrite app_nil_r. reflexivity.
Qed.

Lemma import_dump_replays_in_order_witness :
  PyStr.join ";" (PyStr.split ";" small_dump) = small_dump /\
  Forall (fun piece => PyStr.contains ";" piece = false) (PyStr.split ";" small_dump) /\
  executed (trace (snd (import_dump "dump.sql" None (small_world None))))
    = executed (trace (snd (get_db_connection (small_world None))))
        ++ List.filter PyStr.strip_truthy (PyStr.split ";" small_dump).
Proof.
  apply (import_dump_replays_in_order (Mock.engine small_script) "dump.sql" None
           (small_world None)
           (snd (get_db_connection (small_world None)))
           (snd (get_db_connection (small_world None)))
           Connection small_dump); reflexivity.
Defined.

(** C2, as the code has it.  Statement failures are absorbed: each
    non-blank statement is handed to the engine once, a refusal is printed
    and the replay goes on, so that with N statements of which one is
    refused, N-1 take effect.  Once the connection is open, the database
    created and selected and the file read, the result is decided by the
    final commit alone: success when it succeeds, failure with its message
    when it fails.  A failure result comes only from the connection, the
    creation or selection of the database, the reading of the file, or the
    commit. *)
Theorem import_dump_best_effort (E : Engine) (path : string)
    (new_db_name : option string) (w : world E) :
  (forall (w1 w2 : world E) (conn : connection) (text : string),
     get_db_connection w = (Ok conn, w1) ->
     create_and_use Cursor new_db_name w1 = (Ok tt, w2) ->
     file_text (fs w) path = Some text ->
     exists failures commit_failure,
       length failures = length (statements_of text) /\
       trace (snd (import_dump path new_db_name w))
         = trace w2 ++ replay_events (statements_of text) failures
             ++ [EvCommit commit_failure; EvClose] /\
       (refused failures = 1%nat ->
        took_effect failures = (length (statements_of text) - 1)%nat) /\
       fst (import_dump path new_db_name w)
         = Ok (match commit_failure with
               | None => (true, "Dump imported successfully")
               | Some m => (false, "Error importing dump: " +:+ m)
               end)) /\
  (forall (m : string) (w' : world E),
     import_dump path new_db_name w = (Ok (false, m), w') ->
     (exists e w1, get_db_connection w = (Raise e, w1))
     \/ (exists w1 e w2, get_db_connection w = (Ok Connection, w1) /\
                         create_and_use Cursor new_db_name w1 = (Raise e, w2))
     \/ file_text (fs w) path = None
     \/ (exists before m', trace w' = before ++ [EvCommit (Some m'); EvClose] /\
                           m = "Error importing dump: " +:+ m')).
Proof.
  split.
  - intros w1 w2 conn text Hconn Hcreate Hfile.
    destruct (import_dump_run path new_db_name w w1 w2 conn text Hconn Hcreate Hfile)
      as (failures & cf & Hlen & Htr & _ & Hres).
    exists failures, cf. repeat split; try assumption.
    intros Hone. pose proof (took_effect_refused failures). lia.
  - intros m w' Hrun.
    destruct (import_dump_cases path new_db_name w)
      as [(w1 & Hconn & _)|(w1 & Hconn & [(e & w2 & Hcreate & _)|(w2 & Hcreate & Hrest)])].
    + left. eauto.
    + right. left. eauto.
    + destruct Hrest as [[Hfile _]|(text & failures & cf & Hfile & _ & Htr & Hres)].
      * right. right. left. exact Hfile.
      * right. right. right. rewrite Hrun in Htr, Hres. cbn [fst snd] in *.
        destruct cf as [m'|]; [|discriminate].
        cbn in Hres. injection Hres as ->.
        exists (trace w2 ++ replay_events (statements_of text) failures), m'.
        rewrite Htr, <- app_assoc. auto.
Qed.

Lemma import_dump_best_effort_witness :
  exists failures commit_failure,
    length failures = length (statements_of small_dump) /\
    trace (snd (import_dump "dump.sql" None (small_world None)))
      = trace (snd (get_db_connection (small_world None)))
          ++ replay_events (statements_of small_dump) failures
          ++ [EvCommit commit_failure; EvClose] /\
    (refused failures = 1%nat ->
     took_effect failures = (length (statements_of small_dump) - 1)%nat) /\
    fst (import_dump "dump.sql" None (small_world None))
      = Ok (match commit_failure with
            | None => (true, "Dump imported successfully")
            | Some m => (false, "Error importing dump: " +:+ m)
            end).
Proof.
  apply (proj1 (import_dump_best_effort (Mock.engine small_script) "dump.sql" None
                  (small_world None))
           (snd (get_db_connection (small_world None)))
           (snd (get_db_connection (small_world None)))
           Connection small_dump); reflexivity.
Defined.

(** C2, as stated, fails: the connection is open, no database is to be
    created, the file is read, one statement of three is refused and
    absorbed, and the commit fails: the result is a failure. *)
Lemma import_dump_fails_on_commit :
  let w := small_world (Some "Lost connection to server during query") in
  (exists w1, get_db_connection w = (Ok Connection, w1) /\
              create_and_use Cursor None w1 = (Ok tt, w1)) /\
  files (fs w) !! "dump.sql" = Some small_dump /\
  fst (import_dump "dump.sql" None w)
    = Ok (false, "Error importing dump: Lost connection to server during query").
Proof.
  cbv zeta.
  split; [exists (snd (get_db_connection
                         (small_world (Some "Lost connection to server during query"))));
          split; reflexivity|].
  split; vm_compute; reflexivity.
Qed.

(** ** Results, not exceptions *)

Section Results.

Context {E : Engine}.

(** The shared idiom never raises when its handler returns: the result
    is the one of the [try] suite, or the handler's for what it raised. *)
Lemma with_connection_total {A} (rest : connection -> M E A)
    (recover : exn -> A) (w : world E) :
  fst (with_connection rest (fun e => ret (recover e)) w)
    = Ok match fst (bind get_db_connection rest w) with
         | Ok r => r
         | Raise e => recover e
         end.
Proof.
  unfold with_connection, bind.
  destruct (get_db_connection w) as [[conn|e] w1]; [|reflexivity].
  unfold try_finally, try_except, conn_close, ret.
  destruct (rest conn w1) as [[r|e] w2]; reflexivity.
Qed.

End Results.

(** C3.  Each of [import_dump], [export_dump], [compress_file] and
    [decompress_file] returns a pair (success, message) whatever happens:
    when its [try] suite returns, that pair; when it raises [e], the pair
    [(False, "Error ...: " + str(e))]. *)
Theorem operations_return_results (E : Engine) (Z_ : ZipLib) (w : world E) :
  (forall path new_db_name,
     fst (import_dump path new_db_name w)
       = Ok match fst (bind get_db_connection
                         (import_dump_try path new_db_name) w) with
            | Ok r => r
            | Raise e => (false, "Error importing dump: " +:+ exn_msg e)
            end) /\
  (forall path db_name,
     fst (export_dump path db_name w)
       = Ok match fst (bind get_db_connection
                         (export_dump_try path db_name) w) with
            | Ok r => r
            | Raise e => (false, "Error exporting dump: " +:+ exn_msg e)
            end) /\
  (forall input_path output_path,
     fst (compress_file Z_ input_path output_path w)
       = Ok match fst (zip_write Z_ output_path input_path
                         (PyStr.basename input_path) (fs w)) with
            | None => (true, "File compressed successfully")
            | Some e => (false, "Error compressing file: " +:+ exn_msg e)
            end) /\
  (forall input_path output_dir,
     fst (decompress_file Z_ input_path output_dir w)
       = Ok match fst (zip_extractall Z_ input_path output_dir (fs w)) with
            | None => (true, "File decompressed successfully")
            | Some e => (false, "Error decompressing file: " +:+ exn_msg e)
            end).
Proof.
  repeat split; intros.
  - apply (with_connection_total _ (fun e => (false, "Error importing dump: " +:+ exn_msg e))).
  - apply (with_connection_total _ (fun e => (false, "Error exporting dump: " +:+ exn_msg e))).
  - unfold compress_file, lift_zip. unfold_M.
    destruct (zip_write Z_ _ _ _ _) as [[e|] f]; reflexivity.
  - unfold decompress_file, lift_zip. unfold_M.
    destruct (zip_extractall Z_ _ _ _) as [[e|] f]; reflexivity.
Qed.

(** ** Value serialization *)

Section Values.

Lemma of_int_parses (n : Z) :
  option_map Z.of_int (NilZero.int_of_string (PyStr.of_int n)) = Some n.
Proof.
  unfold PyStr.of_int. rewrite NilZero.isi.
  - cbn. f_equal. apply DecimalZ.of_to.
  - destruct n; cbn; try discriminate.
    intros [= H]. exact (DecimalPos.Unsigned.to_uint_nonnil _ H).
  - destruct n; cbn; try discriminate.
    intros [= H]. exact (DecimalPos.Unsigned.to_uint_nonnil _ H).
Qed.

Lemma of_int_inj (n m : Z) : PyStr.of_int n = PyStr.of_int m -> n = m.
Proof.
  intros H. pose proof (of_int_parses n) as Hn. rewrite H, of_int_parses in Hn.
  congruence.
Qed.

Lemma replace_doubles (t : string) :
  PyStr.replace quote "''" t = double_quotes t.
Proof.
  unfold double_quotes. induction t as [|c t IH]; [reflexivity|].
  cbn [PyStr.replace list_ascii_of_string flat_map].
  destruct (Ascii.eqb c quote); cbn; rewrite IH; reflexivity.
Qed.

Lemma undouble_replace (t : string) :
  undouble (PyStr.replace quote "''" t) = t.
Proof.
  induction t as [|c t IH]; [reflexivity|]. cbn [PyStr.replace].
  destruct (Ascii.eqb c quote) eqn:Hc.
  - apply Ascii.eqb_eq in Hc as ->.
    change ("''" +:+ PyStr.replace quote "''" t)
      with (String quote (String quote (PyStr.replace quote "''" t))).
    cbn [undouble]. rewrite Ascii.eqb_refl, IH. reflexivity.
  - cbn [undouble]. rewrite Hc, IH. reflexivity.
Qed.

End Values.

(** C6, as stated, fails: a cell of a DECIMAL column reaches the program
    as a [decimal.Decimal], which is numeric and is neither an [int] nor a
    [float]: it is written between quotes. *)
Lemma serialize_value_quotes_decimal : ~ serialization_claim.
Proof.
  intros Hclaim. specialize (Hclaim (VOther "Decimal" "1.50")).
  cbn in Hclaim. discriminate.
Qed.

(** C6, as the code has it.  [None] is written NULL.  An instance of
    [int] or of [float] is written unquoted as the text [str] gives: for an
    [int] its decimal numeral, which reads back as the same number; for a
    [bool] True or False; for a [float] whatever [str] gives for it.  Any
    other value, a [Decimal] included, is written between single quotes as
    the text [str] gives for it with every single quote doubled and nothing
    else changed, so that un-doubling gives the text back. *)
Theorem serialize_value_policy (v : value) :
  match v with
  | VNone => serialize_value v = "NULL"
  | VBool b => serialize_value v = (if b then "True" else "False")
  | VInt n =>
      serialize_value v = PyStr.of_int n /\
      option_map Z.of_int (NilZero.int_of_string (serialize_value v)) = Some n
  | VFloat repr => serialize_value v = repr
  | VStr text | VOther _ text =>
      serialize_value v = "'" +:+ double_quotes text +:+ "'" /\
      undouble (double_quotes text) = text
  end.
Proof.
  destruct v as [|b|n|r|t|cls t]; cbn [serialize_value py_str].
  - reflexivity.
  - reflexivity.
  - split; [reflexivity|apply of_int_parses].
  - reflexivity.
  - fold quote. rewrite replace_doubles. split; [reflexivity|].
    rewrite <- replace_doubles. apply undouble_replace.
  - fold quote. rewrite replace_doubles. split; [reflexivity|].
    rewrite <- replace_doubles. apply undouble_replace.
Qed.

(** ** export_dump *)

Section Strings.

Lemma append_cons (x : ascii) (a b : string) :
  String x a +:+ b = String x (a +:+ b).
Proof. reflexivity. Qed.

Lemma append_assoc (a b c : string) : (a +:+ b) +:+ c = a +:+ (b +:+ c).
Proof.
  induction a as [|x a IH]; [reflexivity|].
  rewrite !append_cons. f_equal. exact IH.
Qed.

Lemma append_nil_r (a : string) : a +:+ "" = a.
Proof.
  induction a as [|x a IH]; [reflexivity|].
  rewrite append_cons. f_equal. exact IH.
Qed.

End Strings.

Section ExportDump.

Context {E : Engine}.

(** Running a computation: the shape of a successful bind. *)
Lemma bind_Ok {A B} (m : M E A) (k : A -> M E B) (w w' : world E) (b : B) :
  bind m k w = (Ok b, w') ->
  exists a w1, m w = (Ok a, w1) /\ k a w1 = (Ok b, w').
Proof.
  unfold bind. destruct (m w) as [[a|e] w1]; [eauto|discriminate].
Qed.

Lemma write_spec (f text old : string) (w : world E) :
  files (fs w) !! f = Some old ->
  exists w', write f text w = (Ok tt, w') /\
    files (fs w') !! f = Some (old +:+ text) /\
    srv w' = srv w /\ now w' = now w /\ trace w' = trace w.
Proof.
  intros Hold. eexists. split; [reflexivity|]. cbn. rewrite Hold.
  rewrite lookup_insert_eq. auto.
Qed.

Lemma write_Ok (f text old : string) (w w' : world E) :
  files (fs w) !! f = Some old ->
  write f text w = (Ok tt, w') ->
  files (fs w') !! f = Some (old +:+ text) /\
  srv w' = srv w /\ now w' = now w.
Proof.
  intros Hold Hrun.
  destruct (write_spec f text old w Hold) as (w1 & Hw1 & Hc & Hs & Hn & _).
  rewrite Hrun in Hw1. injection Hw1 as <-. auto.
Qed.

(** The loop over the rows writes them separated by a comma and a
    newline, and closes the statement after the last one. *)
Lemma rows_loop_spec (f : string) (rws : list (list value)) :
  forall (i : Z) (old : string) (w : world E),
    rws <> [] ->
    files (fs w) !! f = Some old ->
    exists w',
      for_each (enumerate_from i rws)
               (write_row f (i + Z.of_nat (length rws))) w = (Ok tt, w') /\
      files (fs w') !! f
        = Some (old +:+ PyStr.join ("," +:+ nl) (map row_text rws) +:+ ";" +:+ nl) /\
      srv w' = srv w /\ now w' = now w /\ trace w' = trace w.
Proof.
  induction rws as [|row rws IH]; intros i old w Hne Hold; [contradiction|].
  cbn [enumerate_from for_each]. unfold mbind, M_bind. unfold write_row at 1.
  unfold mbind, M_bind, bind.
  destruct (write_spec f ("(" +:+ PyStr.join "," (map serialize_value row) +:+ ")")
              old w Hold) as (w1 & -> & Hc1 & Hs1 & Hn1 & Ht1).
  destruct rws as [|row' rws].
  - cbn [length]. replace (i =? i + Z.of_nat 1 - 1) with true
      by (symmetry; apply Z.eqb_eq; lia).
    destruct (write_spec f (";" +:+ nl) _ w1 Hc1) as (w2 & -> & Hc2 & Hs2 & Hn2 & Ht2).
    exists w2. split; [reflexivity|].
    rewrite Hc2, Hs2, Hn2, Ht2, Hs1, Hn1, Ht1. repeat split.
    f_equal. cbn [map PyStr.join]. fold (row_text row).
    rewrite !append_assoc. reflexivity.
  - replace (i =? i + Z.of_nat (length (row :: row' :: rws)) - 1) with false
      by (symmetry; apply Z.eqb_neq; cbn [length]; lia).
    destruct (write_spec f ("," +:+ nl) _ w1 Hc1) as (w2 & -> & Hc2 & Hs2 & Hn2 & Ht2).
    destruct (IH (i + 1) _ w2 ltac:(discriminate) Hc2)
      as (w3 & Hrun & Hc3 & Hs3 & Hn3 & Ht3).
    replace (i + 1 + Z.of_nat (length (row' :: rws)))
      with (i + Z.of_nat (length (row :: row' :: rws))) in Hrun
      by (cbn [length]; lia).
    exists w3. split; [exact Hrun|].
    rewrite Hc3, Hs3, Hn3, Ht3, Hs2, Hn2, Ht2, Hs1, Hn1, Ht1. repeat split.
    f_equal. fold (row_text row).
    change (map row_text (row :: row' :: rws))
      with (row_text row :: map row_text (row' :: rws)).
    cbn [map]. rewrite join_cons. cbn [map].
    rewrite !append_assoc. reflexivity.
Qed.

Lemma cur_execute_Ok (sql : string) (w w' : world E) (rs : resultset) :
  cur_execute Cursor sql w = (Ok rs, w') ->
  exists s, execute E sql (srv w) = (inr rs, s) /\
    srv w' = s /\ fs w' = fs w /\ now w' = now w /\
    trace w' = trace w ++ [EvExecute sql None].
Proof.
  unfold cur_execute. destruct (execute E sql (srv w)) as [[m|rs'] s];
    intros [= <- <-]. eauto 10.
Qed.

(** One table: what is appended to the file is the block of the table
    as the engine reported it. *)
Lemma export_table_spec (f : string) (v : value) (old : string) (w w' : world E) :
  files (fs w) !! f = Some old ->
  export_table Cursor f v w = (Ok tt, w') ->
  exists rs1 s1 row others create rs2,
    execute E ("SHOW CREATE TABLE `" +:+ py_str v +:+ "`") (srv w) = (inr rs1, s1) /\
    rows rs1 = row :: others /\
    row !! 1%nat = Some create /\
    execute E ("SELECT * FROM `" +:+ py_str v +:+ "`") s1 = (inr rs2, srv w') /\
    files (fs w') !! f
      = Some (old +:+ table_block (Table (py_str v) (py_str create)
                                         (description rs2) (rows rs2))) /\
    now w' = now w.
Proof.
  intros Hold. unfold export_table. unfold mbind, M_bind. intros Hrun.
  apply bind_Ok in Hrun as ([] & w1 & Hw1 & Hrun).
  destruct (write_spec f (nl +:+ "-- Table structure for table `" +:+ py_str v
                          +:+ "`" +:+ nl) old w Hold)
    as (w1' & Hw1' & Hc1 & Hs1 & Hn1 & _).
  rewrite Hw1 in Hw1'. injection Hw1' as <-.
  apply bind_Ok in Hrun as ([] & w2 & Hw2 & Hrun).
  destruct (write_spec f ("DROP TABLE IF EXISTS `" +:+ py_str v +:+ "`;" +:+ nl)
              _ w1 Hc1) as (w2' & Hw2' & Hc2 & Hs2 & Hn2 & _).
  rewrite Hw2 in Hw2'. injection Hw2' as <-.
  apply bind_Ok in Hrun as (rs1 & w3 & Hw3 & Hrun).
  apply cur_execute_Ok in Hw3 as (s1 & Hq1 & Hs3 & Hf3 & Hn3 & _).
  apply bind_Ok in Hrun as (create & w4 & Hw4 & Hrun).
  unfold fetchone_subscript, subscript in Hw4.
  destruct (rows rs1) as [|row others] eqn:Hrows; [discriminate|].
  destruct (row !! 1%nat) as [create'|] eqn:Hrow; [|discriminate].
  injection Hw4 as -> <-.
  apply bind_Ok in Hrun as ([] & w5 & Hw5 & Hrun).
  assert (Hc3 : files (fs w3) !! f = Some
            ((old +:+ (nl +:+ "-- Table structure for table `" +:+ py_str v +:+ "`" +:+ nl))
             +:+ "DROP TABLE IF EXISTS `" +:+ py_str v +:+ "`;" +:+ nl))
    by (rewrite Hf3; exact Hc2).
  destruct (write_spec f (py_str create +:+ ";" +:+ nl +:+ nl) _ w3 Hc3)
    as (w5' & Hw5' & Hc5 & Hs5 & Hn5 & _).
  rewrite Hw5 in Hw5'. injection Hw5' as <-.
  apply bind_Ok in Hrun as ([] & w6 & Hw6 & Hrun).
  destruct (write_spec f ("-- Dumping data for table `" +:+ py_str v +:+ "`" +:+ nl)
              _ w5 Hc5) as (w6' & Hw6' & Hc6 & Hs6 & Hn6 & _).
  rewrite Hw6 in Hw6'. injection Hw6' as <-.
  apply bind_Ok in Hrun as (rs2 & w7 & Hw7 & Hrun).
  apply cur_execute_Ok in Hw7 as (s2 & Hq2 & Hs7 & Hf7 & Hn7 & _).
  exists rs1, s1, row, others, create, rs2.
  rewrite Hs2, Hs1 in Hq1.
  rewrite Hs6, Hs5, Hs3 in Hq2.
  assert (Hnow : now w7 = now w) by congruence.
  rewrite <- Hf7 in Hc6. clear Hf7.
  destruct (rows rs2) as [|r rws] eqn:Hrows2.
  - injection Hrun as <-. rewrite Hs7. repeat split; try assumption.
    rewrite Hc6. f_equal. unfold table_block. cbn [t_name t_create t_rows].
    rewrite !append_assoc. rewrite append_nil_r. reflexivity.
  - apply bind_Ok in Hrun as ([] & w8 & Hw8 & Hrun).
    destruct (write_spec f ("INSERT INTO `" +:+ py_str v +:+ "` (`"
                            +:+ PyStr.join "`,`" (description rs2)
                            +:+ "`) VALUES" +:+ nl) _ w7 Hc6)
      as (w8' & Hw8' & Hc8 & Hs8 & Hn8 & _).
    rewrite Hw8 in Hw8'. injection Hw8' as <-.
    destruct (rows_loop_spec f (r :: rws) 0 _ w8 ltac:(discriminate) Hc8)
      as (w9 & Hw9 & Hc9 & Hs9 & Hn9 & _).
    unfold enumerate in Hrun. rewrite Z.add_0_l in Hw9.
    rewrite Hrun in Hw9. injection Hw9 as <-.
    rewrite Hs9, Hs8, Hs7. repeat split; try assumption; [|congruence].
    rewrite Hc9. f_equal. unfold table_block, insert_statement.
    cbn [t_name t_create t_rows t_columns].
    rewrite !append_assoc. reflexivity.
Qed.

Lemma concat_cons (x : string) (xs : list string) :
  String.concat "" (x :: xs) = x +:+ String.concat "" xs.
Proof.
  destruct xs as [|y xs]; cbn [String.concat]; [|reflexivity].
  symmetry. apply append_nil_r.
Qed.

(** The loop over the tables: one block per table, in the order of the
    enumeration, for what the engine reported. *)
Lemma tables_loop_spec (f : string) (names : list value) :
  forall (old : string) (w w' : world E),
    files (fs w) !! f = Some old ->
    for_each names (export_table Cursor f) w = (Ok tt, w') ->
    exists T,
      reports E names (srv w) T (srv w') /\
      files (fs w') !! f = Some (old +:+ String.concat "" (map table_block T)) /\
      now w' = now w.
Proof.
  induction names as [|v names IH]; intros old w w' Hold Hrun.
  - injection Hrun as <-. exists []. split; [constructor|].
    cbn. rewrite append_nil_r. auto.
  - cbn [for_each] in Hrun. unfold mbind, M_bind in Hrun.
    apply bind_Ok in Hrun as ([] & w1 & Hw1 & Hrun).
    destruct (export_table_spec f v old w w1 Hold Hw1)
      as (rs1 & s1 & row & others & create & rs2 & Hq1 & Hrows & Hrow & Hq2 & Hc1 & Hn1).
    destruct (IH _ w1 w' Hc1 Hrun) as (T & Hrep & Hc & Hn).
    exists (Table (py_str v) (py_str create) (description rs2) (rows rs2) :: T).
    split; [econstructor; eassumption|].
    split; [|congruence].
    rewrite Hc. f_equal. cbn [map]. rewrite concat_cons, append_assoc. reflexivity.
Qed.

Lemma comprehension_first (rws : list (list value)) :
  forall (w w' : world E) (names : list value),
    comprehension rws (fun table => subscript table 0) w = (Ok names, w') ->
    w' = w /\ Forall2 (fun row name => head row = Some name) rws names.
Proof.
  induction rws as [|row rws IH]; intros w w' names Hrun.
  - injection Hrun as <- <-. split; [reflexivity|constructor].
  - cbn [comprehension] in Hrun. unfold mbind, M_bind in Hrun.
    apply bind_Ok in Hrun as (name & w1 & Hw1 & Hrun).
    apply bind_Ok in Hrun as (names' & w2 & Hw2 & Hrun).
    injection Hrun as <- <-.
    unfold subscript in Hw1. destruct row as [|x row]; [discriminate|].
    cbn in Hw1. injection Hw1 as <- <-.
    destruct (IH w w2 names' Hw2) as [-> HF].
    split; [reflexivity|]. constructor; [reflexivity|assumption].
Qed.

Lemma use_database_Ok (db_name : option string) (w w' : world E) :
  use_database Cursor db_name w = (Ok tt, w') ->
  fs w' = fs w /\ now w' = now w.
Proof.
  intros Hrun. pose proof (use_database_frame db_name w) as H.
  rewrite Hrun in H. exact H.
Qed.

(** The [try] suite of [export_dump], when it returns. *)
Lemma export_dump_try_spec (out : string) (db_name : option string)
    (w w' : world E) (r : bool * string) :
  export_dump_try out db_name Connection w = (Ok r, w') ->
  exists w2 rs s3 names T,
    use_database Cursor db_name w = (Ok tt, w2) /\
    execute E "SHOW TABLES" (srv w2) = (inr rs, s3) /\
    Forall2 (fun row name => head row = Some name) (rows rs) names /\
    reports E names s3 T (srv w') /\
    files (fs w') !! out
      = Some (dump_text (now w) (default DB_CONFIG_database (given db_name)) T) /\
    r = (true, "Dump exported successfully").
Proof.
  unfold export_dump_try, conn_cursor. unfold mbind, M_bind, mret, M_ret.
  intros Hrun.
  apply bind_Ok in Hrun as ([] & w0 & Hw0 & Hrun). injection Hw0 as <-.
  apply bind_Ok in Hrun as ([] & w2 & Hw2 & Hrun).
  destruct (use_database_Ok db_name w w2 Hw2) as [Hf2 Hn2].
  apply bind_Ok in Hrun as (rs & w3 & Hw3 & Hrun).
  apply cur_execute_Ok in Hw3 as (s3 & Hq & Hs3 & Hf3 & Hn3 & _).
  apply bind_Ok in Hrun as (names & w4 & Hw4 & Hrun).
  apply comprehension_first in Hw4 as [-> HF].
  apply bind_Ok in Hrun as ([] & w5 & Hw5 & Hrun).
  unfold open_w in Hw5.
  destruct (decide (out ∈ protected (fs w3))); [discriminate|].
  injection Hw5 as <-.
  apply bind_Ok in Hrun as (stamp & w6 & Hw6 & Hrun).
  unfold datetime_now in Hw6. injection Hw6 as <- <-.
  set (w5 := with_fs _ w3) in *.
  assert (Hc5 : files (fs w5) !! out = Some "")
    by (subst w5; cbn; apply lookup_insert_eq).
  apply bind_Ok in Hrun as ([] & w7 & Hw7 & Hrun).
  apply (write_Ok _ _ _ _ _ Hc5) in Hw7 as (Hc7 & Hs7 & Hn7).
  apply bind_Ok in Hrun as ([] & w8 & Hw8 & Hrun).
  apply (write_Ok _ _ _ _ _ Hc7) in Hw8 as (Hc8 & Hs8 & Hn8).
  apply bind_Ok in Hrun as ([] & w9 & Hw9 & Hrun).
  injection Hrun as <- <-.
  destruct (tables_loop_spec out names _ w8 w9 Hc8 Hw9) as (T & Hrep & Hc9 & Hn9).
  exists w2, rs, s3, names, T.
  assert (Hnow5 : now w3 = now w) by congruence.
  assert (Hsrv8 : srv w8 = s3) by (rewrite Hs8, Hs7; subst w5; cbn; exact Hs3).
  rewrite Hsrv8 in Hrep.
  repeat split; try assumption.
  rewrite Hc9. f_equal. unfold dump_text, dump_header. rewrite Hnow5.
  rewrite !append_assoc. reflexivity.
Qed.

End ExportDump.

(** A successful [export_dump]: what it saw, and what it wrote. *)
Lemma export_dump_success (E : Engine) (out : string)
    (db_name : option string) (w w' : world E) (m : string) :
  export_dump out db_name w = (Ok (true, m), w') ->
  exists T s,
    export_saw E db_name w T s /\
    srv w' = close E s /\
    files (fs w') !! out
      = Some (dump_text (now w) (default DB_CONFIG_database (given db_name)) T).
Proof.
  unfold export_dump, with_connection. intros Hrun.
  pose proof (get_db_connection_frame w) as [Hf1 Hn1].
  destruct (get_db_connection w) as [[[]|e] w1] eqn:Hconn; [|discriminate].
  cbn [snd] in *.
  unfold try_finally, try_except, export_dump_except, conn_close in Hrun.
  destruct (export_dump_try out db_name Connection w1) as [[r|e] w2] eqn:Htry;
    [|discriminate].
  injection Hrun as -> <-.
  apply export_dump_try_spec in Htry
    as (w2' & rs & s3 & names & T & Huse & Hq & HF & Hrep & Hc & _).
  exists T, (srv w2). split; [exists w1, w2', rs, s3, names; auto|].
  split; [reflexivity|]. cbn. rewrite Hc, Hn1. reflexivity.
Qed.

(** C5.  When [export_dump] succeeds, the file holds the header and then,
    for each table in the order the engine enumerated them, one block:
    the DROP TABLE IF EXISTS statement, the create statement the engine
    reported, and one INSERT statement with all the rows of the table, or
    no INSERT statement when the table has no row. *)
Theorem export_dump_writes_blocks (E : Engine) (out : string)
    (db_name : option string) (w w' : world E) (m : string) :
  export_dump out db_name w = (Ok (true, m), w') ->
  exists T s,
    export_saw E db_name w T s /\
    srv w' = close E s /\
    files (fs w') !! out
      = Some (dump_header (now w) (default DB_CONFIG_database (given db_name))
              +:+ String.concat "" (map table_block T)) /\
    Forall (fun t =>
      table_block t
        = nl +:+ "-- Table structure for table `" +:+ t_name t +:+ "`" +:+ nl
            +:+ "DROP TABLE IF EXISTS `" +:+ t_name t +:+ "`;" +:+ nl
            +:+ t_create t +:+ ";" +:+ nl +:+ nl
            +:+ "-- Dumping data for table `" +:+ t_name t +:+ "`" +:+ nl
            +:+ match t_rows t with
                | [] => ""
                | _ :: _ =>
                    "INSERT INTO `" +:+ t_name t +:+ "` (`"
                      +:+ PyStr.join "`,`" (t_columns t) +:+ "`) VALUES" +:+ nl
                      +:+ PyStr.join ("," +:+ nl) (map row_text (t_rows t))
                      +:+ ";" +:+ nl
                end) T.
Proof.
  intros Hrun.
  destruct (export_dump_success E out db_name w w' m Hrun) as (T & s & Hsaw & Hsrv & Hfile).
  exists T, s. repeat split; try assumption.
  apply Forall_forall. intros t _. reflexivity.
Qed.

Lemma export_dump_writes_blocks_witness :
  exists T,
    files (fs (snd (export_dump "out.sql" None export_world))) !! "out.sql"
      = Some (dump_header (now export_world) DB_CONFIG_database
              +:+ String.concat "" (map table_block T)).
Proof.
  destruct (export_dump_writes_blocks (Mock.engine (script_of two_tables)) "out.sql" None export_world
              (snd (export_dump "out.sql" None export_world))
              "Dump exported successfully")
    as (T & s & _ & _ & Hfile & _).
  - apply run_result. vm_compute. reflexivity.
  - exists T. exact Hfile.
Defined.

(** ** What leaves the files alone *)

Section KeepsFiles.

Context {E : Engine}.

Lemma keeps_fs_ret {A} (a : A) : keeps_fs (E := E) (ret a).
Proof. intros w. reflexivity. Qed.

Lemma keeps_fs_raise {A} (e : exn) : keeps_fs (E := E) (A := A) (raise e).
Proof. intros w. reflexivity. Qed.

Lemma keeps_fs_bind {A B} (m : M E A) (k : A -> M E B) :
  keeps_fs m -> (forall a, keeps_fs (k a)) -> keeps_fs (bind m k).
Proof.
  intros Hm Hk w. unfold bind. specialize (Hm w).
  destruct (m w) as [[a|e] w1]; cbn in *; [|assumption].
  rewrite Hk. assumption.
Qed.

Lemma keeps_fs_try_except {A} (m : M E A) (h : exn -> M E A) :
  keeps_fs m -> (forall e, keeps_fs (h e)) -> keeps_fs (try_except m h).
Proof.
  intros Hm Hh w. unfold try_except. specialize (Hm w).
  destruct (m w) as [[a|e] w1]; cbn in *; [assumption|].
  rewrite Hh. assumption.
Qed.

Lemma keeps_fs_try_finally {A} (m : M E A) (f : M E unit) :
  keeps_fs m -> keeps_fs f -> keeps_fs (try_finally m f).
Proof.
  intros Hm Hf w. unfold try_finally. specialize (Hm w).
  destruct (m w) as [r w1]. specialize (Hf w1).
  destruct (f w1) as [[[]|e] w2]; cbn in *; congruence.
Qed.

Lemma keeps_fs_for_each {A} (xs : list A) (body : A -> M E unit) :
  (forall x, keeps_fs (body x)) -> keeps_fs (for_each xs body).
Proof.
  intros Hb. induction xs as [|x xs IH]; [apply keeps_fs_ret|].
  cbn [for_each]. apply keeps_fs_bind; auto.
Qed.

Lemma keeps_fs_cur_execute (sql : string) : keeps_fs (cur_execute (E := E) Cursor sql).
Proof. intros w. apply cur_execute_frame. Qed.

Lemma keeps_fs_get_db_connection : keeps_fs (get_db_connection (E := E)).
Proof. intros w. apply get_db_connection_frame. Qed.

Lemma keeps_fs_read_text (path : string) : keeps_fs (read_text (E := E) path).
Proof.
  intros w. rewrite read_text_file. destruct (file_text (fs w) path); reflexivity.
Qed.

Lemma keeps_fs_conn_commit : keeps_fs (conn_commit (E := E) Connection).
Proof. intros w. unfold conn_commit. destruct (commit E (srv w)) as [[m|] s]; reflexivity. Qed.

Lemma keeps_fs_replay_command (command : string) :
  keeps_fs (replay_command (E := E) Cursor command).
Proof. intros w. apply replay_command_trace. Qed.

Lemma keeps_fs_import_dump (path : string) (new_db_name : option string) :
  keeps_fs (import_dump (E := E) path new_db_name).
Proof.
  intros w. unfold import_dump, with_connection.
  pose proof (keeps_fs_get_db_connection w) as Hc.
  destruct (get_db_connection w) as [[[]|e] w1]; cbn [snd] in Hc; [|exact Hc].
  rewrite <- Hc. apply keeps_fs_try_finally; [|intros w'; reflexivity].
  apply keeps_fs_try_except; [|intros e w'; reflexivity].
  unfold import_dump_try. apply keeps_fs_bind; [apply keeps_fs_ret|]. intros [].
  apply keeps_fs_bind; [intros w'; apply create_and_use_frame|]. intros _.
  apply keeps_fs_bind; [apply keeps_fs_read_text|]. intros text.
  apply keeps_fs_bind;
    [apply keeps_fs_for_each; intros c; apply keeps_fs_replay_command|].
  intros _. apply keeps_fs_bind; [apply keeps_fs_conn_commit|].
  intros _. apply keeps_fs_ret.
Qed.

Lemma import_chunk_record_fs (chunk_file db_name : string) (w : world E) :
  fs (snd (import_chunk_record chunk_file db_name w)) = fs w.
Proof.
  unfold import_chunk_record. unfold_M. unfold time_time.
  pose proof (keeps_fs_import_dump chunk_file (Some db_name) w) as H.
  destruct (import_dump chunk_file (Some db_name) w) as [[[b m]|e] w1];
    cbn in *; exact H.
Qed.

Lemma import_chunk_record_name (chunk_file name : string) (w : world E) :
  db_name (fst (import_chunk_record chunk_file name w)) = name.
Proof.
  unfold import_chunk_record. unfold_M. unfold time_time.
  destruct (import_dump chunk_file (Some name) w) as [[[b m]|e] w1]; reflexivity.
Qed.

End KeepsFiles.

(** ** threaded_import *)

Section Threads.

Context {E : Engine}.

Lemma thread_name_inj (prefix : string) (i j : nat) :
  thread_name prefix i = thread_name prefix j -> i = j.
Proof.
  unfold thread_name. intros H.
  apply String.app_inj in H. apply String.app_inj in H.
  apply of_int_inj in H. lia.
Qed.

Lemma pool_inv_start (path prefix : string) (n : Z) (w : world E) :
  pool_inv path prefix (Z.to_nat n) w (threaded_import_start path n w) [].
Proof.
  constructor; cbn; try reflexivity.
  - split; [reflexivity|lia].
  - intros i wk Hi. rewrite lookup_nil in Hi. discriminate.
  - constructor.
  - intros i. rewrite lookup_nil. split; [intros H; inversion H|discriminate].
Qed.

(** A turn keeps the invariant. *)
Lemma pool_inv_step (path prefix : string) (n : nat) (w0 : world E)
    (a : actor) (p p' : pool E) (order : list nat) :
  pool_inv path prefix n w0 p order ->
  step prefix a p = Some p' ->
  exists order', pool_inv path prefix n w0 p' order'.
Proof.
  intros [Hch Hpc Hth Hnames Hnd Hord Hw] Hstep.
  destruct a as [|i].
  - (* the coordinator *)
    unfold step in Hstep. destruct (pc p) as [i|j| |] eqn:Hp.
    + destruct Hpc as [Hlen Hle].
      destruct (chunks p !! i) as [c|] eqn:Hc; injection Hstep as <-.
      * assert (Hin : (i < n)%nat).
        { apply lookup_lt_Some in Hc. rewrite Hch, repeat_length in Hc. exact Hc. }
        assert (c = path) as ->.
        { rewrite Hch in Hc. apply list_elem_of_lookup_2 in Hc.
          apply list_elem_of_In, repeat_spec in Hc. exact Hc. }
        exists order. constructor; cbn; try assumption.
        -- rewrite length_app. cbn. split; lia.
        -- intros k wk Hk. apply lookup_app_Some in Hk as [Hk|[Hge Hk]].
           ++ apply Hth. exact Hk.
           ++ apply list_lookup_singleton_Some in Hk as [Hk <-].
              split; [reflexivity|]. f_equal. lia.
        -- intros k. rewrite Hord. split; intros Hk.
           ++ apply lookup_app_l_Some. exact Hk.
           ++ apply lookup_app_Some in Hk as [Hk|[Hge Hk]]; [exact Hk|].
              apply list_lookup_singleton_Some in Hk as [_ Hk]. discriminate.
      * apply lookup_ge_None in Hc. rewrite Hch, repeat_length in Hc.
        exists order. constructor; cbn; try assumption.
        split; [lia|]. intros k Hk. lia.
    + destruct Hpc as [Hlen Hfin].
      destruct (threads p !! j) as [[c d|r|]|] eqn:Hj; try discriminate;
        injection Hstep as <-; exists order; constructor; cbn; try assumption.
      * split; [assumption|]. intros k Hk Hkn.
        destruct (decide (k = j)) as [->|Hne]; [exact Hj|].
        apply Hfin; lia.
      * apply lookup_ge_None in Hj. split; [assumption|].
        intros k Hk. apply Hfin; lia.
    + injection Hstep as <-. exists order. constructor; cbn; try assumption.
      exists (shared p). split; [assumption|reflexivity].
    + discriminate.
  - (* a worker *)
    unfold step in Hstep.
    assert (Hstep' :
      match threads p !! i with
      | Some (Started c d) =>
          let '(r, w) := import_chunk_record c d (shared p) in
          Some (Pool (pc p) (chunks p) (<[i := Appending r]> (threads p))
                  (results p) w)
      | Some (Appending r) =>
          Some (Pool (pc p) (chunks p) (<[i := Finished]> (threads p))
                  (results p ++ [r]) (shared p))
      | _ => None
      end = Some p') by (destruct (pc p); exact Hstep).
    clear Hstep.
    destruct (threads p !! i) as [[c d|r|]|] eqn:Hi; try discriminate.
    + pose proof (import_chunk_record_fs c d (shared p)) as Hfs.
      pose proof (import_chunk_record_name c d (shared p)) as Hname.
      destruct (import_chunk_record c d (shared p)) as [r w1].
      cbn [fst snd] in *. injection Hstep' as <-.
      pose proof (lookup_lt_Some _ _ _ Hi) as Hlt.
      destruct (Hth i _ Hi) as [-> ->].
      exists order. constructor; cbn; try assumption.
      * rewrite length_insert.
        destruct (pc p) as [k|k| |]; try assumption.
        -- destruct Hpc as [Hlen Hfin]. split; [assumption|].
           intros k' Hk' Hkn. specialize (Hfin k' Hk' Hkn).
           destruct (decide (k' = i)) as [->|Hne]; [congruence|].
           rewrite list_lookup_insert_ne by congruence. exact Hfin.
        -- destruct Hpc as [Hlen Hfin]. specialize (Hfin i).
           rewrite Hlen in Hlt. specialize (Hfin Hlt). congruence.
        -- destruct Hpc as [Hlen Hfin]. specialize (Hfin i).
           rewrite Hlen in Hlt. specialize (Hfin Hlt). congruence.
      * intros k wk Hk. destruct (decide (k = i)) as [->|Hne].
        -- rewrite list_lookup_insert_eq in Hk by exact Hlt.
           injection Hk as <-. exact Hname.
        -- rewrite list_lookup_insert_ne in Hk by congruence. apply Hth. exact Hk.
      * intros k. rewrite Hord. destruct (decide (k = i)) as [->|Hne].
        -- rewrite list_lookup_insert_eq by exact Hlt. rewrite Hi.
           split; discriminate.
        -- rewrite list_lookup_insert_ne by congruence. reflexivity.
      * destruct (pc p) as [k|k| |]; try congruence.
        destruct Hpc as [Hlen Hfin]. specialize (Hfin i).
        rewrite Hlen in Hlt. specialize (Hfin Hlt). congruence.
    + injection Hstep' as <-.
      pose proof (lookup_lt_Some _ _ _ Hi) as Hlt.
      pose proof (Hth i _ Hi) as Hname. cbn in Hname.
      exists (order ++ [i]). constructor; cbn; try assumption.
      * rewrite length_insert.
        destruct (pc p) as [k|k| |]; try assumption.
        -- destruct Hpc as [Hlen Hfin]. split; [assumption|].
           intros k' Hk' Hkn. destruct (decide (k' = i)) as [->|Hne].
           ++ rewrite list_lookup_insert_eq by exact Hlt. reflexivity.
           ++ rewrite list_lookup_insert_ne by congruence. apply Hfin; assumption.
        -- destruct Hpc as [Hlen Hfin]. split; [assumption|].
           intros k' Hkn. destruct (decide (k' = i)) as [->|Hne].
           ++ rewrite list_lookup_insert_eq by exact Hlt. reflexivity.
           ++ rewrite list_lookup_insert_ne by congruence. apply Hfin; assumption.
        -- destruct Hpc as [Hlen Hfin]. split; [assumption|].
           intros k' Hkn. destruct (decide (k' = i)) as [->|Hne].
           ++ rewrite list_lookup_insert_eq by exact Hlt. reflexivity.
           ++ rewrite list_lookup_insert_ne by congruence. apply Hfin; assumption.
      * intros k wk Hk. destruct (decide (k = i)) as [->|Hne].
        -- rewrite list_lookup_insert_eq in Hk by exact Hlt.
           injection Hk as <-. exact I.
        -- rewrite list_lookup_insert_ne in Hk by congruence. apply Hth. exact Hk.
      * rewrite !map_app, Hnames. cbn. rewrite Hname. reflexivity.
      * apply NoDup_app. split; [assumption|]. split; [|apply NoDup_singleton].
        intros k Hk Hk'. apply list_elem_of_singleton in Hk' as ->.
        apply Hord in Hk. congruence.
      * intros k. rewrite elem_of_app, list_elem_of_singleton, Hord.
        destruct (decide (k = i)) as [->|Hne].
        -- rewrite list_lookup_insert_eq by exact Hlt. tauto.
        -- rewrite list_lookup_insert_ne by congruence. tauto.
Qed.

(** A whole schedule keeps the invariant. *)
Lemma pool_inv_run (path prefix : string) (n : nat) (w0 : world E)
    (schedule : list actor) : forall (p : pool E) (order : list nat),
  pool_inv path prefix n w0 p order ->
  exists order', pool_inv path prefix n w0 (run prefix schedule p) order'.
Proof.
  induction schedule as [|a schedule IH]; intros p order Hinv; [eauto|].
  cbn [run]. destruct (step prefix a p) as [p'|] eqn:Hstep; cbn [default].
  - destruct (pool_inv_step _ _ _ _ _ _ _ _ Hinv Hstep) as [order' Hinv'].
    eapply IH. exact Hinv'.
  - eapply IH. exact Hinv.
Qed.

(** *** A schedule under which it returns *)

Lemma run_app (prefix : string) (s1 s2 : list actor) (p : pool E) :
  run prefix (s1 ++ s2) p = run prefix s2 (run prefix s1 p).
Proof.
  revert p. induction s1 as [|a s1 IH]; intros p; [reflexivity|].
  cbn [app run]. apply IH.
Qed.

Lemma repeat_snoc {A} (x : A) (k : nat) : repeat x (S k) = repeat x k ++ [x].
Proof. induction k as [|k IH]; [reflexivity|]. cbn in *. rewrite <- IH. reflexivity. Qed.

Lemma repeat_lookup_lt {A} (x : A) (i n : nat) :
  (i < n)%nat -> repeat x n !! i = Some x.
Proof.
  revert i. induction n as [|n IH]; intros i Hi; [lia|].
  destruct i as [|i]; [reflexivity|]. cbn. apply IH. lia.
Qed.

Lemma repeat_lookup_ge {A} (x : A) (i n : nat) :
  (n <= i)%nat -> repeat x n !! i = None.
Proof. intros Hi. apply lookup_ge_None. rewrite repeat_length. exact Hi. Qed.

Lemma started_snoc (path prefix : string) (a k : nat) :
  started path prefix a (S k)
    = started path prefix a k ++ [Started path (thread_name prefix (a + k))].
Proof. unfold started. rewrite seq_S, map_app. reflexivity. Qed.

Lemma started_length (path prefix : string) (a k : nat) :
  length (started path prefix a k) = k.
Proof. unfold started. rewrite length_map, length_seq. reflexivity. Qed.

Lemma run_one (prefix : string) (a : actor) (p p' : pool E) :
  step prefix a p = Some p' -> run prefix [a] p = p'.
Proof. intros H. cbn [run]. rewrite H. reflexivity. Qed.

Lemma starting_phase (path prefix : string) (n : nat) (w : world E) (k : nat) :
  (k <= n)%nat ->
  run prefix (repeat Main k) (Pool (Starting 0) (repeat path n) [] [] w)
    = Pool (Starting k) (repeat path n) (started path prefix 0 k) [] w.
Proof.
  induction k as [|k IH]; intros Hk; [reflexivity|].
  rewrite repeat_snoc, run_app, IH by lia. apply run_one.
  unfold step. cbn [pc chunks threads results shared].
  rewrite (repeat_lookup_lt path k n) by lia.
  rewrite started_snoc. reflexivity.
Qed.

Lemma insert_middle {A} (l1 l2 : list A) (x y : A) :
  <[length l1 := y]> (l1 ++ x :: l2) = l1 ++ y :: l2.
Proof.
  rewrite <- (Nat.add_0_r (length l1)), insert_app_r. reflexivity.
Qed.

Lemma step_started (prefix : string) (j : nat) (chs : list string)
    (done rest : list worker) (c d : string) (rs : list outcome) (w : world E) :
  step prefix (Worker (length done))
       (Pool (Joining j) chs (done ++ Started c d :: rest) rs w)
    = Some (Pool (Joining j) chs
              (done ++ Appending (fst (import_chunk_record c d w)) :: rest) rs
              (snd (import_chunk_record c d w))).
Proof.
  unfold step. cbn [pc threads chunks results shared].
  rewrite list_lookup_middle by reflexivity.
  destruct (import_chunk_record c d w) as [r w1]. cbn [fst snd].
  rewrite insert_middle. reflexivity.
Qed.

Lemma step_appending (prefix : string) (j : nat) (chs : list string)
    (done rest : list worker) (r : outcome) (rs : list outcome) (w : world E) :
  step prefix (Worker (length done))
       (Pool (Joining j) chs (done ++ Appending r :: rest) rs w)
    = Some (Pool (Joining j) chs (done ++ Finished :: rest) (rs ++ [r]) w).
Proof.
  unfold step. cbn [pc threads chunks results shared].
  rewrite list_lookup_middle by reflexivity.
  rewrite insert_middle. reflexivity.
Qed.

(** The two turns of a worker just started: the import, the append. *)
Lemma worker_turns (prefix : string) (j : nat) (chs : list string)
    (done rest : list worker) (c d : string) (rs : list outcome) (w : world E) :
  run prefix [Worker (length done); Worker (length done)]
      (Pool (Joining j) chs (done ++ Started c d :: rest) rs w)
    = Pool (Joining j) chs (done ++ Finished :: rest)
           (rs ++ [fst (import_chunk_record c d w)])
           (snd (import_chunk_record c d w)).
Proof.
  cbn [run]. rewrite step_started. unfold default at 2. cbn [from_option id].
  rewrite step_appending. reflexivity.
Qed.

Lemma workers_phase (path prefix : string) (n : nat) (k : nat) :
  (k <= n)%nat ->
  forall w : world E, exists rs w',
    run prefix (flat_map (fun i => [Worker i; Worker i]) (seq 0 k))
        (Pool (Joining 0) (repeat path n) (started path prefix 0 n) [] w)
      = Pool (Joining 0) (repeat path n)
             (repeat Finished k ++ started path prefix k (n - k)) rs w'.
Proof.
  induction k as [|k IH]; intros Hk w.
  - exists [], w. cbn. rewrite Nat.sub_0_r. reflexivity.
  - destruct (IH ltac:(lia) w) as (rs & w' & Hrun).
    rewrite seq_S, flat_map_app, run_app, Hrun. cbn [flat_map app Nat.add].
    replace (n - k)%nat with (S (n - S k)) by lia.
    unfold started at 1. cbn [seq map]. fold (started path prefix (S k) (n - S k)).
    pose proof (worker_turns prefix 0 (repeat path n) (repeat Finished k)
                  (started path prefix (S k) (n - S k)) path
                  (thread_name prefix k) rs w') as Hturns.
    rewrite repeat_length in Hturns. rewrite Hturns.
    eexists _, _. f_equal. rewrite repeat_snoc, <- app_assoc. reflexivity.
Qed.

Lemma joining_phase (path prefix : string) (n : nat) (rs : list outcome)
    (w : world E) (j : nat) :
  (j <= n)%nat ->
  run prefix (repeat Main j)
      (Pool (Joining 0) (repeat path n) (repeat Finished n) rs w)
    = Pool (Joining j) (repeat path n) (repeat Finished n) rs w.
Proof.
  induction j as [|j IH]; intros Hj; [reflexivity|].
  rewrite repeat_snoc, run_app, IH by lia. apply run_one.
  unfold step. cbn [pc chunks threads results shared].
  rewrite (repeat_lookup_lt Finished j n) by lia. reflexivity.
Qed.

(** Under the sequential schedule, [threaded_import] returns. *)
Lemma sequential_schedule_returns (path prefix : string) (n : Z) (w : world E) :
  exists rs w',
    threaded_import path prefix n (sequential_schedule (Z.to_nat n)) w
      = Some (rs, w').
Proof.
  unfold threaded_import, sequential_schedule, threaded_import_start, split_dump_file.
  set (k := Z.to_nat n).
  rewrite !run_app. rewrite (repeat_snoc Main k), run_app.
  rewrite starting_phase by lia.
  rewrite (run_one prefix Main _
             (Pool (Joining 0) (repeat path k) (started path prefix 0 k) [] w)).
  2:{ unfold step. cbn [pc chunks threads results shared].
      rewrite (repeat_lookup_ge path k k) by lia. reflexivity. }
  destruct (workers_phase path prefix k k ltac:(lia) w) as (rs & w' & ->).
  rewrite Nat.sub_diag. unfold started at 1. cbn [seq map]. rewrite app_nil_r.
  rewrite (repeat_snoc Main (S k)), run_app, (repeat_snoc Main k), run_app.
  rewrite joining_phase by lia.
  rewrite (run_one prefix Main
             (Pool (Joining k) (repeat path k) (repeat Finished k) rs w')
             (Pool CleaningUp (repeat path k) (repeat Finished k) rs w')).
  2:{ unfold step. cbn [pc chunks threads results shared].
      rewrite (repeat_lookup_ge Finished k k) by lia. reflexivity. }
  cbn [run step pc default from_option id chunks threads results shared].
  unfold default. cbn. eauto.
Qed.

End Threads.

Section Returned.

Context {E : Engine}.

(** What [threaded_import] returned, from its first component. *)
Lemma returned_result (x : option (list outcome * world E))
    (rs : list outcome) (w0 : world E) :
  fst <$> x = Some rs -> x = Some (rs, world_after x w0).
Proof. destruct x as [[rs' w']|]; cbn; [|discriminate]. congruence. Qed.

(** When [threaded_import] has returned, the invariant holds with the
    coordinator past its cleanup. *)
Lemma threaded_import_returned (path prefix : string) (n : Z)
    (schedule : list actor) (w w' : world E) (rs : list outcome) :
  threaded_import path prefix n schedule w = Some (rs, w') ->
  exists p order,
    p = run prefix schedule (threaded_import_start path n w) /\
    pool_inv path prefix (Z.to_nat n) w p order /\
    pc p = Returned /\ results p = rs /\ shared p = w'.
Proof.
  unfold threaded_import. intros Hret.
  destruct (pool_inv_run path prefix (Z.to_nat n) w schedule _ []
              (pool_inv_start path prefix n w)) as [order Hinv].
  exists (run prefix schedule (threaded_import_start path n w)), order.
  destruct (pc (run prefix schedule (threaded_import_start path n w))) eqn:Hpc;
    try discriminate.
  injection Hret as <- <-. auto.
Qed.

Lemma cleanup_absent (path : string) (k : nat) : forall w : world E,
  files (fs w) !! path = None ->
  fs (snd (cleanup (repeat path k) w)) = fs w /\
  trace (snd (cleanup (repeat path k) w))
    = trace w ++ repeat (EvRemove path (Some (no_such_file path))) k.
Proof.
  induction k as [|k IH]; intros w Hnone.
  - cbn. rewrite app_nil_r. auto.
  - cbn [repeat]. unfold cleanup. cbn [for_each]. fold (cleanup (E := E) (repeat path k)).
    unfold_M. unfold os_remove. rewrite !Hnone. cbn [fst snd].
    set (w1 := emit _ w).
    destruct (IH w1 Hnone) as [Hfs Htr].
    destruct (cleanup (repeat path k) w1) as [[[]|e] w2]; cbn [fst snd] in *;
      rewrite Hfs, Htr; subst w1; cbn; rewrite <- app_assoc; auto.
Qed.

(** The cleanup loop over [k+1] copies of the same path: the first
    removal deletes the file, the others find it gone. *)
Lemma cleanup_present (path content : string) (k : nat) (w : world E) :
  files (fs w) !! path = Some content ->
  path ∉ protected (fs w) ->
  files (fs (snd (cleanup (repeat path (S k)) w))) !! path = None /\
  trace (snd (cleanup (repeat path (S k)) w))
    = trace w ++ EvRemove path None
        :: repeat (EvRemove path (Some (no_such_file path))) k.
Proof.
  intros Hfile Hfree. cbn [repeat]. unfold cleanup. cbn [for_each].
  fold (cleanup (E := E) (repeat path k)).
  unfold_M. unfold os_remove. rewrite !Hfile.
  rewrite !decide_False by exact Hfree. cbn [fst snd].
  set (w1 := emit _ (with_fs _ w)).
  assert (Hnone : files (fs w1) !! path = None)
    by (subst w1; cbn; apply lookup_delete_eq).
  destruct (cleanup_absent path k w1 Hnone) as [Hfs Htr].
  destruct (cleanup (repeat path k) w1) as [[[]|e] w2]; cbn [fst snd] in *;
    rewrite Hfs, Htr; subst w1; cbn; rewrite <- app_assoc;
    (split; [apply lookup_delete_eq|reflexivity]).
Qed.

End Returned.

(** C9.  There is a schedule under which [threaded_import] returns; and
    under any schedule, when it returns every worker has finished, and the
    shared list holds exactly one record per worker: as many records as
    workers, and their database names are those of the workers, in some
    order. *)
Theorem threaded_import_one_record_per_worker (E : Engine)
    (path prefix : string) (n : Z) (w : world E) :
  (exists schedule rs w',
     threaded_import path prefix n schedule w = Some (rs, w')) /\
  (forall schedule rs w',
     threaded_import path prefix n schedule w = Some (rs, w') ->
     let p := run prefix schedule (threaded_import_start path n w) in
     length (threads p) = Z.to_nat n /\
     Forall (eq Finished) (threads p) /\
     length rs = Z.to_nat n /\
     map db_name rs ≡ₚ map (thread_name prefix) (seq 0 (Z.to_nat n))).
Proof.
  split.
  - exists (sequential_schedule (Z.to_nat n)). apply sequential_schedule_returns.
  - intros schedule rs w' Hret. cbv zeta.
    apply threaded_import_returned in Hret
      as (p & order & <- & [Hch Hpc Hth Hnames Hnd Hord Hw] & Hp & Hrs & Hsh).
    rewrite Hp in Hpc. destruct Hpc as [Hlen Hfin].
    assert (Hperm : order ≡ₚ seq 0 (Z.to_nat n)).
    { apply NoDup_Permutation; [assumption|apply NoDup_seq|].
      intros i. rewrite Hord, elem_of_seq. split.
      - intros Hi. apply lookup_lt_Some in Hi. lia.
      - intros Hi. apply Hfin. lia. }
    split; [assumption|]. split.
    + apply Forall_lookup. intros i wk Hi.
      pose proof (lookup_lt_Some _ _ _ Hi) as Hlt.
      rewrite Hfin in Hi by lia. congruence.
    + assert (Hmap : map db_name rs ≡ₚ map (thread_name prefix) (seq 0 (Z.to_nat n))).
      { rewrite <- Hrs, Hnames. apply Permutation_map. exact Hperm. }
      split; [|exact Hmap].
      apply Permutation_length in Hmap.
      rewrite !length_map, length_seq in Hmap. exact Hmap.
Qed.

Lemma threaded_import_one_record_per_worker_witness :
  let p := run "copy" interleaved_schedule
             (threaded_import_start "dump.sql" 2 one_statement_world) in
  length (threads p) = 2%nat /\
  Forall (eq Finished) (threads p) /\
  length [Outcome "copy_thread_1" true "Dump imported successfully" (Some 0);
          Outcome "copy_thread_0" true "Dump imported successfully" (Some 0)]
    = 2%nat /\
  map db_name [Outcome "copy_thread_1" true "Dump imported successfully" (Some 0);
               Outcome "copy_thread_0" true "Dump imported successfully" (Some 0)]
    ≡ₚ map (thread_name "copy") (seq 0 (Z.to_nat 2)).
Proof.
  apply (proj2 (threaded_import_one_record_per_worker (Mock.engine one_statement_script)
                  "dump.sql" "copy" 2 one_statement_world)
           interleaved_schedule _
           (world_after (threaded_import "dump.sql" "copy" 2 interleaved_schedule
                           one_statement_world) one_statement_world)).
  apply returned_result. vm_compute. reflexivity.
Defined.

(** C10.  With at least one worker, a dump file that exists and may be
    removed is gone when [threaded_import] returns: the chunks are the
    dump's own path, once per worker, so the cleanup loop removes the dump
    at its first turn and finds it missing at the others. *)
Theorem threaded_import_removes_dump (E : Engine) (path prefix : string)
    (n : Z) (schedule : list actor) (w w' : world E) (rs : list outcome)
    (content : string) :
  0 < n ->
  files (fs w) !! path = Some content ->
  path ∉ protected (fs w) ->
  threaded_import path prefix n schedule w = Some (rs, w') ->
  split_dump_file path n = repeat path (Z.to_nat n) /\
  files (fs w') !! path = None /\
  exists before,
    trace w' = before ++ EvRemove path None
                 :: repeat (EvRemove path (Some (no_such_file path)))
                           (Z.to_nat n - 1).
Proof.
  intros Hn Hfile Hfree Hret. split; [reflexivity|].
  apply threaded_import_returned in Hret
    as (p & order & _ & [Hch Hpc Hth Hnames Hnd Hord Hw] & Hp & Hrs & Hsh).
  rewrite Hp in Hw. destruct Hw as (w_pre & Hfs & Hshared).
  rewrite Hsh, Hch in Hshared. subst w'.
  destruct (Z.to_nat n) as [|k] eqn:Hk; [lia|].
  rewrite <- Hfs in Hfile, Hfree.
  destruct (cleanup_present path content k w_pre Hfile Hfree) as [Hgone Htr].
  split; [exact Hgone|]. exists (trace w_pre).
  rewrite Htr. replace (S k - 1)%nat with k by lia. reflexivity.
Qed.

Lemma threaded_import_removes_dump_witness :
  files (fs (world_after (threaded_import "dump.sql" "copy" 2 interleaved_schedule
                            one_statement_world) one_statement_world))
    !! "dump.sql" = None.
Proof.
  refine (proj1 (proj2 (threaded_import_removes_dump (Mock.engine one_statement_script) "dump.sql" "copy" 2
            interleaved_schedule one_statement_world _
            [Outcome "copy_thread_1" true "Dump imported successfully" (Some 0);
             Outcome "copy_thread_0" true "Dump imported successfully" (Some 0)]
            "CREATE TABLE t (a INT)" _ _ _ _))).
  - lia.
  - vm_compute. reflexivity.
  - vm_compute. set_solver.
  - apply returned_result. vm_compute. reflexivity.
Defined.

(** C8 on the code: with two workers and a dump of one statement, both
    chunks are the dump itself, and the statement is replayed twice, once
    in the database of each worker. *)
Theorem threaded_import_replays_dump_per_worker :
  split_dump_file "dump.sql" 2 = ["dump.sql"; "dump.sql"] /\
  (executed ∘ trace ∘ snd) <$>
    threaded_import "dump.sql" "copy" 2 (sequential_schedule 2) one_statement_world
  = Some [ "CREATE DATABASE IF NOT EXISTS copy_thread_0"; "USE copy_thread_0";
           "CREATE TABLE t (a INT)";
           "CREATE DATABASE IF NOT EXISTS copy_thread_1"; "USE copy_thread_1";
           "CREATE TABLE t (a INT)" ].
Proof. split; vm_compute; reflexivity. Qed.

(** ** The round trip *)

Section Cutting.







End Cutting.

Section Literals.





End Literals.

Section Blocks.

















End Blocks.

Section Honoured.

Context {E : Engine}
  (dbs : server E -> gmap string database) (current : server E -> string).














End Honoured.

Section Determined.

Context {E : Engine}.

Lemma first_columns_functional (rws : list (list value)) (names names' : list value) :
  Forall2 (fun row name => head row = Some name) rws names ->
  Forall2 (fun row name => head row = Some name) rws names' ->
  names = names'.
Proof.
  intros H. revert names'. induction H as [|row name rws names Hrow _ IH];
    intros names' H'; inversion H'; subst; [reflexivity|].
  f_equal; [congruence|]. apply IH. assumption.
Qed.

Lemma reports_functional (names : list value) (s s1 s2 : server E)
    (T1 T2 : list table) :
  reports E names s T1 s1 -> reports E names s T2 s2 -> T1 = T2 /\ s1 = s2.
Proof.
  intros H. revert T2 s2.
  induction H as [s|v names s rs1 s1' row others create rs2 s2' T s3
                    Hq1 Hrows Hrow Hq2 _ IH];
    intros T2 s2 H'; inversion H'; subst; [auto|].
  repeat match goal with
         | H1 : ?x = _, H2 : ?x = _ |- _ => rewrite H1 in H2; inversion H2; subst; clear H2
         end.
  match goal with H : reports E names _ _ _ |- _ => apply IH in H as [-> ->] end.
  auto.
Qed.

(** What [export_dump] saw is determined by the engine. *)
Lemma export_saw_functional (db_name : option string) (w : world E)
    (T T' : list table) (s s' : server E) :
  export_saw E db_name w T s -> export_saw E db_name w T' s' -> T = T' /\ s = s'.
Proof.
  intros (w1 & w2 & rs & s3 & names & Hc & Hu & Hq & HF & Hrep)
         (w1' & w2' & rs' & s3' & names' & Hc' & Hu' & Hq' & HF' & Hrep').
  rewrite Hc in Hc'. injection Hc' as <-.
  rewrite Hu in Hu'. injection Hu' as <-.
  rewrite Hq in Hq'. injection Hq' as <- <-.
  pose proof (first_columns_functional _ _ _ HF HF') as <-.
  eapply reports_functional; eassumption.
Qed.


End Determined.


(** ** The scripted engine honours its script *)

Section Scripted.

Variable script : list (string * action).




End Scripted.

Lemma query_tables_reports (E : Engine) (names : list value) :
  forall (s s' : server E) (T : list table),
    query_tables E names s = Some (T, s') -> reports E names s T s'.
Proof.
  induction names as [|v names IH]; intros s s' T H.
  - injection H as <- <-. constructor.
  - cbn [query_tables] in H.
    destruct (execute E ("SHOW CREATE TABLE `" +:+ py_str v +:+ "`") s)
      as [[m|rs1] s1] eqn:Hq1; [discriminate|].
    destruct (rows rs1) as [|row others] eqn:Hrows; [discriminate|].
    destruct (row !! 1%nat) as [create|] eqn:Hrow; [|discriminate].
    destruct (execute E ("SELECT * FROM `" +:+ py_str v +:+ "`") s1)
      as [[m|rs2] s2] eqn:Hq2; [discriminate|].
    destruct (query_tables E names s2) as [[T' s3]|] eqn:Hrest; [|discriminate].
    injection H as <- <-. econstructor; eauto.
Qed.

Lemma mock_export_saw (script : list (string * action))
    (w : world (Mock.engine script)) (rs : resultset) (names : list value)
    (T : list table) (s3 s : Mock.state) :
  fst (get_db_connection w) = Ok Connection ->
  Mock.execute script "SHOW TABLES" (srv (snd (get_db_connection w))) = (inr rs, s3) ->
  Forall2 (fun row name => head row = Some name) (rows rs) names ->
  query_tables (Mock.engine script) names s3 = Some (T, s) ->
  export_saw (Mock.engine script) None w T s.
Proof.
  intros Hconn Hq HF Hrep.
  exists (snd (get_db_connection w)), (snd (get_db_connection w)), rs, s3, names.
  split; [apply run_result; exact Hconn|]. split; [reflexivity|].
  split; [exact Hq|]. split; [exact HF|].
  apply query_tables_reports. exact Hrep.
Qed.




(** * Further properties *)

(** ** Every connection that is opened is closed *)

Section Inner.

Context {E : Engine}.

Lemma adds_inner_ret {A} (a : A) : adds_inner (E := E) (ret a).
Proof. intros w. exists []. cbn. rewrite app_nil_r. auto. Qed.

Lemma adds_inner_raise {A} (e : exn) : adds_inner (E := E) (A := A) (raise e).
Proof. intros w. exists []. cbn. rewrite app_nil_r. auto. Qed.

Lemma adds_inner_bind {A B} (m : M E A) (k : A -> M E B) :
  adds_inner m -> (forall a, adds_inner (k a)) -> adds_inner (bind m k).
Proof.
  intros Hm Hk w. unfold bind. destruct (Hm w) as (a1 & H1 & F1).
  destruct (m w) as [[a|e] w1]; cbn [snd] in *; [|eauto].
  destruct (Hk a w1) as (a2 & H2 & F2).
  exists (a1 ++ a2). rewrite H2, H1, <- app_assoc. split; [reflexivity|].
  apply Forall_app; auto.
Qed.

Lemma adds_inner_try_except {A} (m : M E A) (h : exn -> M E A) :
  adds_inner m -> (forall e, adds_inner (h e)) -> adds_inner (try_except m h).
Proof.
  intros Hm Hh w. unfold try_except. destruct (Hm w) as (a1 & H1 & F1).
  destruct (m w) as [[a|e] w1]; cbn [snd] in *; [eauto|].
  destruct (Hh e w1) as (a2 & H2 & F2).
  exists (a1 ++ a2). rewrite H2, H1, <- app_assoc. split; [reflexivity|].
  apply Forall_app; auto.
Qed.

Lemma adds_inner_for_each {A} (xs : list A) (body : A -> M E unit) :
  (forall x, adds_inner (body x)) -> adds_inner (for_each xs body).
Proof.
  intros Hb. induction xs as [|x xs IH]; [apply adds_inner_ret|].
  cbn [for_each]. apply adds_inner_bind; auto.
Qed.

Lemma adds_inner_comprehension {A B} (xs : list A) (f : A -> M E B) :
  (forall x, adds_inner (f x)) -> adds_inner (comprehension xs f).
Proof.
  intros Hf. induction xs as [|x xs IH]; [apply adds_inner_ret|].
  cbn [comprehension]. apply adds_inner_bind; [auto|]. intros y.
  apply adds_inner_bind; [auto|]. intros ys. apply adds_inner_ret.
Qed.

Lemma adds_inner_silent {A} (m : M E A) :
  (forall w, trace (snd (m w)) = trace w) -> adds_inner m.
Proof. intros H w. exists []. rewrite H, app_nil_r. auto. Qed.

Lemma adds_inner_one {A} (m : M E A) :
  (forall w, exists ev, inner_event ev /\ trace (snd (m w)) = trace w ++ [ev]) ->
  adds_inner m.
Proof. intros H w. destruct (H w) as (ev & Hev & Htr). exists [ev]. auto. Qed.

Lemma adds_inner_cur_execute (sql : string) : adds_inner (cur_execute (E := E) Cursor sql).
Proof.
  apply adds_inner_one. intros w. unfold cur_execute.
  destruct (execute E sql (srv w)) as [[m|rs] s]; eexists; split; cbn; eauto; exact I.
Qed.

Lemma adds_inner_conn_commit : adds_inner (conn_commit (E := E) Connection).
Proof.
  apply adds_inner_one. intros w. unfold conn_commit.
  destruct (commit E (srv w)) as [[m|] s]; eexists; split; cbn; eauto; exact I.
Qed.

Lemma adds_inner_print (line : string) : adds_inner (print (E := E) line).
Proof. apply adds_inner_one. intros w. eexists. split; [|reflexivity]. exact I. Qed.

Lemma adds_inner_time_time : adds_inner (time_time (E := E)).
Proof. apply adds_inner_silent. reflexivity. Qed.

Lemma adds_inner_datetime_now : adds_inner (datetime_now (E := E)).
Proof. apply adds_inner_silent. reflexivity. Qed.

Lemma adds_inner_read_text (path : string) : adds_inner (read_text (E := E) path).
Proof.
  apply adds_inner_silent. intros w. rewrite read_text_file.
  destruct (file_text (fs w) path); reflexivity.
Qed.

Lemma adds_inner_open_w (path : string) : adds_inner (open_w (E := E) path).
Proof.
  apply adds_inner_silent. intros w. unfold open_w.
  destruct (decide (path ∈ protected (fs w))); reflexivity.
Qed.

Lemma adds_inner_write (path text : string) : adds_inner (write (E := E) path text).
Proof. apply adds_inner_silent. reflexivity. Qed.

Lemma adds_inner_subscript (row : list value) (i : nat) :
  adds_inner (subscript (E := E) row i).
Proof.
  unfold subscript. destruct (row !! i); [apply adds_inner_ret|apply adds_inner_raise].
Qed.

Lemma adds_inner_replay_command (command : string) :
  adds_inner (replay_command (E := E) Cursor command).
Proof.
  unfold replay_command. destruct (PyStr.strip_truthy command); [|apply adds_inner_ret].
  unfold try_except_mariadb. apply adds_inner_try_except.
  - apply adds_inner_bind; [apply adds_inner_cur_execute|]. intros _. apply adds_inner_ret.
  - intros e. destruct (is_mariadb e); [apply adds_inner_print|apply adds_inner_raise].
Qed.

Lemma adds_inner_create_and_use (name : option string) :
  adds_inner (create_and_use (E := E) Cursor name).
Proof.
  unfold create_and_use. destruct (given name); [|apply adds_inner_ret].
  apply adds_inner_bind; [apply adds_inner_cur_execute|]. intros _.
  apply adds_inner_bind; [apply adds_inner_cur_execute|]. intros _.
  apply adds_inner_ret.
Qed.

Lemma adds_inner_use_database (name : option string) :
  adds_inner (use_database (E := E) Cursor name).
Proof.
  unfold use_database. destruct (given name); [|apply adds_inner_ret].
  apply adds_inner_bind; [apply adds_inner_cur_execute|]. intros _.
  apply adds_inner_ret.
Qed.

Lemma adds_inner_import_dump_try (path : string) (name : option string) :
  adds_inner (import_dump_try (E := E) path name Connection).
Proof.
  unfold import_dump_try. apply adds_inner_bind; [apply adds_inner_ret|]. intros [].
  apply adds_inner_bind; [apply adds_inner_create_and_use|]. intros _.
  apply adds_inner_bind; [apply adds_inner_read_text|]. intros text.
  apply adds_inner_bind;
    [apply adds_inner_for_each; intros c; apply adds_inner_replay_command|].
  intros _. apply adds_inner_bind; [apply adds_inner_conn_commit|].
  intros _. apply adds_inner_ret.
Qed.

Lemma adds_inner_write_row (f : string) (n : Z) (ir : Z * list value) :
  adds_inner (write_row (E := E) f n ir).
Proof.
  destruct ir as [i row]. unfold write_row.
  apply adds_inner_bind; [apply adds_inner_write|]. intros _. apply adds_inner_write.
Qed.

Lemma adds_inner_export_table (f : string) (v : value) :
  adds_inner (export_table (E := E) Cursor f v).
Proof.
  unfold export_table.
  apply adds_inner_bind; [apply adds_inner_write|]. intros _.
  apply adds_inner_bind; [apply adds_inner_write|]. intros _.
  apply adds_inner_bind; [apply adds_inner_cur_execute|]. intros rs.
  apply adds_inner_bind.
  { unfold fetchone_subscript. destruct (rows rs);
      [apply adds_inner_raise|apply adds_inner_subscript]. }
  intros create.
  apply adds_inner_bind; [apply adds_inner_write|]. intros _.
  apply adds_inner_bind; [apply adds_inner_write|]. intros _.
  apply adds_inner_bind; [apply adds_inner_cur_execute|]. intros rs2.
  destruct (rows rs2) as [|r rws]; [apply adds_inner_ret|].
  apply adds_inner_bind; [apply adds_inner_write|]. intros _.
  apply adds_inner_for_each. intros ir. apply adds_inner_write_row.
Qed.

Lemma adds_inner_export_dump_try (out : string) (name : option string) :
  adds_inner (export_dump_try (E := E) out name Connection).
Proof.
  unfold export_dump_try. apply adds_inner_bind; [apply adds_inner_ret|]. intros [].
  apply adds_inner_bind; [apply adds_inner_use_database|]. intros _.
  apply adds_inner_bind; [apply adds_inner_cur_execute|]. intros rs.
  apply adds_inner_bind;
    [apply adds_inner_comprehension; intros row; apply adds_inner_subscript|].
  intros tables.
  apply adds_inner_bind; [apply adds_inner_open_w|]. intros _.
  apply adds_inner_bind; [apply adds_inner_datetime_now|]. intros stamp.
  apply adds_inner_bind; [apply adds_inner_write|]. intros _.
  apply adds_inner_bind; [apply adds_inner_write|]. intros _.
  apply adds_inner_bind;
    [apply adds_inner_for_each; intros v; apply adds_inner_export_table|].
  intros _. apply adds_inner_ret.
Qed.

Lemma adds_inner_check_data_consistency_try :
  adds_inner (check_data_consistency_try (E := E) Connection).
Proof.
  unfold check_data_consistency_try.
  apply adds_inner_bind; [apply adds_inner_ret|]. intros [].
  apply adds_inner_bind; [apply adds_inner_time_time|]. intros t0.
  apply adds_inner_bind; [apply adds_inner_cur_execute|]. intros rs.
  apply adds_inner_bind; [apply adds_inner_time_time|]. intros t1.
  apply adds_inner_bind; [apply adds_inner_time_time|]. intros t2.
  apply adds_inner_bind; [apply adds_inner_cur_execute|]. intros rs2.
  apply adds_inner_bind; [apply adds_inner_time_time|]. intros t3.
  apply adds_inner_ret.
Qed.

(** The shared idiom, seen in the trace: after the failed attempts, either
    no connection and nothing else, or one connection, the events of the
    suite, and the close, last. *)
Lemma with_connection_lifecycle {A} (rest : connection -> M E A)
    (recover : exn -> A) (w : world E) :
  adds_inner (rest Connection) ->
  exists causes inner,
    Forall inner_event inner /\
    trace (snd (with_connection rest (fun e => ret (recover e)) w))
      = trace w ++ lifecycle causes inner.
Proof.
  intros Hrest. unfold with_connection, get_db_connection, lifecycle.
  destruct (connect_loop_spec (Z.to_nat MAX_RETRIES) 0 w)
    as (causes & Hlen & _ & _ & Hres).
  change (Z.to_nat MAX_RETRIES) with 3%nat in *. change MAX_RETRIES with 3.
  destruct (connect_loop 3 0 w) as [r w1]. cbn [fst snd] in Hres.
  destruct (decide (length causes < 3)%nat) as [Hlt|Hge]; destruct Hres as [-> Htr].
  - destruct (Hrest w1) as (inner & Hinner & HF).
    exists causes, inner. split; [exact HF|].
    destruct (Z.ltb_spec (Z.of_nat (length causes)) 3); [|lia].
    unfold try_finally, try_except, conn_close, ret.
    destruct (rest Connection w1) as [[a|e] w2]; cbn [snd] in *; cbn;
      rewrite Hinner, Htr, <- !app_assoc; reflexivity.
  - exists causes, []. split; [constructor|].
    destruct (Z.ltb_spec (Z.of_nat (length causes)) 3); [lia|].
    cbn. rewrite Htr, app_nil_r. reflexivity.
Qed.

End Inner.

(** X1.  Each database operation ([import_dump], [export_dump],
    [check_data_consistency]) leaves in the trace the failed connection
    attempts and then either nothing more (no connection was obtained: no
    statement is executed, nothing is committed or closed), or exactly one
    successful connection, the events of the operation, none of which
    opens or closes a connection, and one close, which comes last. *)
Theorem operations_close_their_connection (E : Engine) (w : world E) :
  (forall path new_db_name, exists causes inner,
     Forall inner_event inner /\
     trace (snd (import_dump path new_db_name w)) = trace w ++ lifecycle causes inner) /\
  (forall path db_name, exists causes inner,
     Forall inner_event inner /\
     trace (snd (export_dump path db_name w)) = trace w ++ lifecycle causes inner) /\
  (exists causes inner,
     Forall inner_event inner /\
     trace (snd (check_data_consistency w)) = trace w ++ lifecycle causes inner).
Proof.
  split; [|split].
  - intros path name.
    apply (with_connection_lifecycle _
             (fun e => (false, "Error importing dump: " +:+ exn_msg e))).
    apply adds_inner_import_dump_try.
  - intros path name.
    apply (with_connection_lifecycle _
             (fun e => (false, "Error exporting dump: " +:+ exn_msg e))).
    apply adds_inner_export_dump_try.
  - apply (with_connection_lifecycle _
             (fun e => (false, "Error during consistency checks: " +:+ exn_msg e,
                        (∅ : gmap string check_entry)))).
    apply adds_inner_check_data_consistency_try.
Qed.

(** ** Failures before the work starts *)

Section EarlyFailures.

Context {E : Engine}.

Lemma with_connection_refused {A} (rest : connection -> M E A)
    (handler : exn -> M E A) (w : world E) (e : exn) :
  fst (get_db_connection w) = Raise e ->
  with_connection rest handler w = handler connect_failed (snd (get_db_connection w)).
Proof.
  intros Hraise. unfold with_connection.
  destruct (get_db_connection_result w) as [H|H]; [congruence|].
  destruct (get_db_connection w) as [r w1]. cbn [fst snd] in *. subst r.
  injection H as ->. reflexivity.
Qed.

Lemma keeps_fs_with_connection {A} (rest : connection -> M E A)
    (handler : exn -> M E A) :
  keeps_fs (rest Connection) -> (forall e, keeps_fs (handler e)) ->
  keeps_fs (with_connection rest handler).
Proof.
  intros Hrest Hh w. unfold with_connection.
  pose proof (keeps_fs_get_db_connection w) as Hc.
  destruct (get_db_connection w) as [[[]|e] w1]; cbn [snd] in Hc.
  - rewrite <- Hc. apply keeps_fs_try_finally; [|intros w'; reflexivity].
    apply keeps_fs_try_except; assumption.
  - rewrite <- Hc. apply Hh.
Qed.

Lemma keeps_fs_check_data_consistency : keeps_fs (check_data_consistency (E := E)).
Proof.
  apply keeps_fs_with_connection; [|intros e w; reflexivity].
  unfold check_data_consistency_try.
  apply keeps_fs_bind; [apply keeps_fs_ret|]. intros [].
  apply keeps_fs_bind; [intros w; reflexivity|]. intros t0.
  apply keeps_fs_bind; [apply keeps_fs_cur_execute|]. intros rs.
  apply keeps_fs_bind; [intros w; reflexivity|]. intros t1.
  apply keeps_fs_bind; [intros w; reflexivity|]. intros t2.
  apply keeps_fs_bind; [apply keeps_fs_cur_execute|]. intros rs2.
  apply keeps_fs_bind; [intros w; reflexivity|]. intros t3.
  apply keeps_fs_ret.
Qed.

End EarlyFailures.

(** X2.  When no connection can be obtained, each database operation
    returns its failure pair with the fixed message of
    [get_db_connection], and the world is the one the connection attempts
    left: no statement was executed, nothing was committed or closed, no
    file was read or written. *)
Theorem operations_report_connection_failure (E : Engine) (w : world E) (e : exn) :
  fst (get_db_connection w) = Raise e ->
  (forall path new_db_name,
     import_dump path new_db_name w
       = (Ok (false, "Error importing dump: Failed to connect to database after multiple attempts"),
          snd (get_db_connection w))) /\
  (forall path db_name,
     export_dump path db_name w
       = (Ok (false, "Error exporting dump: Failed to connect to database after multiple attempts"),
          snd (get_db_connection w))) /\
  check_data_consistency w
    = (Ok (false, "Error during consistency checks: Failed to connect to database after multiple attempts", ∅),
       snd (get_db_connection w)) /\
  fs (snd (get_db_connection w)) = fs w /\
  executed (trace (snd (get_db_connection w))) = executed (trace w).
Proof.
  intros Hraise. repeat split.
  - intros path name. unfold import_dump.
    rewrite (with_connection_refused _ _ w e Hraise). reflexivity.
  - intros path name. unfold export_dump.
    rewrite (with_connection_refused _ _ w e Hraise). reflexivity.
  - unfold check_data_consistency.
    rewrite (with_connection_refused _ _ w e Hraise). reflexivity.
  - apply get_db_connection_frame.
  - unfold get_db_connection in *.
    destruct (connect_loop_spec (Z.to_nat MAX_RETRIES) 0 w)
      as (causes & _ & _ & _ & Hres).
    destruct (decide _); destruct Hres as [Hr Htr]; [congruence|].
    rewrite Htr, executed_app.
    assert (Hnone : forall i, executed (failed_attempts i causes) = []).
    { clear. induction causes as [|c causes IH]; intros i; [reflexivity|].
      cbn [failed_attempts]. rewrite executed_app, IH. reflexivity. }
    rewrite Hnone, app_nil_r. reflexivity.
Qed.

Lemma operations_report_connection_failure_witness :
  import_dump "dump.sql" (Some "copy") refusing_world
    = (Ok (false, "Error importing dump: Failed to connect to database after multiple attempts"),
       snd (get_db_connection refusing_world)).
Proof.
  apply (proj1 (operations_report_connection_failure (Mock.engine []) refusing_world
                  connect_failed ltac:(vm_compute; reflexivity))).
Defined.

(** X3.  [import_dump] and [check_data_consistency] never create, change
    or remove a file, whatever the engine answers and whatever result
    they return. *)
Theorem import_and_checks_keep_files (E : Engine) (w : world E) :
  (forall path new_db_name, fs (snd (import_dump path new_db_name w)) = fs w) /\
  fs (snd (check_data_consistency w)) = fs w.
Proof.
  split.
  - intros path name. apply keeps_fs_import_dump.
  - apply keeps_fs_check_data_consistency.
Qed.



(** X5.  A refusal of [CREATE DATABASE] or of [USE] is not absorbed like
    a refusal of a statement of the dump: [import_dump] returns the
    failure pair with the engine's message; the dump file is not read,
    none of its statements is executed, nothing is committed, and the
    connection is closed. *)
Theorem import_dump_database_refused (E : Engine) (path : string)
    (new_db_name : option string) (w w1 w2 : world E) (e : exn) :
  get_db_connection w = (Ok Connection, w1) ->
  create_and_use Cursor new_db_name w1 = (Raise e, w2) ->
  import_dump path new_db_name w
    = (Ok (false, "Error importing dump: " +:+ exn_msg e), snd (conn_close Connection w2)) /\
  (forall n, given new_db_name = Some n ->
     executed (trace w2) = executed (trace w1) ++ ["CREATE DATABASE IF NOT EXISTS " +:+ n]
     \/ executed (trace w2)
        = executed (trace w1) ++ ["CREATE DATABASE IF NOT EXISTS " +:+ n; "USE " +:+ n]).
Proof.
  intros Hconn Hcreate. split.
  - unfold import_dump, with_connection. rewrite Hconn.
    unfold import_dump_try, conn_cursor. unfold_M. rewrite Hcreate.
    unfold import_dump_except, conn_close. unfold_M. reflexivity.
  - intros n Hn. unfold create_and_use in Hcreate. rewrite Hn in Hcreate.
    unfold_M. unfold cur_execute in Hcreate.
    destruct (execute E ("CREATE DATABASE IF NOT EXISTS " +:+ n) (srv w1)) as [[m|rs] s].
    + left. injection Hcreate as _ <-. cbn. rewrite executed_app. reflexivity.
    + right. cbn [srv with_srv emit] in Hcreate.
      destruct (execute E ("USE " +:+ n) s) as [[m|rs'] s'].
      * injection Hcreate as _ <-. cbn. rewrite !executed_app, <- app_assoc. reflexivity.
      * discriminate.
Qed.

Lemma import_dump_database_refused_witness :
  import_dump "dump.sql" (Some "copy") (denying_world {[ "dump.sql" := small_dump ]})
    = (Ok (false, "Error importing dump: Access denied"),
       snd (conn_close Connection
         (snd (create_and_use Cursor (Some "copy")
                 (snd (get_db_connection (denying_world {[ "dump.sql" := small_dump ]}))))))).
Proof.
  apply (proj1 (import_dump_database_refused denying_engine "dump.sql" (Some "copy")
                  (denying_world {[ "dump.sql" := small_dump ]})
                  (snd (get_db_connection (denying_world {[ "dump.sql" := small_dump ]})))
                  (snd (create_and_use Cursor (Some "copy")
                     (snd (get_db_connection (denying_world {[ "dump.sql" := small_dump ]})))))
                  (mariadb_error "Access denied") eq_refl eq_refl)).
Defined.

(** ** export_dump: the files it touches *)

Section WritesOnly.

Context {E : Engine}.

Lemma writes_only_keeps {A} (out : string) (m : M E A) :
  keeps_fs m -> writes_only out m.
Proof. intros H w. rewrite (H w). auto. Qed.

Lemma writes_only_bind {A B} (out : string) (m : M E A) (k : A -> M E B) :
  writes_only out m -> (forall a, writes_only out (k a)) -> writes_only out (bind m k).
Proof.
  intros Hm Hk w. unfold bind. destruct (Hm w) as [Hp Hf].
  destruct (m w) as [[a|e] w1]; cbn [snd] in *; [|auto].
  destruct (Hk a w1) as [Hp' Hf']. split; [congruence|].
  intros p Hne. rewrite Hf', Hf by assumption. reflexivity.
Qed.

Lemma writes_only_try_except {A} (out : string) (m : M E A) (h : exn -> M E A) :
  writes_only out m -> (forall e, writes_only out (h e)) ->
  writes_only out (try_except m h).
Proof.
  intros Hm Hh w. unfold try_except. destruct (Hm w) as [Hp Hf].
  destruct (m w) as [[a|e] w1]; cbn [snd] in *; [auto|].
  destruct (Hh e w1) as [Hp' Hf']. split; [congruence|].
  intros p Hne. rewrite Hf', Hf by assumption. reflexivity.
Qed.

Lemma writes_only_for_each {A} (out : string) (xs : list A) (body : A -> M E unit) :
  (forall x, writes_only out (body x)) -> writes_only out (for_each xs body).
Proof.
  intros Hb. induction xs as [|x xs IH];
    [apply writes_only_keeps, keeps_fs_ret|].
  cbn [for_each]. apply writes_only_bind; auto.
Qed.

Lemma writes_only_write (out text : string) : writes_only out (write (E := E) out text).
Proof.
  intros w. split; [reflexivity|]. intros p Hne. cbn.
  apply lookup_insert_ne. congruence.
Qed.

Lemma writes_only_open_w (out : string) : writes_only out (open_w (E := E) out).
Proof.
  intros w. unfold open_w. destruct (decide (out ∈ protected (fs w))); [auto|].
  split; [reflexivity|]. intros p Hne. cbn. apply lookup_insert_ne. congruence.
Qed.

Lemma keeps_fs_subscript (row : list value) (i : nat) :
  keeps_fs (subscript (E := E) row i).
Proof. intros w. unfold subscript. destruct (row !! i); reflexivity. Qed.

Lemma keeps_fs_comprehension {A B} (xs : list A) (f : A -> M E B) :
  (forall x, keeps_fs (f x)) -> keeps_fs (comprehension xs f).
Proof.
  intros Hf. induction xs as [|x xs IH]; [apply keeps_fs_ret|].
  cbn [comprehension]. apply keeps_fs_bind; [auto|]. intros y.
  apply keeps_fs_bind; [auto|]. intros ys. apply keeps_fs_ret.
Qed.

Lemma writes_only_export_table (out : string) (v : value) :
  writes_only out (export_table (E := E) Cursor out v).
Proof.
  unfold export_table.
  apply writes_only_bind; [apply writes_only_write|]. intros _.
  apply writes_only_bind; [apply writes_only_write|]. intros _.
  apply writes_only_bind; [apply writes_only_keeps, keeps_fs_cur_execute|]. intros rs.
  apply writes_only_bind.
  { apply writes_only_keeps. unfold fetchone_subscript.
    destruct (rows rs); [apply keeps_fs_raise|apply keeps_fs_subscript]. }
  intros create.
  apply writes_only_bind; [apply writes_only_write|]. intros _.
  apply writes_only_bind; [apply writes_only_write|]. intros _.
  apply writes_only_bind; [apply writes_only_keeps, keeps_fs_cur_execute|]. intros rs2.
  destruct (rows rs2) as [|r rws]; [apply writes_only_keeps, keeps_fs_ret|].
  apply writes_only_bind; [apply writes_only_write|]. intros _.
  apply writes_only_for_each. intros [i row]. unfold write_row.
  apply writes_only_bind; [apply writes_only_write|]. intros _.
  apply writes_only_write.
Qed.

Lemma writes_only_export_dump_try (out : string) (name : option string) :
  writes_only out (export_dump_try (E := E) out name Connection).
Proof.
  unfold export_dump_try.
  apply writes_only_bind; [apply writes_only_keeps, keeps_fs_ret|]. intros [].
  apply writes_only_bind;
    [apply writes_only_keeps; intros w; apply use_database_frame|]. intros _.
  apply writes_only_bind; [apply writes_only_keeps, keeps_fs_cur_execute|]. intros rs.
  apply writes_only_bind.
  { apply writes_only_keeps, keeps_fs_comprehension. intros row.
    apply keeps_fs_subscript. }
  intros tables.
  apply writes_only_bind; [apply writes_only_open_w|]. intros _.
  apply writes_only_bind; [apply writes_only_keeps; intros w; reflexivity|].
  intros stamp.
  apply writes_only_bind; [apply writes_only_write|]. intros _.
  apply writes_only_bind; [apply writes_only_write|]. intros _.
  apply writes_only_bind;
    [apply writes_only_for_each; intros v; apply writes_only_export_table|].
  intros _. apply writes_only_keeps, keeps_fs_ret.
Qed.

Lemma writes_only_export_dump (out : string) (db_name : option string) :
  writes_only out (export_dump (E := E) out db_name).
Proof.
  intros w. unfold export_dump, with_connection.
  pose proof (keeps_fs_get_db_connection w) as Hc.
  destruct (get_db_connection w) as [[[]|e] w1]; cbn [snd] in Hc.
  - rewrite <- Hc.
    assert (H : writes_only (E := E) out
                  (try_except (export_dump_try out db_name Connection)
                              export_dump_except)).
    { apply writes_only_try_except; [apply writes_only_export_dump_try|].
      intros e. apply writes_only_keeps. intros w'. reflexivity. }
    unfold try_finally. destruct (H w1) as [Hp Hf].
    destruct (try_except _ _ w1) as [r w2]. cbn [snd] in *.
    unfold conn_close. cbn. auto.
  - cbn. rewrite Hc. auto.
Qed.

End WritesOnly.

(** X6.  [export_dump] creates or changes no file other than the one at
    [output_file_path], removes none, and leaves the permissions alone,
    whatever the engine answers and whatever result it returns. *)
Theorem export_dump_writes_one_file (E : Engine) (out : string)
    (db_name : option string) (w : world E) :
  protected (fs (snd (export_dump out db_name w))) = protected (fs w) /\
  forall p, p <> out ->
    files (fs (snd (export_dump out db_name w))) !! p = files (fs w) !! p.
Proof. apply writes_only_export_dump. Qed.

(** ** export_dump: when it succeeds *)

Section ExportRuns.

Context {E : Engine}.

Lemma bind_runs {A B} (m : M E A) (k : A -> M E B) (w w1 : world E) (a : A) :
  m w = (Ok a, w1) -> bind m k w = k a w1.
Proof. intros H. unfold bind. rewrite H. reflexivity. Qed.

Lemma cur_execute_runs (sql : string) (w : world E) (rs : resultset) (s : server E) :
  execute E sql (srv w) = (inr rs, s) ->
  exists w', cur_execute Cursor sql w = (Ok rs, w') /\ srv w' = s /\ fs w' = fs w.
Proof. intros H. unfold cur_execute. rewrite H. eauto. Qed.

Lemma export_table_runs (f : string) (v : value) (old : string) (w : world E)
    (rs1 rs2 : resultset) (s1 s2 : server E) (row : list value)
    (others : list (list value)) (create : value) :
  files (fs w) !! f = Some old ->
  execute E ("SHOW CREATE TABLE `" +:+ py_str v +:+ "`") (srv w) = (inr rs1, s1) ->
  rows rs1 = row :: others ->
  row !! 1%nat = Some create ->
  execute E ("SELECT * FROM `" +:+ py_str v +:+ "`") s1 = (inr rs2, s2) ->
  exists w', export_table Cursor f v w = (Ok tt, w') /\ srv w' = s2.
Proof.
  intros Hold Hq1 Hrows Hrow Hq2.
  unfold export_table. unfold mbind, M_bind, mret, M_ret.
  destruct (write_spec f (nl +:+ "-- Table structure for table `" +:+ py_str v
                          +:+ "`" +:+ nl) old w Hold)
    as (w1 & Hw1 & Hc1 & Hs1 & _).
  rewrite (bind_runs _ _ _ _ _ Hw1).
  destruct (write_spec f ("DROP TABLE IF EXISTS `" +:+ py_str v +:+ "`;" +:+ nl)
              _ w1 Hc1) as (w2 & Hw2 & Hc2 & Hs2 & _).
  rewrite (bind_runs _ _ _ _ _ Hw2).
  rewrite <- Hs1, <- Hs2 in Hq1.
  destruct (cur_execute_runs _ w2 rs1 s1 Hq1) as (w3 & Hw3 & Hs3 & Hf3).
  rewrite (bind_runs _ _ _ _ _ Hw3).
  assert (Hw4 : fetchone_subscript rs1 1 w3 = (Ok create, w3)).
  { unfold fetchone_subscript, subscript. rewrite Hrows, Hrow. reflexivity. }
  rewrite (bind_runs _ _ _ _ _ Hw4).
  rewrite <- Hf3 in Hc2.
  destruct (write_spec f (py_str create +:+ ";" +:+ nl +:+ nl) _ w3 Hc2)
    as (w5 & Hw5 & Hc5 & Hs5 & _).
  rewrite (bind_runs _ _ _ _ _ Hw5).
  destruct (write_spec f ("-- Dumping data for table `" +:+ py_str v +:+ "`" +:+ nl)
              _ w5 Hc5) as (w6 & Hw6 & Hc6 & Hs6 & _).
  rewrite (bind_runs _ _ _ _ _ Hw6).
  rewrite <- Hs3, <- Hs5, <- Hs6 in Hq2.
  destruct (cur_execute_runs _ w6 rs2 s2 Hq2) as (w7 & Hw7 & Hs7 & Hf7).
  rewrite (bind_runs _ _ _ _ _ Hw7).
  destruct (rows rs2) as [|r rws] eqn:Hrows2.
  - exists w7. auto.
  - rewrite <- Hf7 in Hc6.
    destruct (write_spec f ("INSERT INTO `" +:+ py_str v +:+ "` (`"
                            +:+ PyStr.join "`,`" (description rs2)
                            +:+ "`) VALUES" +:+ nl) _ w7 Hc6)
      as (w8 & Hw8 & Hc8 & Hs8 & _).
    rewrite (bind_runs _ _ _ _ _ Hw8).
    destruct (rows_loop_spec f (r :: rws) 0 _ w8 ltac:(discriminate) Hc8)
      as (w9 & Hw9 & _ & Hs9 & _).
    rewrite Z.add_0_l in Hw9. unfold enumerate. rewrite Hw9.
    exists w9. split; [reflexivity|]. congruence.
Qed.

Lemma tables_loop_runs (f : string) (names : list value) (T : list table)
    (s s' : server E) :
  reports E names s T s' ->
  forall (w : world E) (old : string),
    srv w = s -> files (fs w) !! f = Some old ->
    exists w', for_each names (export_table Cursor f) w = (Ok tt, w').
Proof.
  induction 1 as [s|v names s rs1 s1 row others create rs2 s2 T s3
                    Hq1 Hrows Hrow Hq2 _ IH]; intros w old Hs Hold.
  - eexists. reflexivity.
  - subst s. cbn [for_each]. unfold mbind, M_bind.
    destruct (export_table_runs f v old w rs1 rs2 s1 s2 row others create
                Hold Hq1 Hrows Hrow Hq2) as (w1 & Hw1 & Hs1).
    rewrite (bind_runs _ _ _ _ _ Hw1).
    destruct (export_table_spec f v old w w1 Hold Hw1)
      as (? & ? & ? & ? & ? & ? & _ & _ & _ & _ & Hc1 & _).
    exact (IH w1 _ Hs1 Hc1).
Qed.

Lemma comprehension_runs (rws : list (list value)) (names : list value) (w : world E) :
  Forall2 (fun row name => head row = Some name) rws names ->
  comprehension rws (fun table => subscript table 0) w = (Ok names, w).
Proof.
  induction 1 as [|row name rws names Hrow _ IH]; [reflexivity|].
  cbn [comprehension]. unfold mbind, M_bind, mret, M_ret.
  assert (H1 : subscript (E := E) row 0 w = (Ok name, w)).
  { unfold subscript. destruct row as [|x row]; [discriminate|].
    injection Hrow as ->. reflexivity. }
  rewrite (bind_runs _ _ _ _ _ H1), (bind_runs _ _ _ _ _ IH). reflexivity.
Qed.

Lemma export_dump_try_runs (out : string) (db_name : option string)
    (w1 w2 : world E) (rs : resultset) (s3 s : server E) (names : list value)
    (T : list table) :
  use_database Cursor db_name w1 = (Ok tt, w2) ->
  execute E "SHOW TABLES" (srv w2) = (inr rs, s3) ->
  Forall2 (fun row name => head row = Some name) (rows rs) names ->
  reports E names s3 T s ->
  out ∉ protected (fs w1) ->
  exists w', export_dump_try out db_name Connection w1
             = (Ok (true, "Dump exported successfully"), w').
Proof.
  intros Huse Hq HF Hrep Hfree.
  destruct (use_database_Ok db_name w1 w2 Huse) as [Hf2 _].
  unfold export_dump_try, conn_cursor. unfold mbind, M_bind, mret, M_ret.
  rewrite (bind_runs (ret Cursor) _ w1 w1 Cursor eq_refl).
  rewrite (bind_runs _ _ _ _ _ Huse).
  destruct (cur_execute_runs _ w2 rs s3 Hq) as (w3 & Hw3 & Hs3 & Hf3).
  rewrite (bind_runs _ _ _ _ _ Hw3).
  rewrite (bind_runs _ _ _ _ _ (comprehension_runs _ _ w3 HF)).
  assert (Hopen : exists w4, open_w out w3 = (Ok tt, w4) /\ srv w4 = s3 /\
                             files (fs w4) !! out = Some "").
  { unfold open_w. rewrite decide_False by (rewrite Hf3, Hf2; exact Hfree).
    eexists. split; [reflexivity|]. split; [exact Hs3|]. cbn.
    apply lookup_insert_eq. }
  destruct Hopen as (w4 & Hw4 & Hs4 & Hc4).
  rewrite (bind_runs _ _ _ _ _ Hw4).
  rewrite (bind_runs datetime_now _ w4 w4 (now w4) eq_refl).
  destruct (write_spec out ("-- Database dump generated on " +:+ now w4 +:+ nl)
              _ w4 Hc4) as (w5 & Hw5 & Hc5 & Hs5 & _).
  rewrite (bind_runs _ _ _ _ _ Hw5).
  destruct (write_spec out ("-- Database: " +:+ default DB_CONFIG_database (given db_name)
                            +:+ nl +:+ nl) _ w5 Hc5) as (w6 & Hw6 & Hc6 & Hs6 & _).
  rewrite (bind_runs _ _ _ _ _ Hw6).
  destruct (tables_loop_runs out names T s3 s Hrep w6 _ ltac:(congruence) Hc6)
    as (w7 & Hw7).
  rewrite (bind_runs _ _ _ _ _ Hw7). eexists. reflexivity.
Qed.

End ExportRuns.

(** X7.  [export_dump] succeeds whenever the engine goes along and the
    output path can be written: if the connection opens, the database is
    selected, SHOW TABLES answers, and the engine reports every table it
    listed, then the result is the success pair, the file holds the header
    and the blocks of these tables, and the connection is closed. *)
Theorem export_dump_succeeds (E : Engine) (out : string) (db_name : option string)
    (w : world E) (T : list table) (s : server E) :
  export_saw E db_name w T s ->
  out ∉ protected (fs w) ->
  exists w',
    export_dump out db_name w = (Ok (true, "Dump exported successfully"), w') /\
    srv w' = close E s /\
    files (fs w') !! out
      = Some (dump_text (now w) (default DB_CONFIG_database (given db_name)) T).
Proof.
  intros Hsaw Hfree.
  pose proof Hsaw as (w1 & w2 & rs & s3 & names & Hconn & Huse & Hq & HF & Hrep).
  pose proof (get_db_connection_frame w) as [Hf1 _]. rewrite Hconn in Hf1.
  cbn [snd] in Hf1.
  destruct (export_dump_try_runs out db_name w1 w2 rs s3 s names T Huse Hq HF Hrep)
    as (w3 & Hw3); [rewrite Hf1; exact Hfree|].
  assert (Hrun : export_dump out db_name w
                 = (Ok (true, "Dump exported successfully"),
                    snd (conn_close Connection w3))).
  { unfold export_dump, with_connection. rewrite Hconn.
    unfold try_finally, try_except. rewrite Hw3. reflexivity. }
  exists (snd (conn_close Connection w3)). split; [exact Hrun|].
  destruct (export_dump_success E out db_name w _ _ Hrun) as (T' & s' & Hsaw' & Hsrv & Hfile).
  destruct (export_saw_functional db_name w T T' s s' Hsaw Hsaw') as [<- <-].
  auto.
Qed.

Lemma export_dump_succeeds_witness :
  exists w',
    export_dump "out.sql" None export_world
      = (Ok (true, "Dump exported successfully"), w') /\
    files (fs w') !! "out.sql"
      = Some (dump_text stamp0 DB_CONFIG_database two_tables).
Proof.
  destruct (export_dump_succeeds (Mock.engine (script_of two_tables)) "out.sql" None
              export_world two_tables (srv (snd (get_db_connection export_world))))
    as (w' & Hrun & _ & Hfile).
  - eapply mock_export_saw.
    + vm_compute. reflexivity.
    + vm_compute. reflexivity.
    + repeat constructor.
    + vm_compute. reflexivity.
  - vm_compute. set_solver.
  - exists w'. split; [exact Hrun|exact Hfile].
Defined.

(** ** export_dump: when it fails *)

Section ExportFails.

Context {E : Engine}.

Lemma bind_Raise {A B} (m : M E A) (k : A -> M E B) (w w' : world E) (e : exn) :
  bind m k w = (Raise e, w') ->
  m w = (Raise e, w') \/ exists a w1, m w = (Ok a, w1) /\ k a w1 = (Raise e, w').
Proof.
  unfold bind. destruct (m w) as [[a|e'] w1]; [eauto|]. intros [= <- <-]. auto.
Qed.

(** One table, when its export fails: the block is cut after the DROP
    statement or after the comment that announces the data. *)
Lemma export_table_fails (f : string) (v : value) (old : string) (w w' : world E)
    (e : exn) :
  files (fs w) !! f = Some old ->
  export_table Cursor f v w = (Raise e, w') ->
  exists cut,
    files (fs w') !! f = Some (old +:+ cut) /\
    (cut = block_start (py_str v) \/
     exists create, cut = block_until_data (py_str v) create).
Proof.
  intros Hold. unfold export_table. unfold mbind, M_bind, mret, M_ret.
  destruct (write_spec f (nl +:+ "-- Table structure for table `" +:+ py_str v
                          +:+ "`" +:+ nl) old w Hold)
    as (w1 & Hw1 & Hc1 & _).
  rewrite (bind_runs _ _ _ _ _ Hw1).
  destruct (write_spec f ("DROP TABLE IF EXISTS `" +:+ py_str v +:+ "`;" +:+ nl)
              _ w1 Hc1) as (w2 & Hw2 & Hc2 & _).
  rewrite (bind_runs _ _ _ _ _ Hw2).
  assert (Hstart : files (fs w2) !! f = Some (old +:+ block_start (py_str v))).
  { rewrite Hc2. unfold block_start. rewrite !append_assoc. reflexivity. }
  clear Hc2 Hw2 Hw1 Hc1 w1.
  intros Hrun. apply bind_Raise in Hrun as [Hrun|(rs1 & w3 & Hw3 & Hrun)].
  { pose proof (keeps_fs_cur_execute
                  ("SHOW CREATE TABLE `" +:+ py_str v +:+ "`") w2) as Hk.
    rewrite Hrun in Hk. cbn [snd] in Hk.
    exists (block_start (py_str v)). rewrite Hk. auto. }
  apply cur_execute_Ok in Hw3 as (s1 & _ & _ & Hf3 & _).
  apply bind_Raise in Hrun as [Hrun|(create & w4 & Hw4 & Hrun)].
  { exists (block_start (py_str v)). split; [|auto].
    unfold fetchone_subscript, subscript in Hrun.
    destruct (rows rs1) as [|row others]; [injection Hrun as _ <-; congruence|].
    destruct (row !! 1%nat); [discriminate|]. injection Hrun as _ <-. congruence. }
  assert (Hw43 : w4 = w3).
  { unfold fetchone_subscript, subscript in Hw4.
    destruct (rows rs1) as [|row others]; [discriminate|].
    destruct (row !! 1%nat); [|discriminate]. injection Hw4 as _ <-. reflexivity. }
  subst w4. rewrite <- Hf3 in Hstart.
  destruct (write_spec f (py_str create +:+ ";" +:+ nl +:+ nl) _ w3 Hstart)
    as (w5 & Hw5 & Hc5 & _).
  rewrite (bind_runs _ _ _ _ _ Hw5) in Hrun.
  destruct (write_spec f ("-- Dumping data for table `" +:+ py_str v +:+ "`" +:+ nl)
              _ w5 Hc5) as (w6 & Hw6 & Hc6 & _).
  rewrite (bind_runs _ _ _ _ _ Hw6) in Hrun.
  assert (Hdata : files (fs w6) !! f
                  = Some (old +:+ block_until_data (py_str v) (py_str create))).
  { rewrite Hc6. unfold block_until_data. rewrite !append_assoc. reflexivity. }
  clear Hc6 Hw6 Hc5 Hw5.
  apply bind_Raise in Hrun as [Hrun|(rs2 & w7 & Hw7 & Hrun)].
  { pose proof (keeps_fs_cur_execute ("SELECT * FROM `" +:+ py_str v +:+ "`") w6) as Hk.
    rewrite Hrun in Hk. cbn [snd] in Hk.
    exists (block_until_data (py_str v) (py_str create)). rewrite Hk. eauto. }
  exfalso.
  apply cur_execute_Ok in Hw7 as (s2 & _ & _ & Hf7 & _).
  rewrite <- Hf7 in Hdata.
  destruct (rows rs2) as [|r rws]; [discriminate|].
  destruct (write_spec f ("INSERT INTO `" +:+ py_str v +:+ "` (`"
                          +:+ PyStr.join "`,`" (description rs2)
                          +:+ "`) VALUES" +:+ nl) _ w7 Hdata)
    as (w8 & Hw8 & Hc8 & _).
  rewrite (bind_runs _ _ _ _ _ Hw8) in Hrun.
  destruct (rows_loop_spec f (r :: rws) 0 _ w8 ltac:(discriminate) Hc8)
    as (w9 & Hw9 & _).
  rewrite Z.add_0_l in Hw9. unfold enumerate in Hrun. rewrite Hw9 in Hrun.
  discriminate.
Qed.

(** The loop over the tables, when it fails: the blocks of the tables
    exported so far, and the cut block of the one that failed. *)
Lemma tables_loop_fails (f : string) (names : list value) :
  forall (old : string) (w w' : world E) (e : exn),
    files (fs w) !! f = Some old ->
    for_each names (export_table Cursor f) w = (Raise e, w') ->
    exists T t cut,
      files (fs w') !! f
        = Some (old +:+ String.concat "" (map table_block T) +:+ cut) /\
      (cut = block_start t \/ exists create, cut = block_until_data t create).
Proof.
  induction names as [|v names IH]; intros old w w' e Hold Hrun; [discriminate|].
  cbn [for_each] in Hrun. unfold mbind, M_bind in Hrun.
  apply bind_Raise in Hrun as [Hrun|([] & w1 & Hw1 & Hrun)].
  - destruct (export_table_fails f v old w w' e Hold Hrun) as (cut & Hc & Hcut).
    exists [], (py_str v), cut. split; [exact Hc|exact Hcut].
  - destruct (export_table_spec f v old w w1 Hold Hw1)
      as (rs1 & s1 & row & others & create & rs2 & _ & _ & _ & _ & Hc1 & _).
    destruct (IH _ w1 w' e Hc1 Hrun) as (T & t & cut & Hc & Hcut).
    exists (Table (py_str v) (py_str create) (description rs2) (rows rs2) :: T), t, cut.
    split; [|exact Hcut]. rewrite Hc. f_equal. cbn [map].
    rewrite concat_cons, !append_assoc. reflexivity.
Qed.

Lemma export_dump_try_fails (out : string) (db_name : option string)
    (w w' : world E) (e : exn) :
  export_dump_try out db_name Connection w = (Raise e, w') ->
  fs w' = fs w \/
  exists T t cut,
    files (fs w') !! out
      = Some (dump_text (now w) (default DB_CONFIG_database (given db_name)) T
              +:+ cut) /\
    (cut = block_start t \/ exists create, cut = block_until_data t create).
Proof.
  unfold export_dump_try, conn_cursor. unfold mbind, M_bind, mret, M_ret.
  rewrite (bind_runs (ret Cursor) _ w w Cursor eq_refl).
  intros Hrun. apply bind_Raise in Hrun as [Hrun|([] & w2 & Hw2 & Hrun)].
  { left. pose proof (use_database_frame db_name w) as [H _].
    rewrite Hrun in H. exact H. }
  destruct (use_database_Ok db_name w w2 Hw2) as [Hf2 Hn2].
  apply bind_Raise in Hrun as [Hrun|(rs & w3 & Hw3 & Hrun)].
  { left. pose proof (keeps_fs_cur_execute "SHOW TABLES" w2) as H.
    rewrite Hrun in H. cbn [snd] in H. congruence. }
  apply cur_execute_Ok in Hw3 as (s3 & _ & _ & Hf3 & Hn3 & _).
  apply bind_Raise in Hrun as [Hrun|(names & w4 & Hw4 & Hrun)].
  { left.
    pose proof (keeps_fs_comprehension (rows rs) (fun table => subscript table 0)
                  (fun row => keeps_fs_subscript row 0) w3) as H.
    rewrite Hrun in H. cbn [snd] in H. congruence. }
  apply comprehension_first in Hw4 as [-> _].
  apply bind_Raise in Hrun as [Hrun|([] & w5 & Hw5 & Hrun)].
  { left. unfold open_w in Hrun.
    destruct (decide (out ∈ protected (fs w3))); [|discriminate].
    injection Hrun as _ <-. congruence. }
  right. unfold open_w in Hw5.
  destruct (decide (out ∈ protected (fs w3))); [discriminate|].
  injection Hw5 as <-.
  set (w5 := with_fs _ w3) in *.
  assert (Hc5 : files (fs w5) !! out = Some "")
    by (subst w5; cbn; apply lookup_insert_eq).
  assert (Hn5 : now w5 = now w) by (subst w5; cbn; congruence).
  rewrite (bind_runs datetime_now _ w5 w5 (now w5) eq_refl) in Hrun.
  destruct (write_spec out ("-- Database dump generated on " +:+ now w5 +:+ nl)
              _ w5 Hc5) as (w6 & Hw6 & Hc6 & _).
  rewrite (bind_runs _ _ _ _ _ Hw6) in Hrun.
  destruct (write_spec out ("-- Database: " +:+ default DB_CONFIG_database (given db_name)
                            +:+ nl +:+ nl) _ w6 Hc6) as (w7 & Hw7 & Hc7 & _).
  rewrite (bind_runs _ _ _ _ _ Hw7) in Hrun.
  apply bind_Raise in Hrun as [Hrun|([] & w8 & _ & Hrun)]; [|discriminate].
  destruct (tables_loop_fails out names _ w7 w' e Hc7 Hrun) as (T & t & cut & Hc & Hcut).
  exists T, t, cut. split; [|exact Hcut].
  rewrite Hc, Hn5. f_equal. unfold dump_text, dump_header.
  rewrite !append_assoc. reflexivity.
Qed.

End ExportFails.

(** X8.  [export_dump] is not atomic.  When it returns a failure, either
    the files are as they were (it failed before opening the output
    file), or the output file has lost what it held and holds a truncated
    dump: the header, the blocks of the tables exported so far, and the
    block of the failing table cut after its DROP statement (SHOW CREATE
    TABLE failed or gave no usable row) or after the comment that
    announces its data (SELECT * failed). *)
Theorem export_dump_failure_leaves_prefix (E : Engine) (out : string)
    (db_name : option string) (w w' : world E) (m : string) :
  export_dump out db_name w = (Ok (false, m), w') ->
  fs w' = fs w \/
  exists T t cut,
    files (fs w') !! out
      = Some (dump_text (now w) (default DB_CONFIG_database (given db_name)) T
              +:+ cut) /\
    (cut = block_start t \/ exists create, cut = block_until_data t create).
Proof.
  unfold export_dump, with_connection. intros Hrun.
  pose proof (get_db_connection_frame w) as [Hf1 Hn1].
  destruct (get_db_connection w) as [[[]|e] w1] eqn:Hconn; cbn [snd] in *.
  - unfold try_finally, try_except, conn_close in Hrun.
    destruct (export_dump_try out db_name Connection w1) as [[r|e] w2] eqn:Htry.
    + apply export_dump_try_spec in Htry as (? & ? & ? & ? & ? & _ & _ & _ & _ & _ & ->).
      discriminate.
    + unfold export_dump_except, mret, M_ret, ret in Hrun. injection Hrun as _ <-.
      cbn [fs emit with_srv].
      destruct (export_dump_try_fails out db_name w1 w2 e Htry) as [H|H].
      * left. congruence.
      * right. rewrite <- Hn1. exact H.
  - left. unfold export_dump_except, mret, M_ret, ret in Hrun.
    injection Hrun as _ <-. exact Hf1.
Qed.

Lemma export_dump_failure_leaves_prefix_witness :
  (fs (snd (export_dump "out.sql" None
              (listing_world {[ "out.sql" := "the dump of last week" ]})))
   = fs (listing_world {[ "out.sql" := "the dump of last week" ]}) \/
   exists T t cut,
     files (fs (snd (export_dump "out.sql" None
                       (listing_world {[ "out.sql" := "the dump of last week" ]}))))
       !! "out.sql"
     = Some (dump_text stamp0 DB_CONFIG_database T +:+ cut) /\
     (cut = block_start t \/ exists create, cut = block_until_data t create)) /\
  files (fs (snd (export_dump "out.sql" None
                    (listing_world {[ "out.sql" := "the dump of last week" ]}))))
    !! "out.sql"
  = Some (dump_text stamp0 DB_CONFIG_database [] +:+ block_start "Flight").
Proof.
  split.
  - apply (export_dump_failure_leaves_prefix listing_engine "out.sql" None
             (listing_world {[ "out.sql" := "the dump of last week" ]})
             (snd (export_dump "out.sql" None
                     (listing_world {[ "out.sql" := "the dump of last week" ]})))
             "Error exporting dump: Access denied").
    apply run_result. vm_compute. reflexivity.
  - vm_compute. reflexivity.
Defined.

(** X9.  A database that cannot be selected stops the export before the
    output file is opened: [export_dump] returns the failure pair with
    the engine's message, lists no table, closes the connection, and the
    files, a previous dump at [output_file_path] among them, are as they
    were. *)
Theorem export_dump_database_refused (E : Engine) (out : string)
    (db_name : option string) (w w1 w2 : world E) (e : exn) :
  get_db_connection w = (Ok Connection, w1) ->
  use_database Cursor db_name w1 = (Raise e, w2) ->
  export_dump out db_name w
    = (Ok (false, "Error exporting dump: " +:+ exn_msg e),
       snd (conn_close Connection w2)) /\
  fs (snd (conn_close Connection w2)) = fs w /\
  exists n m, given db_name = Some n /\
    trace (snd (conn_close Connection w2))
      = trace w1 ++ [EvExecute ("USE " +:+ n) (Some m); EvClose].
Proof.
  intros Hconn Huse.
  pose proof (get_db_connection_frame w) as [Hf1 _]. rewrite Hconn in Hf1.
  pose proof (use_database_frame db_name w1) as [Hf2 _]. rewrite Huse in Hf2.
  cbn [snd] in *. split; [|split].
  - unfold export_dump, with_connection. rewrite Hconn.
    unfold export_dump_try, conn_cursor. unfold_M. rewrite Huse. reflexivity.
  - cbn. congruence.
  - unfold use_database in Huse. destruct (given db_name) as [n|]; [|discriminate].
    unfold_M. unfold cur_execute in Huse.
    destruct (execute E ("USE " +:+ n) (srv w1)) as [[m|rs] s]; [|discriminate].
    injection Huse as _ <-. exists n, m. split; [reflexivity|].
    cbn. rewrite <- app_assoc. reflexivity.
Qed.

Lemma export_dump_database_refused_witness :
  export_dump "out.sql" (Some "nowhere") export_world
    = (Ok (false, "Error exporting dump: Unknown database 'nowhere'"),
       snd (conn_close Connection
              (snd (use_database Cursor (Some "nowhere")
                      (snd (get_db_connection export_world)))))).
Proof.
  apply (proj1 (export_dump_database_refused (Mock.engine (script_of two_tables))
                  "out.sql" (Some "nowhere") export_world
                  (snd (get_db_connection export_world))
                  (snd (use_database Cursor (Some "nowhere")
                          (snd (get_db_connection export_world))))
                  (mariadb_error "Unknown database 'nowhere'")
                  ltac:(apply run_result; vm_compute; reflexivity)
                  ltac:(apply run_result; vm_compute; reflexivity))).
Defined.

(** ** Value serialization: no two values are written alike *)

Section Distinct.

Lemma quoted_not_numeral (s : string) :
  NilZero.int_of_string (String quote s) = None.
Proof.
  unfold NilZero.int_of_string, quote. cbn.
  destruct (NilEmpty.uint_of_string s); reflexivity.
Qed.

Lemma of_int_unquoted (n : Z) (s : string) : PyStr.of_int n <> String quote s.
Proof.
  intros H. pose proof (of_int_parses n) as Hn.
  rewrite H, quoted_not_numeral in Hn. discriminate.
Qed.

Lemma of_int_not_null (n : Z) : PyStr.of_int n <> "NULL".
Proof.
  intros H. pose proof (of_int_parses n) as Hn. rewrite H in Hn. discriminate.
Qed.

Lemma append_quote_inj (a b : string) : a +:+ "'" = b +:+ "'" -> a = b.
Proof.
  revert b. induction a as [|x a IH]; intros [|y b] H.
  - reflexivity.
  - rewrite append_cons in H. cbn in H. injection H as _ H. destruct b; discriminate.
  - rewrite append_cons in H. cbn in H. injection H as _ H. destruct a; discriminate.
  - rewrite !append_cons in H. injection H as -> H. f_equal. apply IH. exact H.
Qed.

Lemma of_int_not_text (n : Z) (t : string) :
  NilZero.int_of_string t = None -> PyStr.of_int n <> t.
Proof.
  intros Ht H. pose proof (of_int_parses n) as Hn. rewrite H, Ht in Hn. discriminate.
Qed.

End Distinct.

(** X10.  Among [None], the [bool]s, the other [int]s and the [str]s, no
    two values are written alike: NULL stands for [None] only (the string
    NULL is written between quotes), True and False for the [bool]s, a
    numeral for one [int] only, and a quoted text for one [str] only.
    What is written does not tell the other classes: a [float] is written
    as the text [str] gives, and any other object like the [str] of its
    text. *)
Theorem serialize_value_injective (v v' : value) :
  told_apart v = true -> told_apart v' = true ->
  serialize_value v = serialize_value v' -> v = v'.
Proof.
  intros Hv Hv'.
  destruct v as [|b|n|r|t|cls t]; destruct v' as [|b'|n'|r'|t'|cls' t'];
    try discriminate Hv; try discriminate Hv';
    cbn [serialize_value py_str]; rewrite ?append_cons; intros H;
    try reflexivity;
    try (destruct b; discriminate H);
    try (destruct b'; discriminate H);
    try discriminate H;
    try (apply of_int_not_null in H as []);
    try (symmetry in H; apply of_int_not_null in H as []);
    try (apply of_int_unquoted in H as []);
    try (symmetry in H; apply of_int_unquoted in H as []).
  - destruct b, b'; (reflexivity || discriminate H).
  - exfalso. symmetry in H. revert H. apply of_int_not_text.
    destruct b; reflexivity.
  - exfalso. revert H. apply of_int_not_text. destruct b'; reflexivity.
  - f_equal. apply of_int_inj. exact H.
  - injection H as H. change ("" +:+ ?x) with x in H.
    apply append_quote_inj in H. f_equal.
    rewrite <- (undouble_replace t), <- (undouble_replace t'). fold quote.
    unfold quote. rewrite H. reflexivity.
Qed.

Lemma serialize_value_injective_witness :
  serialize_value (VStr "NULL") <> serialize_value VNone /\
  serialize_value (VStr "7") <> serialize_value (VInt 7) /\
  serialize_value (VStr "True") <> serialize_value (VBool true).
Proof.
  repeat split; intros H;
    apply serialize_value_injective in H; try reflexivity; discriminate.
Defined.

(** ** threaded_import: the edges *)

Section ThreadEdges.

Context {E : Engine}.

(** Without chunks nothing moves but the coordinator, and the shared
    world stays as it is. *)
Lemma idle_run (prefix : string) (schedule : list actor) : forall p : pool E,
  chunks p = [] -> threads p = [] -> results p = [] ->
  match pc p with Starting i | Joining i => i = 0%nat | _ => True end ->
  results (run prefix schedule p) = [] /\ shared (run prefix schedule p) = shared p.
Proof.
  induction schedule as [|a schedule IH]; intros p Hch Hth Hrs Hpc; [auto|].
  cbn [run]. destruct (step prefix a p) as [p'|] eqn:Hstep; cbn [default];
    [|apply IH; assumption].
  assert (H : chunks p' = [] /\ threads p' = [] /\ results p' = [] /\
              shared p' = shared p /\
              match pc p' with Starting i | Joining i => i = 0%nat | _ => True end).
  { unfold step in Hstep. rewrite Hch, Hth in Hstep.
    destruct a as [|i]; [|rewrite lookup_nil in Hstep; destruct (pc p); discriminate].
    destruct (pc p) as [i|i| |]; try subst i; cbn in Hstep;
      try discriminate; injection Hstep as <-; cbn; auto. }
  destruct H as (Hch' & Hth' & Hrs' & Hsh' & Hpc').
  rewrite <- Hsh'. apply IH; assumption.
Qed.

Lemma cleanup_protected (path content : string) (k : nat) : forall w : world E,
  files (fs w) !! path = Some content ->
  path ∈ protected (fs w) ->
  fs (snd (cleanup (repeat path k) w)) = fs w /\
  trace (snd (cleanup (repeat path k) w))
    = trace w ++ repeat (EvRemove path (Some (permission_denied path))) k.
Proof.
  induction k as [|k IH]; intros w Hfile Hprot.
  - cbn. rewrite app_nil_r. auto.
  - cbn [repeat]. unfold cleanup. cbn [for_each]. fold (cleanup (E := E) (repeat path k)).
    unfold_M. unfold os_remove. rewrite !Hfile.
    rewrite !decide_True by exact Hprot. cbn [fst snd].
    set (w1 := emit _ w).
    destruct (IH w1 Hfile Hprot) as [Hfs Htr].
    destruct (cleanup (repeat path k) w1) as [[[]|e] w2]; cbn [fst snd] in *;
      rewrite Hfs, Htr; subst w1; cbn; rewrite <- app_assoc; auto.
Qed.

Lemma import_chunk_record_from_import (chunk_file name : string) (w : world E) :
  from_import (E := E) chunk_file (fst (import_chunk_record chunk_file name w)).
Proof.
  exists w. unfold import_chunk_record. unfold_M. unfold time_time.
  pose proof (with_connection_total (import_dump_try chunk_file (Some name))
                (fun e => (false, "Error importing dump: " +:+ exn_msg e)) w) as Htot.
  fold (import_dump_except (E := E)) in Htot.
  change (with_connection _ _ w) with (import_dump chunk_file (Some name) w) in Htot.
  destruct (import_dump chunk_file (Some name) w) as [[[b m]|e] w1] eqn:Hrun;
    [|discriminate].
  cbn. rewrite Hrun. eauto.
Qed.

(** Every record in the pool was made by the [try] suite of a worker. *)
Lemma from_import_run (path prefix : string) (n : nat) (schedule : list actor) :
  forall p : pool E,
    chunks p = repeat path n ->
    Forall (from_import (E := E) path) (results p) ->
    (forall i wk, threads p !! i = Some wk ->
       match wk with
       | Started c _ => c = path
       | Appending r => from_import (E := E) path r
       | Finished => True
       end) ->
    Forall (from_import (E := E) path) (results (run prefix schedule p)).
Proof.
  induction schedule as [|a schedule IH]; intros p Hch Hrs Hth; [exact Hrs|].
  cbn [run]. destruct (step prefix a p) as [p'|] eqn:Hstep; cbn [default];
    [|apply IH; assumption].
  unfold step in Hstep. destruct a as [|i].
  - destruct (pc p) as [i|i| |].
    + destruct (chunks p !! i) as [c|] eqn:Hc; injection Hstep as <-;
        apply IH; cbn; try assumption.
      intros j wk Hj. apply lookup_app_Some in Hj as [Hj|[_ Hj]]; [exact (Hth j wk Hj)|].
      apply list_lookup_singleton_Some in Hj as [_ <-].
      rewrite Hch in Hc. apply lookup_lt_Some in Hc as Hlt.
      rewrite repeat_length in Hlt. rewrite repeat_lookup_lt in Hc by exact Hlt.
      congruence.
    + destruct (threads p !! i) as [[| |]|]; try discriminate;
        injection Hstep as <-; apply IH; assumption.
    + injection Hstep as <-. apply IH; assumption.
    + discriminate.
  - assert (Hw : match threads p !! i with
                 | Some (Started chunk_file db_name) =>
                     let '(r, w) := import_chunk_record chunk_file db_name (shared p) in
                     Some (Pool (pc p) (chunks p) (<[i := Appending r]> (threads p))
                             (results p) w)
                 | Some (Appending r) =>
                     Some (Pool (pc p) (chunks p) (<[i := Finished]> (threads p))
                             (results p ++ [r]) (shared p))
                 | _ => None
                 end = Some p') by (destruct (pc p); exact Hstep).
    clear Hstep. destruct (threads p !! i) as [[c d|r|]|] eqn:Hi; try discriminate.
    + pose proof (Hth i _ Hi) as Hc. cbn in Hc. subst c.
      pose proof (import_chunk_record_from_import path d (shared p)) as Hr.
      destruct (import_chunk_record path d (shared p)) as [r w1]. cbn [fst] in Hr.
      injection Hw as <-. apply IH; cbn; try assumption.
      intros j wk Hj. destruct (decide (j = i)) as [->|Hne].
      * rewrite list_lookup_insert_eq in Hj by (eapply lookup_lt_Some; exact Hi).
        injection Hj as <-. exact Hr.
      * rewrite list_lookup_insert_ne in Hj by congruence. exact (Hth j wk Hj).
    + injection Hw as <-. apply IH; cbn; try assumption.
      * apply Forall_app. split; [assumption|]. constructor; [|constructor].
        exact (Hth i _ Hi).
      * intros j wk Hj. destruct (decide (j = i)) as [->|Hne].
        -- rewrite list_lookup_insert_eq in Hj by (eapply lookup_lt_Some; exact Hi).
           injection Hj as <-. exact I.
        -- rewrite list_lookup_insert_ne in Hj by congruence. exact (Hth j wk Hj).
Qed.

End ThreadEdges.

(** X11.  With no worker to start ([num_threads] zero or negative),
    [threaded_import] returns the empty list and leaves the world as it
    was: no connection is tried, nothing is removed, the dump stays. *)
Theorem threaded_import_no_workers (E : Engine) (path prefix : string) (n : Z)
    (w : world E) :
  n <= 0 ->
  threaded_import path prefix n [Main; Main; Main] w = Some ([], w) /\
  forall schedule rs w',
    threaded_import path prefix n schedule w = Some (rs, w') -> rs = [] /\ w' = w.
Proof.
  intros Hn.
  assert (Hsplit : split_dump_file path n = []).
  { unfold split_dump_file. replace (Z.to_nat n) with 0%nat by lia. reflexivity. }
  split.
  - unfold threaded_import, threaded_import_start. rewrite Hsplit. reflexivity.
  - intros schedule rs w'. unfold threaded_import, threaded_import_start.
    rewrite Hsplit.
    destruct (idle_run prefix schedule (Pool (Starting 0) [] [] [] w)
                eq_refl eq_refl eq_refl eq_refl) as [Hrs Hsh].
    destruct (pc (run prefix schedule _)); try discriminate.
    intros [= <- <-]. auto.
Qed.

Lemma threaded_import_no_workers_witness :
  threaded_import "dump.sql" "copy" 0 [Main; Main; Main] one_statement_world
    = Some ([], one_statement_world).
Proof.
  apply (proj1 (threaded_import_no_workers (Mock.engine one_statement_script)
                  "dump.sql" "copy" 0 one_statement_world ltac:(lia))).
Defined.

(** X12.  A dump that cannot be removed (it does not exist, or it may not
    be removed) does not make [threaded_import] fail: every removal of
    the cleanup loop fails and is passed over, the files are as they were
    on entry, and the list of records is returned all the same. *)
Theorem threaded_import_passes_over_cleanup_failures (E : Engine)
    (path prefix : string) (n : Z) (schedule : list actor) (w w' : world E)
    (rs : list outcome) :
  files (fs w) !! path = None \/ path ∈ protected (fs w) ->
  threaded_import path prefix n schedule w = Some (rs, w') ->
  fs w' = fs w /\
  exists before m,
    trace w' = before ++ repeat (EvRemove path (Some m)) (Z.to_nat n).
Proof.
  intros Hcannot Hret.
  apply threaded_import_returned in Hret
    as (p & order & _ & [Hch Hpc Hth Hnames Hnd Hord Hw] & Hp & Hrs & Hsh).
  rewrite Hp in Hw. destruct Hw as (w_pre & Hfs & Hshared).
  rewrite Hsh, Hch in Hshared. subst w'. rewrite <- Hfs in Hcannot |- *.
  destruct (files (fs w_pre) !! path) as [content|] eqn:Hfile.
  - destruct Hcannot as [|Hprot]; [discriminate|].
    destruct (cleanup_protected path content (Z.to_nat n) w_pre Hfile Hprot)
      as [Hkeep Htr].
    split; [exact Hkeep|]. exists (trace w_pre), (permission_denied path). exact Htr.
  - destruct (cleanup_absent path (Z.to_nat n) w_pre Hfile) as [Hkeep Htr].
    split; [exact Hkeep|]. exists (trace w_pre), (no_such_file path). exact Htr.
Qed.

Lemma threaded_import_passes_over_cleanup_failures_witness :
  fs (world_after (threaded_import "absent.sql" "copy" 2 interleaved_schedule
                     one_statement_world) one_statement_world)
    = fs one_statement_world.
Proof.
  refine (proj1 (threaded_import_passes_over_cleanup_failures
                   (Mock.engine one_statement_script) "absent.sql" "copy" 2
                   interleaved_schedule one_statement_world _
                   (default [] (fst <$> threaded_import "absent.sql" "copy" 2
                                  interleaved_schedule one_statement_world)) _ _)).
  - left. vm_compute. reflexivity.
  - apply returned_result. vm_compute. reflexivity.
Defined.

(** X13.  [import_dump] never raises, so the [except] suite of
    [import_chunk] is never taken: under any schedule, every record
    [threaded_import] returns carries a measured time, and its success and
    message are the pair a run of [import_dump] on the dump returned for
    the database of that record. *)
Theorem threaded_import_records_from_import_dump (E : Engine)
    (path prefix : string) (n : Z) (schedule : list actor) (w w' : world E)
    (rs : list outcome) :
  threaded_import path prefix n schedule w = Some (rs, w') ->
  Forall (from_import (E := E) path) rs.
Proof.
  unfold threaded_import. intros Hret.
  pose proof (from_import_run path prefix (Z.to_nat n) schedule
                (threaded_import_start path n w) eq_refl (Forall_nil_2 _)) as H.
  destruct (pc (run prefix schedule (threaded_import_start path n w)));
    try discriminate.
  injection Hret as <- _. apply H.
  intros i wk Hi. cbn in Hi. rewrite lookup_nil in Hi. discriminate.
Qed.

Lemma threaded_import_records_from_import_dump_witness :
  Forall (from_import (E := Mock.engine one_statement_script) "dump.sql")
    [Outcome "copy_thread_1" true "Dump imported successfully" (Some 0);
     Outcome "copy_thread_0" true "Dump imported successfully" (Some 0)].
Proof.
  apply (threaded_import_records_from_import_dump (Mock.engine one_statement_script)
           "dump.sql" "copy" 2 interleaved_schedule one_statement_world
           (world_after (threaded_import "dump.sql" "copy" 2 interleaved_schedule
                           one_statement_world) one_statement_world)).
  apply returned_result. vm_compute. reflexivity.
Defined.

(** ** check_data_consistency *)

Section Checks.

Context {E : Engine}.

(** The run of [check_data_consistency] once the connection is open, by
    the answers of the engine to the two queries. *)
Lemma check_data_consistency_run (w w1 : world E) :
  get_db_connection w = (Ok Connection, w1) ->
  match execute E duplicate_seats_query (srv w1) with
  | (inl cause, s1) =>
      fst (check_data_consistency w)
        = Ok (false, "Error during consistency checks: " +:+ cause, ∅) /\
      trace (snd (check_data_consistency w))
        = trace w1 ++ [EvExecute duplicate_seats_query (Some cause); EvClose]
  | (inr rs1, s1) =>
      match execute E overlapping_flights_query s1 with
      | (inl cause, s2) =>
          fst (check_data_consistency w)
            = Ok (false, "Error during consistency checks: " +:+ cause, ∅) /\
          trace (snd (check_data_consistency w))
            = trace w1 ++ [EvExecute duplicate_seats_query None;
                           EvExecute overlapping_flights_query (Some cause); EvClose]
      | (inr rs2, s2) =>
          (exists t1 t2,
             fst (check_data_consistency w)
               = Ok (true, "Consistency checks completed",
                     <["overlapping_flights" :=
                         CheckEntry (Z.of_nat (length (rows rs2))) t2 (rows rs2)]>
                       (<["duplicate_seats" :=
                            CheckEntry (Z.of_nat (length (rows rs1))) t1 (rows rs1)]> ∅))) /\
          trace (snd (check_data_consistency w))
            = trace w1 ++ [EvExecute duplicate_seats_query None;
                           EvExecute overlapping_flights_query None; EvClose]
      end
  end.
Proof.
  intros Hconn. unfold check_data_consistency, with_connection. rewrite Hconn.
  unfold check_data_consistency_try, check_data_consistency_except, conn_cursor,
    time_time, conn_close.
  unfold_M. unfold cur_execute.
  destruct (execute E duplicate_seats_query (srv w1)) as [[c|rs1] s1]; cbn.
  - rewrite <- app_assoc. auto.
  - destruct (execute E overlapping_flights_query s1) as [[c|rs2] s2]; cbn.
    + rewrite <- !app_assoc. auto.
    + rewrite <- !app_assoc. split; [eauto|reflexivity].
Qed.

End Checks.

(** X14.  [check_data_consistency] returns a triple whatever happens, and
    its checks are all or nothing.  On success the message is fixed and
    the results hold exactly the two entries, each with the rows the
    engine gave for its query and their number as count.  On failure the
    results are empty, also when the first check had succeeded; the
    message carries the failure of the connection or the engine's message
    for the first query it refused. *)
Theorem check_data_consistency_all_or_nothing (E : Engine) (w : world E) :
  exists b m res,
    fst (check_data_consistency w) = Ok (b, m, res) /\
    if b then
      m = "Consistency checks completed" /\
      exists w1 rs1 s1 rs2 s2 t1 t2,
        get_db_connection w = (Ok Connection, w1) /\
        execute E duplicate_seats_query (srv w1) = (inr rs1, s1) /\
        execute E overlapping_flights_query s1 = (inr rs2, s2) /\
        res = <["overlapping_flights" :=
                  CheckEntry (Z.of_nat (length (rows rs2))) t2 (rows rs2)]>
                (<["duplicate_seats" :=
                     CheckEntry (Z.of_nat (length (rows rs1))) t1 (rows rs1)]> ∅)
    else
      res = ∅ /\
      ((exists w1, get_db_connection w = (Raise connect_failed, w1) /\
                   m = "Error during consistency checks: " +:+ exn_msg connect_failed) \/
       (exists w1 cause,
          get_db_connection w = (Ok Connection, w1) /\
          m = "Error during consistency checks: " +:+ cause /\
          ((exists s1, execute E duplicate_seats_query (srv w1) = (inl cause, s1)) \/
           (exists rs1 s1 s2,
              execute E duplicate_seats_query (srv w1) = (inr rs1, s1) /\
              execute E overlapping_flights_query s1 = (inl cause, s2))))).
Proof.
  destruct (get_db_connection w) as [[[]|e] w1] eqn:Hconn.
  - pose proof (check_data_consistency_run w w1 Hconn) as Hrun.
    destruct (execute E duplicate_seats_query (srv w1)) as [[c|rs1] s1] eqn:Hq1.
    + destruct Hrun as [Hres _]. eexists false, _, _. split; [exact Hres|].
      split; [reflexivity|]. right. exists w1, c. eauto 10.
    + destruct (execute E overlapping_flights_query s1) as [[c|rs2] s2] eqn:Hq2.
      * destruct Hrun as [Hres _]. eexists false, _, _. split; [exact Hres|].
        split; [reflexivity|]. right. exists w1, c. eauto 10.
      * destruct Hrun as [(t1 & t2 & Hres) _]. eexists true, _, _.
        split; [exact Hres|]. split; [reflexivity|].
        exists w1, rs1, s1, rs2, s2, t1, t2. auto.
  - pose proof (get_db_connection_result w) as Hres. rewrite Hconn in Hres.
    destruct Hres as [Hres|Hres]; [discriminate|]. cbn in Hres. injection Hres as ->.
    eexists false, _, _. split.
    + unfold check_data_consistency, with_connection. rewrite Hconn. reflexivity.
    + split; [reflexivity|]. left. eauto.
Qed.

(** X15.  [check_data_consistency] only reads: on an open connection it
    executes its first query, then, if that one was accepted, its second
    query, and nothing else; it commits nothing, and closes the
    connection. *)
Theorem check_data_consistency_runs_two_queries (E : Engine) (w : world E) :
  exists causes inner,
    trace (snd (check_data_consistency w)) = trace w ++ lifecycle causes inner /\
    ((exists cause, inner = [EvExecute duplicate_seats_query (Some cause)]) \/
     (exists failure, inner = [EvExecute duplicate_seats_query None;
                               EvExecute overlapping_flights_query failure])).
Proof.
  unfold lifecycle.
  destruct (connect_loop_spec (Z.to_nat MAX_RETRIES) 0 w) as (causes & Hlen & _ & _ & Hres).
  fold (get_db_connection (E := E)) in Hres.
  change (Z.to_nat MAX_RETRIES) with 3%nat in *. change MAX_RETRIES with 3.
  exists causes.
  destruct (decide (length causes < 3)%nat) as [Hlt|Hge]; destruct Hres as [Hr Htr].
  - destruct (Z.ltb_spec (Z.of_nat (length causes)) 3); [|lia].
    apply run_result in Hr.
    pose proof (check_data_consistency_run w _ Hr) as Hrun. rewrite Htr in Hrun.
    destruct (execute E duplicate_seats_query _) as [[c|rs1] s1].
    + destruct Hrun as [_ Hrun]. eexists. split; [|left; eauto].
      rewrite Hrun, <- !app_assoc. reflexivity.
    + destruct (execute E overlapping_flights_query s1) as [[c|rs2] s2];
        destruct Hrun as [_ Hrun]; (eexists; split; [|right; eauto]);
        rewrite Hrun, <- !app_assoc; reflexivity.
  - destruct (Z.ltb_spec (Z.of_nat (length causes)) 3); [lia|].
    exists [EvExecute duplicate_seats_query None;
            EvExecute overlapping_flights_query None].
    split; [|right; eauto].
    apply run_result in Hr.
    unfold check_data_consistency, with_connection. rewrite Hr. cbn.
    rewrite Htr, app_nil_r. reflexivity.
Qed.

(** ** benchmark_import_export *)

Section Benchmark.

Context {E : Engine}.

Lemma import_dump_returns (path : string) (name : option string) (w : world E) :
  exists b m, fst (import_dump path name w) = Ok (b, m).
Proof.
  pose proof (with_connection_total (import_dump_try path name)
                (fun e => (false, "Error importing dump: " +:+ exn_msg e)) w) as H.
  change (fst (import_dump path name w) = Ok
            match fst (bind get_db_connection (import_dump_try path name) w) with
            | Ok r => r
            | Raise e => (false, "Error importing dump: " +:+ exn_msg e)
            end) in H.
  destruct (match fst (bind get_db_connection (import_dump_try path name) w) with
            | Ok r => r
            | Raise e => (false, "Error importing dump: " +:+ exn_msg e)
            end) as [b m]. eauto.
Qed.

Lemma export_dump_returns (path : string) (name : option string) (w : world E) :
  exists b m, fst (export_dump path name w) = Ok (b, m).
Proof.
  pose proof (with_connection_total (export_dump_try path name)
                (fun e => (false, "Error exporting dump: " +:+ exn_msg e)) w) as H.
  change (fst (export_dump path name w) = Ok
            match fst (bind get_db_connection (export_dump_try path name) w) with
            | Ok r => r
            | Raise e => (false, "Error exporting dump: " +:+ exn_msg e)
            end) in H.
  destruct (match fst (bind get_db_connection (export_dump_try path name) w) with
            | Ok r => r
            | Raise e => (false, "Error exporting dump: " +:+ exn_msg e)
            end) as [b m]. eauto.
Qed.

(** One iteration: it never raises, and its record has one of the two
    shapes. *)
Lemma benchmark_iteration_spec (i : Z) (w : world E) :
  exists r, fst (benchmark_iteration i w) = Ok r /\
            iteration r = i /\ record_shape r.
Proof.
  unfold benchmark_iteration. unfold_M. unfold time_time.
  destruct (import_dump_returns DUMP_FILE (Some ("benchmark_db_" +:+ PyStr.of_int i)) w)
    as (b & m & Himp).
  destruct (import_dump DUMP_FILE _ w) as [r1 w1]. cbn [fst] in Himp. subst r1.
  destruct b; cbn [negb].
  - destruct (export_dump_returns ("benchmark_export_" +:+ PyStr.of_int i +:+ ".sql")
                (Some ("benchmark_db_" +:+ PyStr.of_int i)) w1) as (b' & m' & Hexp).
    destruct (export_dump _ _ w1) as [r2 w2]. cbn [fst] in Hexp. subst r2.
    eexists. split; [reflexivity|]. split; [reflexivity|].
    unfold record_shape. destruct b'; cbn; eauto 10.
  - eexists. split; [reflexivity|]. split; [reflexivity|].
    unfold record_shape. cbn. eauto 10.
Qed.

(** The loop: one record per index, in order, appended to what was there. *)
Lemma benchmark_loop_spec (indices : list Z) :
  forall (acc : list benchmark_record) (w : world E),
    exists rs, fst (benchmark_loop indices acc w) = Ok (acc ++ rs) /\
               map iteration rs = indices /\ Forall record_shape rs.
Proof.
  induction indices as [|i indices IH]; intros acc w.
  - exists []. cbn. rewrite app_nil_r. auto.
  - cbn [benchmark_loop]. unfold mbind, M_bind, bind.
    destruct (benchmark_iteration_spec i w) as (r & Hr & Hi & Hshape).
    destruct (benchmark_iteration i w) as [r' w1]. cbn [fst] in Hr. subst r'.
    destruct (IH (acc ++ [r]) w1) as (rs & Hrun & Hmap & HF).
    exists (r :: rs). rewrite Hrun, <- app_assoc. cbn. rewrite Hi, Hmap. auto.
Qed.

Lemma range_from_one (n : Z) :
  range 1 (n + 1) = map Z.of_nat (seq 1 (Z.to_nat n)).
Proof.
  unfold range. replace (n + 1 - 1) with n by lia.
  rewrite <- seq_shift, map_map. apply map_ext. intros k. lia.
Qed.

(** *** The files of the benchmark *)

Lemma keeps_file_keeps {A} (p : string) (m : M E A) : keeps_fs m -> keeps_file p m.
Proof. intros H w. rewrite (H w). auto. Qed.

Lemma keeps_file_writes_only {A} (p out : string) (m : M E A) :
  p <> out -> writes_only out m -> keeps_file p m.
Proof. intros Hne H w. destruct (H w) as [Hp Hf]. auto. Qed.

Lemma keeps_file_bind {A B} (p : string) (m : M E A) (k : A -> M E B) :
  keeps_file p m -> (forall a, keeps_file p (k a)) -> keeps_file p (bind m k).
Proof.
  intros Hm Hk w. unfold bind. destruct (Hm w) as [Hp Hf].
  destruct (m w) as [[a|e] w1]; cbn [snd] in *; [|auto].
  destruct (Hk a w1) as [Hp' Hf']. split; congruence.
Qed.

Lemma keeps_file_benchmark_iteration (p : string) (i : Z) :
  p <> benchmark_export i -> keeps_file p (benchmark_iteration (E := E) i).
Proof.
  intros Hne. unfold benchmark_iteration. unfold mbind, M_bind, mret, M_ret.
  apply keeps_file_bind; [apply keeps_file_keeps; intros w; reflexivity|]. intros t0.
  apply keeps_file_bind; [apply keeps_file_keeps, keeps_fs_import_dump|]. intros [b m].
  apply keeps_file_bind; [apply keeps_file_keeps; intros w; reflexivity|]. intros t1.
  destruct (negb b); [apply keeps_file_keeps, keeps_fs_ret|].
  apply keeps_file_bind; [apply keeps_file_keeps; intros w; reflexivity|]. intros t2.
  apply keeps_file_bind.
  { apply (keeps_file_writes_only p (benchmark_export i)); [exact Hne|].
    apply writes_only_export_dump. }
  intros [b' m'].
  apply keeps_file_bind; [apply keeps_file_keeps; intros w; reflexivity|]. intros t3.
  apply keeps_file_keeps, keeps_fs_ret.
Qed.

Lemma keeps_file_benchmark_loop (p : string) (indices : list Z) :
  (forall i, i ∈ indices -> p <> benchmark_export i) ->
  forall acc, keeps_file p (benchmark_loop (E := E) indices acc).
Proof.
  induction indices as [|i indices IH]; intros Hne acc.
  - apply keeps_file_keeps, keeps_fs_ret.
  - cbn [benchmark_loop]. unfold mbind, M_bind.
    apply keeps_file_bind.
    + apply keeps_file_benchmark_iteration, Hne. left.
    + intros r. apply IH. intros j Hj. apply Hne. right. exact Hj.
Qed.

Lemma dump_file_not_export (i : Z) : DUMP_FILE <> benchmark_export i.
Proof. unfold DUMP_FILE, benchmark_export. rewrite append_cons. discriminate. Qed.

End Benchmark.

(** X16.  [benchmark_import_export] never raises and never stops early:
    it returns one record per iteration, numbered 1, 2, ... in order,
    also after iterations that failed (none for a count of zero or less);
    and every record has one of the two shapes of [record_shape]: the
    export is only tried after a successful import, and an iteration
    counts as a success only when both succeeded. *)
Theorem benchmark_import_export_records (E : Engine) (iterations : Z) (w : world E) :
  exists rs,
    fst (benchmark_import_export iterations w) = Ok rs /\
    map iteration rs = map Z.of_nat (seq 1 (Z.to_nat iterations)) /\
    length rs = Z.to_nat iterations /\
    Forall record_shape rs.
Proof.
  unfold benchmark_import_export.
  destruct (benchmark_loop_spec (range 1 (iterations + 1)) [] w)
    as (rs & Hrun & Hmap & HF).
  exists rs. rewrite range_from_one in Hmap.
  split; [exact Hrun|]. split; [exact Hmap|]. split; [|exact HF].
  apply (f_equal (@length Z)) in Hmap.
  rewrite !length_map, length_seq in Hmap. exact Hmap.
Qed.

(** X17.  The only files [benchmark_import_export] creates or changes are
    its export files, benchmark_export_1.sql to
    benchmark_export_<iterations>.sql; it removes none and leaves the
    permissions alone.  In particular the dump it imports is never
    changed. *)
Theorem benchmark_import_export_files (E : Engine) (iterations : Z) (w : world E) :
  protected (fs (snd (benchmark_import_export iterations w))) = protected (fs w) /\
  (forall p,
     (forall i, 1 <= i <= iterations -> p <> benchmark_export i) ->
     files (fs (snd (benchmark_import_export iterations w))) !! p
       = files (fs w) !! p) /\
  files (fs (snd (benchmark_import_export iterations w))) !! DUMP_FILE
    = files (fs w) !! DUMP_FILE.
Proof.
  unfold benchmark_import_export. split; [|split].
  - apply (keeps_file_benchmark_loop DUMP_FILE).
    intros i _. apply dump_file_not_export.
  - intros p Hne. apply keeps_file_benchmark_loop.
    intros i Hi. apply Hne. rewrite range_from_one in Hi.
    apply list_elem_of_In, in_map_iff in Hi as (k & <- & Hk).
    apply in_seq in Hk. lia.
  - apply (keeps_file_benchmark_loop DUMP_FILE).
    intros i _. apply dump_file_not_export.
Qed.
